(** * GA Nurse Jobs Scanner: a shallow embedding of [scraper.py]

    The development follows the source file top to bottom:
    - [PyStr]: the string operations the scanner relies on
      ([str.lower], [in], slicing, [str.encode], [str(int)], [int(str)]);
    - [SHA256]: [hashlib.sha256(...).hexdigest()];
    - [Raw], [Job]: the provider's result objects and the canonical
      job dictionaries;
    - [job_id], [normalize_job], [search_serpapi], [run_scan],
      [send_email], [main].

    Python strings are modelled by [string]; a character stands for the code
    point of the same number, so the model covers the strings whose code
    points are below 256, on which [lower] and [encode] below are exactly
    Python's [str.lower] and UTF-8 [str.encode].

    Scope. The values that come from outside have the types the program
    expects of them: [Config.t] for [config.yaml], [http_outcome] and
    [Raw.t] for the provider's answers, [seen_file] for
    [data/seen_jobs.json]. Module [Untyped] follows the normalizer outside
    this range, on result objects of any shape, where it can raise.
    Writing a file or a line of output is taken to succeed, and [int]
    works under the interpreter's default limit on the number of digits. *)

From Stdlib Require Import ZArith NArith Ascii String List Lia Bool.
From stdpp Require Import gmap strings list fin_maps.
Import ListNotations.

Local Open Scope Z_scope.
#[local] Arguments String.append !s1 s2 / : simpl nomatch.

(* ===================================================================== *)
(** ** Python strings                                                     *)
(* ===================================================================== *)

Module PyStr.

Definition code (c : ascii) : Z := Z.of_N (N_of_ascii c).
Definition chr (z : Z) : ascii := ascii_of_N (Z.to_N z).

(** [c.lower()] for one code point below 256: A-Z and the Latin-1 capitals
    U+00C0..U+00DE (without the multiplication sign U+00D7) move up by 32. *)
Definition lower_char (c : ascii) : ascii :=
  let n := code c in
  if ((65 <=? n) && (n <=? 90)) ||
     ((192 <=? n) && (n <=? 222) && negb (n =? 215))
  then chr (n + 32) else c.

(** [s.lower()] *)
Fixpoint lower (s : string) : string :=
  match s with
  | EmptyString => EmptyString
  | String c s' => String (lower_char c) (lower s')
  end.

(** [s.startswith(p)] *)
Fixpoint startswith (p s : string) : bool :=
  match p, s with
  | EmptyString, _ => true
  | String _ _, EmptyString => false
  | String a p', String b s' =>
      if Ascii.eqb a b then startswith p' s' else false
  end.

(** [needle in hay]: some suffix of [hay] starts with [needle]. *)
Fixpoint contains (needle hay : string) : bool :=
  startswith needle hay ||
  match hay with
  | EmptyString => false
  | String _ hay' => contains needle hay'
  end.

(** [s[:n]] *)
Fixpoint slice_to (n : nat) (s : string) : string :=
  match n, s with
  | O, _ => EmptyString
  | S _, EmptyString => EmptyString
  | S n', String c s' => String c (slice_to n' s')
  end.

(** [bool(s)]: a string is truthy when it is not empty. *)
Definition truthy (s : string) : bool :=
  match s with EmptyString => false | String _ _ => true end.

(** [s.encode()]: UTF-8, one byte below U+0080 and two bytes from there to
    U+00FF. Bytes are integers in [0, 256). *)
Definition encode_char (c : ascii) : list Z :=
  let n := code c in
  if n <? 128 then [n]
  else [Z.lor 192 (Z.shiftr n 6); Z.lor 128 (Z.land n 63)].

Fixpoint encode (s : string) : list Z :=
  match s with
  | EmptyString => []
  | String c s' => encode_char c ++ encode s'
  end.

(** [str(n)] for a non-negative integer. *)
Definition digit_char (d : nat) : ascii := chr (48 + Z.of_nat d).

Fixpoint str_of_nat_aux (fuel n : nat) (acc : string) : string :=
  match fuel with
  | O => acc
  | S fuel' =>
      let acc' := String (digit_char (n mod 10)%nat) acc in
      match (n / 10)%nat with
      | O => acc'
      | q => str_of_nat_aux fuel' q acc'
      end
  end.

Definition str_of_nat (n : nat) : string :=
  str_of_nat_aux (S n) n EmptyString.

(** [sep.join(l)] is not needed; [s.split(",")] is: the fields between the
    commas, always at least one. *)
Fixpoint split_comma_aux (s : string) (cur : string) : list string :=
  match s with
  | EmptyString => [cur]
  | String c s' =>
      if Ascii.eqb c ","%char then cur :: split_comma_aux s' EmptyString
      else split_comma_aux s' (cur +:+ String c EmptyString)
  end.

Definition split_comma (s : string) : list string :=
  split_comma_aux s EmptyString.

(** [s * n] *)
Fixpoint mul (s : string) (n : nat) : string :=
  match n with
  | O => EmptyString
  | S n' => s +:+ mul s n'
  end.

(** [int(s)] in base ten: white space around, an optional sign, then
    digits, where single underscores may separate digits; a literal with
    more digits than [max_str_digits] is refused (leading zeros count,
    underscores, the sign and the white space do not). [None] stands for
    [ValueError]. The limit is the interpreter's default,
    [sys.int_info.default_max_str_digits]. *)
Definition max_str_digits : Z := 4300.

Definition is_space (c : ascii) : bool :=
  let n := code c in
  ((9 <=? n) && (n <=? 13)) || (n =? 32) || (n =? 133) || (n =? 160).

Definition is_digit (c : ascii) : bool :=
  let n := code c in (48 <=? n) && (n <=? 57).

Fixpoint lstrip (s : string) : string :=
  match s with
  | EmptyString => EmptyString
  | String c s' => if is_space c then lstrip s' else s
  end.

Fixpoint rstrip (s : string) : string :=
  match s with
  | EmptyString => EmptyString
  | String c s' =>
      match rstrip s' with
      | EmptyString => if is_space c then EmptyString else String c EmptyString
      | r => String c r
      end
  end.

Fixpoint parse_digits (s : string) (acc : Z) (after_digit : bool) : option Z :=
  match s with
  | EmptyString => if after_digit then Some acc else None
  | String c s' =>
      if is_digit c then parse_digits s' (10 * acc + (code c - 48)) true
      else if Ascii.eqb c "_"%char && after_digit then parse_digits s' acc false
      else None
  end.

Fixpoint count_digits (s : string) : Z :=
  match s with
  | EmptyString => 0
  | String c s' => (if is_digit c then 1 else 0) + count_digits s'
  end.

Definition parse_literal (s : string) : option Z :=
  if max_str_digits <? count_digits s then None else parse_digits s 0 false.

Definition int_of_str (s : string) : option Z :=
  match rstrip (lstrip s) with
  | String "+" r => parse_literal r
  | String "-" r => Z.opp <$> parse_literal r
  | t => parse_literal t
  end.

End PyStr.

(* ===================================================================== *)
(** ** SHA-256 ([hashlib.sha256(data).hexdigest()])                       *)
(* ===================================================================== *)

Module SHA256.

Definition mask32 : Z := 0xFFFFFFFF.
Definition add32 (x y : Z) : Z := (x + y) mod 2 ^ 32.
Definition rotr (n x : Z) : Z :=
  Z.lor (Z.shiftr x n) (Z.land (Z.shiftl x (32 - n)) mask32).
Definition shr (n x : Z) : Z := Z.shiftr x n.
Definition not32 (x : Z) : Z := Z.lxor x mask32.

Definition Ch (x y z : Z) : Z := Z.lxor (Z.land x y) (Z.land (not32 x) z).
Definition Maj (x y z : Z) : Z :=
  Z.lxor (Z.lxor (Z.land x y) (Z.land x z)) (Z.land y z).
Definition Sigma0 (x : Z) : Z := Z.lxor (Z.lxor (rotr 2 x) (rotr 13 x)) (rotr 22 x).
Definition Sigma1 (x : Z) : Z := Z.lxor (Z.lxor (rotr 6 x) (rotr 11 x)) (rotr 25 x).
Definition sigma0 (x : Z) : Z := Z.lxor (Z.lxor (rotr 7 x) (rotr 18 x)) (shr 3 x).
Definition sigma1 (x : Z) : Z := Z.lxor (Z.lxor (rotr 17 x) (rotr 19 x)) (shr 10 x).

Definition K : list Z :=
  [ 0x428A2F98; 0x71374491; 0xB5C0FBCF; 0xE9B5DBA5;
    0x3956C25B; 0x59F111F1; 0x923F82A4; 0xAB1C5ED5;
    0xD807AA98; 0x12835B01; 0x243185BE; 0x550C7DC3;
    0x72BE5D74; 0x80DEB1FE; 0x9BDC06A7; 0xC19BF174;
    0xE49B69C1; 0xEFBE4786; 0x0FC19DC6; 0x240CA1CC;
    0x2DE92C6F; 0x4A7484AA; 0x5CB0A9DC; 0x76F988DA;
    0x983E5152; 0xA831C66D; 0xB00327C8; 0xBF597FC7;
    0xC6E00BF3; 0xD5A79147; 0x06CA6351; 0x14292967;
    0x27B70A85; 0x2E1B2138; 0x4D2C6DFC; 0x53380D13;
    0x650A7354; 0x766A0ABB; 0x81C2C92E; 0x92722C85;
    0xA2BFE8A1; 0xA81A664B; 0xC24B8B70; 0xC76C51A3;
    0xD192E819; 0xD6990624; 0xF40E3585; 0x106AA070;
    0x19A4C116; 0x1E376C08; 0x2748774C; 0x34B0BCB5;
    0x391C0CB3; 0x4ED8AA4A; 0x5B9CCA4F; 0x682E6FF3;
    0x748F82EE; 0x78A5636F; 0x84C87814; 0x8CC70208;
    0x90BEFFFA; 0xA4506CEB; 0xBEF9A3F7; 0xC67178F2 ].

(** The eight working words. *)
Record state := State { ha : Z; hb : Z; hc : Z; hd : Z;
                        he : Z; hf : Z; hg : Z; hh : Z }.

Definition H0 : state :=
  State 0x6A09E667 0xBB67AE85 0x3C6EF372 0xA54FF53A
        0x510E527F 0x9B05688C 0x1F83D9AB 0x5BE0CD19.

(** Padding: a one bit, zeros, and the bit length on 64 bits, up to a
    multiple of 64 bytes. *)
Fixpoint be_bytes (n : nat) (x : Z) : list Z :=
  match n with
  | O => []
  | S n' => Z.land (Z.shiftr x (8 * Z.of_nat n')) 255 :: be_bytes n' x
  end.

Definition pad (msg : list Z) : list Z :=
  let len := Z.of_nat (List.length msg) in
  msg ++ [128] ++ repeat 0 (Z.to_nat ((55 - len) mod 64)) ++ be_bytes 8 (8 * len).

Definition be32 (bs : list Z) : Z :=
  fold_left (fun acc b => Z.lor (Z.shiftl acc 8) b) bs 0.

(** The sixteen big-endian words of a 64-byte block. *)
Fixpoint words (n : nat) (bs : list Z) : list Z :=
  match n with
  | O => []
  | S n' => be32 (firstn 4 bs) :: words n' (skipn 4 bs)
  end.

(** Message schedule, kept newest word first. *)
Fixpoint extend (n : nat) (rw : list Z) : list Z :=
  match n with
  | O => rw
  | S n' =>
      let w := add32 (add32 (add32 (sigma1 (nth 1 rw 0)) (nth 6 rw 0))
                            (sigma0 (nth 14 rw 0))) (nth 15 rw 0) in
      extend n' (w :: rw)
  end.

Definition schedule (block : list Z) : list Z :=
  rev (extend 48 (rev (words 16 block))).

Definition round (s : state) (kw : Z * Z) : state :=
  let '(k, w) := kw in
  let t1 := add32 (add32 (add32 (add32 (hh s) (Sigma1 (he s)))
                                (Ch (he s) (hf s) (hg s))) k) w in
  let t2 := add32 (Sigma0 (ha s)) (Maj (ha s) (hb s) (hc s)) in
  State (add32 t1 t2) (ha s) (hb s) (hc s)
        (add32 (hd s) t1) (he s) (hf s) (hg s).

Definition compress (h : state) (block : list Z) : state :=
  let s := fold_left round (combine K (schedule block)) h in
  State (add32 (ha h) (ha s)) (add32 (hb h) (hb s))
        (add32 (hc h) (hc s)) (add32 (hd h) (hd s))
        (add32 (he h) (he s)) (add32 (hf h) (hf s))
        (add32 (hg h) (hg s)) (add32 (hh h) (hh s)).

Fixpoint blocks (n : nat) (bs : list Z) (h : state) : state :=
  match n with
  | O => h
  | S n' => blocks n' (skipn 64 bs) (compress h (firstn 64 bs))
  end.

Definition digest (msg : list Z) : state :=
  let p := pad msg in
  blocks (List.length p / 64)%nat p H0.

(** Lower-case hexadecimal rendering. *)
Definition hex_digit (d : Z) : ascii :=
  match d with
  | 0 => "0" | 1 => "1" | 2 => "2" | 3 => "3" | 4 => "4"
  | 5 => "5" | 6 => "6" | 7 => "7" | 8 => "8" | 9 => "9"
  | 10 => "a" | 11 => "b" | 12 => "c" | 13 => "d" | 14 => "e"
  | _ => "f"
  end%char.

Fixpoint hex_word (n : nat) (w : Z) (rest : string) : string :=
  match n with
  | O => rest
  | S n' =>
      String (hex_digit (Z.land (Z.shiftr w (4 * Z.of_nat n')) 15))
             (hex_word n' w rest)
  end.

Definition hex_state (s : state) : string :=
  hex_word 8 (ha s) (hex_word 8 (hb s) (hex_word 8 (hc s) (hex_word 8 (hd s)
  (hex_word 8 (he s) (hex_word 8 (hf s) (hex_word 8 (hg s)
  (hex_word 8 (hh s) EmptyString))))))).

Definition hexdigest (msg : list Z) : string := hex_state (digest msg).

End SHA256.

(* ===================================================================== *)
(** ** Exceptions, the outside world and the monad of effects             *)
(* ===================================================================== *)

(** The exceptions that can leave the functions modelled here. *)
Inductive exn :=
| KeyError (key : string)
| ValueError (msg : string)
| JSONDecodeError
| TemplateError (msg : string)
| TypeError (msg : string)
| AttributeError (msg : string)
| IndexError (msg : string).

Inductive result (A : Type) :=
| Ok (a : A)
| Raise (e : exn).
Arguments Ok {A} a.
Arguments Raise {A} e.

(** Free-form JSON, for the provider's [detected_extensions] annotations. *)
#[local] Set Warnings "-register-all".
Inductive json :=
| JNull
| JBool (b : bool)
| JNum (n : Z)
| JStr (s : string)
| JArr (l : list json)
| JObj (o : list (string * json)).
#[local] Set Warnings "register-all".

(** A result object of the job-search provider: a JSON object in which every
    key the scanner reads may be absent and holds, when present, a value of
    the type the provider gives it (strings, a list of apply options, an
    object of annotations). *)
Module ApplyOption.
Record t := Make { link : option string }.
End ApplyOption.

Module Raw.
Record t := Make {
  title : option string;
  company_name : option string;
  location : option string;
  description : option string;
  detected_extensions : option (list (string * json));
  apply_options : option (list ApplyOption.t);
  share_link : option string;
  via : option string
}.
End Raw.

(** A job dictionary. [normalize_job] sets the first eight keys and
    [run_scan] adds ["id"]; each key is a field that may be absent. *)
Module Job.
Record t := Make {
  title : option string;
  company_name : option string;
  location : option string;
  description_snippet : option string;
  detected_extensions : option (list (string * json));
  apply_link : option string;
  via : option string;
  scraped_at : option string;
  id : option string
}.

(** [job["id"] = jid] *)
Definition set_id (jid : string) (j : t) : t :=
  Make (title j) (company_name j) (location j) (description_snippet j)
       (detected_extensions j) (apply_link j) (via j) (scraped_at j)
       (Some jid).
End Job.

(** [config.yaml], as [yaml.safe_load] returns it: every key may be absent. *)
Module Location.
Record t := Make { search_string : option string }.
End Location.

Module Config.
Record t := Make {
  locations : option (list Location.t);
  search_queries : option (list string);
  keywords : option (list string);
  email_enabled : option bool;
  page_url : option string
}.
End Config.

(** What an HTTP request to the provider comes to: an exception (connection
    failure, error status, body that is not JSON), or a JSON object whose
    ["jobs_results"] key may be absent. *)
Inductive http_outcome :=
| HttpFailed (msg : string)
| HttpJson (jobs_results : option (list Raw.t)).

(** One reading of the clock, in the two renderings the program uses. *)
Record instant := Instant { isoformat : string; strftime : string }.

(** The file [data/seen_jobs.json]. *)
Inductive seen_file :=
| NoFile
| Malformed
| Stored (seen : gmap string string).

(** One SMTP session: connect, STARTTLS, login, sendmail. *)
Record message := Message {
  msg_subject : string; msg_from : string; msg_to : string; msg_html : string
}.

Record smtp_session := Session {
  smtp_host : string; smtp_port_no : Z;
  smtp_login : string * string;
  smtp_rcpt : list string;
  smtp_msg : message
}.

(** The state a run changes: the two files, standard output, the number of
    HTTP requests and clock readings made so far, and the SMTP sessions
    attempted. *)
Record world := World {
  seen_json : seen_file;
  index_html : option string;
  stdout : list string;
  requests : nat;
  ticks : nat;
  sessions : list smtp_session
}.

Definition M (A : Type) : Type := world -> result A * world.

Definition ret {A} (a : A) : M A := fun w => (Ok a, w).
Definition raise {A} (e : exn) : M A := fun w => (Raise e, w).
Definition bind {A B} (m : M A) (k : A -> M B) : M B :=
  fun w => match m w with
           | (Ok a, w') => k a w'
           | (Raise e, w') => (Raise e, w')
           end.

Notation "'let*' x ':=' m 'in' k" := (bind m (fun x => k))
  (at level 10, x name, m at level 100, k at level 200, only parsing).
Notation "m ';;;' k" := (bind m (fun _ => k))
  (at level 100, k at level 200, right associativity, only parsing).

(** Lifting a [result] (a subscript that may raise [KeyError]). *)
Definition lift {A} (r : result A) : M A := fun w => (r, w).

(** [d[key]] *)
Definition subscript {A} (key : string) (field : option A) : result A :=
  match field with
  | Some v => Ok v
  | None => Raise (KeyError key)
  end.

(** [print(line)] *)
Definition print (line : string) : M unit :=
  fun w => (Ok tt, World (seen_json w) (index_html w) (stdout w ++ [line])
                         (requests w) (ticks w) (sessions w)).

(** [not l], for a list. *)
Definition is_nil {A} (l : list A) : bool :=
  match l with [] => true | _ :: _ => false end.

(** [for x in xs: s = body(x, s)] *)
Fixpoint for_each {A S} (xs : list A) (body : A -> S -> M S) (s : S) : M S :=
  match xs with
  | [] => ret s
  | x :: xs' => let* s' := body x s in for_each xs' body s'
  end.

(** A template of [templates/], as Jinja loads it: rendering takes the
    keyword arguments and may fail. *)
Inductive tvalue :=
| TJobs (js : list Job.t)
| TInt (n : nat)
| TStr (s : string)
| TLocations (ls : list Location.t)
| TStrings (ss : list string).

Definition template : Type := list (string * tvalue) -> result string.

(** The local variables of [run_scan]'s search loop. *)
Record scan := Scan {
  seen : gmap string string;
  all_jobs : list Job.t;
  new_jobs : list Job.t
}.

(* ===================================================================== *)
(** ** The program                                                        *)
(* ===================================================================== *)

(** [job_id] *)
Definition job_id (job : Job.t) : string :=
  let raw := default "" (Job.title job) +:+ "-" +:+
             default "" (Job.company_name job) +:+ "-" +:+
             default "" (Job.location job) in
  PyStr.slice_to 12 (SHA256.hexdigest (PyStr.encode raw)).

Section Scanner.

(** Module-level state and the surroundings of a run: the loaded
    configuration, the API key, the process environment, what the provider
    answers to the n-th request, what the clock shows at its n-th reading,
    the templates (not part of the source file), and how the n-th SMTP
    session ends ([None]: sent; [Some e]: exception [e]). *)
Variable CONFIG : Config.t.
Variable SERPAPI_KEY : string.
Variable environ : gmap string string.
Variable http_get : nat -> list (string * string) -> http_outcome.
Variable clock : nat -> instant.
Variable get_template : string -> result template.
Variable smtp_outcome : nat -> option string.

(** [datetime.now(timezone.utc)] *)
Definition datetime_now : M instant :=
  fun w => (Ok (clock (ticks w)),
            World (seen_json w) (index_html w) (stdout w)
                  (requests w) (S (ticks w)) (sessions w)).

(** [load_seen] *)
Definition load_seen : M (gmap string string) :=
  fun w => match seen_json w with
           | NoFile => (Ok ∅, w)
           | Malformed => (Raise JSONDecodeError, w)
           | Stored m => (Ok m, w)
           end.

(** [save_seen]. The write is taken to succeed. *)
Definition save_seen (seen : gmap string string) : M unit :=
  fun w => (Ok tt, World (Stored seen) (index_html w) (stdout w)
                         (requests w) (ticks w) (sessions w)).

(** [requests.get(...)], [raise_for_status()] and [resp.json()] *)
Definition requests_get (params : list (string * string)) : M http_outcome :=
  fun w => (Ok (http_get (requests w) params),
            World (seen_json w) (index_html w) (stdout w)
                  (S (requests w)) (ticks w) (sessions w)).

(** [search_serpapi] *)
Definition search_serpapi (query location : string) : M (list Raw.t) :=
  if negb (PyStr.truthy SERPAPI_KEY) then
    print ("  [WARN] No SERPAPI_KEY set, skipping: " +:+ query +:+
           " in " +:+ location) ;;;
    ret []
  else
    let params := [ ("engine", "google_jobs"); ("q", query);
                    ("location", location); ("api_key", SERPAPI_KEY);
                    ("hl", "en"); ("chips", "date_posted:week") ] in
    let* resp := requests_get params in
    match resp with
    | HttpJson jobs_results => ret (default [] jobs_results)
    | HttpFailed e =>
        print ("  [ERROR] SerpAPI request failed: " +:+ e) ;;;
        ret []
    end.

(** [normalize_job] *)
Definition normalize_job (raw : Raw.t) : M Job.t :=
  let apply_link :=
    match Raw.apply_options raw with
    | Some (first :: _) => default "" (ApplyOption.link first)
    | _ =>
        match Raw.share_link raw with
        | Some share => if PyStr.truthy share then share else ""
        | None => ""
        end
    end in
  let* now := datetime_now in
  ret (Job.Make
         (Some (default "Unknown" (Raw.title raw)))
         (Some (default "Unknown" (Raw.company_name raw)))
         (Some (default "" (Raw.location raw)))
         (Some (PyStr.slice_to 500 (default "" (Raw.description raw))))
         (Some (default [] (Raw.detected_extensions raw)))
         (Some apply_link)
         (Some (default "" (Raw.via raw)))
         (Some (isoformat now))
         None).

(** The keyword test of [run_scan]:
    [any(kw.lower() in combined for kw in CONFIG.get("keywords", []))]. *)
Definition any_keyword (combined : string) : bool :=
  existsb (fun kw => PyStr.contains (PyStr.lower kw) combined)
          (default [] (Config.keywords CONFIG)).

(** The body of [for raw in results]. *)
Definition scan_result (raw : Raw.t) (s : scan) : M scan :=
  let* job := normalize_job raw in
  let jid := job_id job in
  let job := Job.set_id jid job in
  let* title := lift (subscript "title" (Job.title job)) in
  let* snippet :=
    lift (subscript "description_snippet" (Job.description_snippet job)) in
  let combined := PyStr.lower (title +:+ " " +:+ snippet) in
  if negb (any_keyword combined) then ret s
  else
    let all := all_jobs s ++ [job] in
    match seen s !! jid with
    | Some _ => ret (Scan (seen s) all (new_jobs s))
    | None =>
        let* at_ := lift (subscript "scraped_at" (Job.scraped_at job)) in
        ret (Scan (<[jid := at_]> (seen s)) all (new_jobs s ++ [job]))
    end.

(** The body of [for q in CONFIG.get("search_queries", [])]. *)
Definition scan_query (loc : Location.t) (q : string) (s : scan) : M scan :=
  let* where_ := lift (subscript "search_string" (Location.search_string loc)) in
  print ("Searching: '" +:+ q +:+ "' in '" +:+ where_ +:+ "'") ;;;
  let* results := search_serpapi q where_ in
  print ("  Found " +:+ PyStr.str_of_nat (List.length results) +:+ " results") ;;;
  for_each results scan_result s.

(** The body of [for loc in CONFIG.get("locations", [])]. *)
Definition scan_location (loc : Location.t) (s : scan) : M scan :=
  for_each (default [] (Config.search_queries CONFIG)) (scan_query loc) s.

(** The body of the deduplication loop, on [(seen_ids, deduped_all)]. *)
Definition dedup_step (j : Job.t) (acc : gset string * list Job.t)
  : M (gset string * list Job.t) :=
  let* jid := lift (subscript "id" (Job.id j)) in
  if decide (jid ∈ acc.1) then ret acc
  else ret ({[jid]} ∪ acc.1, acc.2 ++ [j]).

(** One element of [[j for j in new_jobs if j["id"] in seen_ids]]. *)
Definition keep_deduped (seen_ids : gset string) (j : Job.t)
                        (out : list Job.t) : M (list Job.t) :=
  let* jid := lift (subscript "id" (Job.id j)) in
  if decide (jid ∈ seen_ids) then ret (out ++ [j]) else ret out.

(** The search loop of [run_scan], from the loaded mapping and two empty
    lists. *)
Definition search_loop (seen0 : gmap string string) : M scan :=
  for_each (default [] (Config.locations CONFIG)) scan_location
           (Scan seen0 [] []).

(** [run_scan] *)
Definition run_scan : M (list Job.t * list Job.t) :=
  let* seen0 := load_seen in
  let* s := search_loop seen0 in
  let* d := for_each (all_jobs s) dedup_step (∅, []) in
  let* deduped_new := for_each (new_jobs s) (keep_deduped d.1) [] in
  save_seen (seen s) ;;;
  ret (d.2, deduped_new).

(** [os.environ.get(key, default)] *)
Definition environ_get (key dflt : string) : string :=
  default dflt (environ !! key).

(** [(OUTPUT_DIR / "index.html").write_text(html)]. The write is taken to
    succeed. *)
Definition write_index (html : string) : M unit :=
  fun w => (Ok tt, World (seen_json w) (Some html) (stdout w)
                         (requests w) (ticks w) (sessions w)).

(** [render_html] *)
Definition render_html (all_jobs new_jobs : list Job.t) : M unit :=
  let* tmpl := lift (get_template "index.html") in
  let* now := datetime_now in
  let* html := lift (tmpl
    [ ("all_jobs", TJobs all_jobs); ("new_jobs", TJobs new_jobs);
      ("new_count", TInt (List.length new_jobs));
      ("total_count", TInt (List.length all_jobs));
      ("scan_time", TStr (strftime now));
      ("locations", TLocations (default [] (Config.locations CONFIG)));
      ("queries", TStrings (default [] (Config.search_queries CONFIG))) ]) in
  write_index html ;;;
  print ("Wrote docs/index.html with " +:+
         PyStr.str_of_nat (List.length all_jobs) +:+ " jobs (" +:+
         PyStr.str_of_nat (List.length new_jobs) +:+ " new)").

(** [render_email] *)
Definition render_email (all_jobs new_jobs : list Job.t) : M string :=
  let* tmpl := lift (get_template "email.html") in
  let* now := datetime_now in
  lift (tmpl
    [ ("all_jobs", TJobs all_jobs); ("new_jobs", TJobs new_jobs);
      ("new_count", TInt (List.length new_jobs));
      ("total_count", TInt (List.length all_jobs));
      ("scan_time", TStr (strftime now));
      ("page_url", TStr (default "" (Config.page_url CONFIG))) ]).

(** [with smtplib.SMTP(host, port) as server: starttls; login; sendmail]:
    one session is attempted; the result is the exception raised, if any. *)
Definition smtp_session_run (host : string) (port : Z) (user pass : string)
                            (rcpt : list string) (msg : message)
  : M (option string) :=
  fun w => (Ok (smtp_outcome (List.length (sessions w))),
            World (seen_json w) (index_html w) (stdout w)
                  (requests w) (ticks w)
                  (sessions w ++ [Session host port (user, pass) rcpt msg])).

(** [send_email] *)
Definition send_email (html_body : string) (new_count : nat) : M unit :=
  let smtp_server := environ_get "SMTP_SERVER" "smtp.gmail.com" in
  match PyStr.int_of_str (environ_get "SMTP_PORT" "587") with
  | None => raise (ValueError "invalid literal for int() with base 10")
  | Some smtp_port =>
      let smtp_user := environ_get "SMTP_USER" "" in
      let smtp_pass := environ_get "SMTP_PASS" "" in
      let email_to := environ_get "EMAIL_TO" "" in
      if negb (PyStr.truthy smtp_user && PyStr.truthy smtp_pass &&
               PyStr.truthy email_to)
      then print "[WARN] Email not configured, skipping."
      else
        let msg := Message
          ("GA Nurse Jobs: " +:+ PyStr.str_of_nat new_count +:+
           " new posting" +:+ (if Nat.eqb new_count 1 then "" else "s"))
          smtp_user email_to html_body in
        let* failure := smtp_session_run smtp_server smtp_port smtp_user
                          smtp_pass (PyStr.split_comma email_to) msg in
        match failure with
        | None => print ("Email sent to " +:+ email_to)
        | Some e => print ("[ERROR] Failed to send email: " +:+ e)
        end
  end.

(** The truth value of [os.environ.get("FORCE_EMAIL")]. *)
Definition force_email : bool :=
  match environ !! "FORCE_EMAIL" with
  | Some v => PyStr.truthy v
  | None => false
  end.

(** The e-mail step of [main] (its [if CONFIG.get("email_enabled", True)]
    block). *)
Definition notify (all_jobs new_jobs : list Job.t) : M unit :=
  if default true (Config.email_enabled CONFIG) then
    let* html_email := render_email all_jobs new_jobs in
    if negb (is_nil new_jobs) || force_email
    then send_email html_email (List.length new_jobs)
    else print "No new jobs - skipping email."
  else ret tt.

(** [main] *)
Definition main : M unit :=
  print (PyStr.mul "=" 60) ;;;
  let* now := datetime_now in
  print ("GA Nurse Jobs Scanner - " +:+ isoformat now) ;;;
  print (PyStr.mul "=" 60) ;;;
  let* scanned := run_scan in
  let '(all_jobs, new_jobs) := scanned in
  render_html all_jobs new_jobs ;;;
  notify all_jobs new_jobs ;;;
  print "Done.".

End Scanner.

(* ===================================================================== *)
(** ** The normalizer on result objects of any shape                      *)
(* ===================================================================== *)

(** [Raw.t] holds the result objects whose fields have the types the
    provider gives them. [resp.json()] may return any JSON value, and
    [normalize_job] applies [.get], [[0]] and [[:500]] to whatever it
    finds. This module follows [normalize_job] on an arbitrary JSON object,
    given by its bindings (the keys of an object are distinct), and
    returns the dictionary it builds as the list of its bindings. JSON
    numbers are taken as integers. *)
Module Untyped.

(** [d.get(key)], [None] when the key is absent. *)
Definition get (key : string) (d : list (string * json)) : option json :=
  snd <$> List.find (fun kv => String.eqb kv.1 key) d.

(** [bool(v)] *)
Definition truthy (v : json) : bool :=
  match v with
  | JNull => false
  | JBool b => b
  | JNum n => negb (n =? 0)
  | JStr s => PyStr.truthy s
  | JArr l => negb (is_nil l)
  | JObj o => negb (is_nil o)
  end.

(** [v[0]]: the first element of a list, the first character of a string;
    an object has no key [0], its keys being strings; nothing else can be
    subscripted. *)
Definition first_item (v : json) : result json :=
  match v with
  | JArr (x :: _) => Ok x
  | JArr [] => Raise (IndexError "list index out of range")
  | JStr (String c _) => Ok (JStr (String c EmptyString))
  | JStr EmptyString => Raise (IndexError "string index out of range")
  | JObj _ => Raise (KeyError "0")
  | JNull | JBool _ | JNum _ => Raise (TypeError "object is not subscriptable")
  end.

(** [v.get(key, dflt)]: only an object has the method. *)
Definition get_method (v : json) (key : string) (dflt : json) : result json :=
  match v with
  | JObj o => Ok (default dflt (get key o))
  | _ => Raise (AttributeError "object has no attribute 'get'")
  end.

(** [v[:n]]: strings and lists can be sliced; a slice is no key of an
    object (it cannot even be hashed before Python 3.12, where the
    exception becomes a [KeyError]), and nothing else can be subscripted. *)
Definition slice_to (n : nat) (v : json) : result json :=
  match v with
  | JStr s => Ok (JStr (PyStr.slice_to n s))
  | JArr l => Ok (JArr (take n l))
  | JObj _ => Raise (TypeError "unhashable type: 'slice'")
  | JNull | JBool _ | JNum _ => Raise (TypeError "object is not subscriptable")
  end.

(** Lines 70-74 of the source. *)
Definition apply_link (raw : list (string * json)) : M json :=
  if truthy (default JNull (get "apply_options" raw)) then
    let* options := lift (subscript "apply_options" (get "apply_options" raw)) in
    let* first := lift (first_item options) in
    lift (get_method first "link" (JStr ""))
  else if truthy (default JNull (get "share_link" raw)) then
    lift (subscript "share_link" (get "share_link" raw))
  else ret (JStr "").

(** [normalize_job]: the link first, then the dictionary display, whose
    values are evaluated in the order written, the slice of the description
    before the reading of the clock. *)
Definition normalize_job (clock : nat -> instant) (raw : list (string * json))
  : M (list (string * json)) :=
  let* link := apply_link raw in
  let* snippet := lift (slice_to 500 (default (JStr "") (get "description" raw))) in
  let* now := datetime_now clock in
  ret [ ("title", default (JStr "Unknown") (get "title" raw));
        ("company_name", default (JStr "Unknown") (get "company_name" raw));
        ("location", default (JStr "") (get "location" raw));
        ("description_snippet", snippet);
        ("detected_extensions", default (JObj []) (get "detected_extensions" raw));
        ("apply_link", link);
        ("via", default (JStr "") (get "via" raw));
        ("scraped_at", JStr (isoformat now)) ].

(** The JSON object a typed result object stands for, and the dictionary a
    typed job stands for: a field that is [None] is an absent key. *)
Definition binding (key : string) (v : option json) : list (string * json) :=
  match v with
  | Some x => [(key, x)]
  | None => []
  end.

Definition of_apply_option (o : ApplyOption.t) : json :=
  JObj (binding "link" (JStr <$> ApplyOption.link o)).

Definition of_raw (raw : Raw.t) : list (string * json) :=
  binding "title" (JStr <$> Raw.title raw) ++
  binding "company_name" (JStr <$> Raw.company_name raw) ++
  binding "location" (JStr <$> Raw.location raw) ++
  binding "description" (JStr <$> Raw.description raw) ++
  binding "detected_extensions" (JObj <$> Raw.detected_extensions raw) ++
  binding "apply_options"
          ((fun l => JArr (of_apply_option <$> l)) <$> Raw.apply_options raw) ++
  binding "share_link" (JStr <$> Raw.share_link raw) ++
  binding "via" (JStr <$> Raw.via raw).

Definition of_job (job : Job.t) : list (string * json) :=
  binding "title" (JStr <$> Job.title job) ++
  binding "company_name" (JStr <$> Job.company_name job) ++
  binding "location" (JStr <$> Job.location job) ++
  binding "description_snippet" (JStr <$> Job.description_snippet job) ++
  binding "detected_extensions" (JObj <$> Job.detected_extensions job) ++
  binding "apply_link" (JStr <$> Job.apply_link job) ++
  binding "via" (JStr <$> Job.via job) ++
  binding "scraped_at" (JStr <$> Job.scraped_at job) ++
  binding "id" (JStr <$> Job.id job).

(** The shapes [normalize_job] relies on: a description and a share link
    that are strings, and apply options that are a list, empty or starting
    with an object. *)
Definition is_str (v : json) : bool :=
  match v with JStr _ => true | _ => false end.

Definition is_options (v : json) : bool :=
  match v with
  | JArr [] => true
  | JArr (JObj _ :: _) => true
  | _ => false
  end.

(** The key is absent or its value has the shape [shape]. *)
Definition has_shape (shape : json -> bool) (key : string)
                     (raw : list (string * json)) : bool :=
  match get key raw with
  | Some v => shape v
  | None => true
  end.

Definition well_typed (raw : list (string * json)) : bool :=
  has_shape is_str "description" raw &&
  has_shape is_options "apply_options" raw &&
  has_shape is_str "share_link" raw.

End Untyped.

(* ===================================================================== *)
(** ** Vocabulary of the statements                                       *)
(* ===================================================================== *)

(** The characters of a string. *)
Definition chars (s : string) : list ascii := list_ascii_of_string s.

(** A lower-case hexadecimal digit. *)
Definition is_hex (c : ascii) : bool :=
  let n := PyStr.code c in
  ((48 <=? n) && (n <=? 57)) || ((97 <=? n) && (n <=? 102)).

(** The text [job_id] hashes: ["{title}-{company_name}-{location}"], an
    absent field counting as the empty string. *)
Definition identity_text (j : Job.t) : string :=
  default "" (Job.title j) +:+ "-" +:+ default "" (Job.company_name j) +:+
  "-" +:+ default "" (Job.location j).

(** [needle] occurs in [hay]. *)
Definition is_substring (needle hay : string) : Prop :=
  exists pre post, hay = pre +:+ needle +:+ post.

(** Some keyword, lower-cased, occurs in the lower-cased [text]. *)
Definition keyword_occurs (keywords : list string) (text : string) : Prop :=
  exists kw, kw ∈ keywords /\ is_substring (PyStr.lower kw) (PyStr.lower text).

(** The world after one more reading of the clock. *)
Definition advance_clock (w : world) : world :=
  World (seen_json w) (index_html w) (stdout w) (requests w) (S (ticks w))
        (sessions w).

(** Lines 108-111 of the source as a function: the job is appended to
    [all_jobs], and when its key is not in [seen] it is entered there with
    its timestamp and appended to [new_jobs]. *)
Definition record_job (job : Job.t) (jid at_ : string) (s : scan) : scan :=
  match seen s !! jid with
  | Some _ => Scan (seen s) (all_jobs s ++ [job]) (new_jobs s)
  | None => Scan (<[jid := at_]> (seen s)) (all_jobs s ++ [job])
                 (new_jobs s ++ [job])
  end.

(** The search loop keeps a result: it appends the normalized record, with
    its key under ["id"], to [all_jobs]. *)
Definition retains (CONFIG : Config.t) (clock : nat -> instant)
                   (raw : Raw.t) (s : scan) (w : world) : Prop :=
  exists job w' s',
    normalize_job clock raw w = (Ok job, w') /\
    scan_result CONFIG clock raw s w = (Ok s', w') /\
    all_jobs s' = all_jobs s ++ [Job.set_id (job_id job) job].

(** The search loop drops a result: its local variables are unchanged. *)
Definition drops (CONFIG : Config.t) (clock : nat -> instant)
                 (raw : Raw.t) (s : scan) (w : world) : Prop :=
  exists w', scan_result CONFIG clock raw s w = (Ok s, w').

(** The dictionary [normalize_job] builds from [raw] when the clock shows
    [now] (see [normalize_job_run]). *)
Definition normalized (raw : Raw.t) (now : instant) : Job.t :=
  Job.Make (Some (default "Unknown" (Raw.title raw)))
           (Some (default "Unknown" (Raw.company_name raw)))
           (Some (default "" (Raw.location raw)))
           (Some (PyStr.slice_to 500 (default "" (Raw.description raw))))
           (Some (default [] (Raw.detected_extensions raw)))
           (Some match Raw.apply_options raw with
                 | Some (first :: _) => default "" (ApplyOption.link first)
                 | _ => default "" (Raw.share_link raw)
                 end)
           (Some (default "" (Raw.via raw)))
           (Some (isoformat now))
           None.

(** The same dictionary once [run_scan] has stored its key under ["id"]. *)
Definition keyed (raw : Raw.t) (now : instant) : Job.t :=
  Job.set_id (job_id (normalized raw now)) (normalized raw now).

(** The text the keyword test searches: title, one space, snippet, in lower
    case. *)
Definition combined_text (raw : Raw.t) : string :=
  PyStr.lower (default "Unknown" (Raw.title raw) +:+ " " +:+
               PyStr.slice_to 500 (default "" (Raw.description raw))).

(** The Seen-Set mapping a run starts from: the stored one, or the empty
    mapping when there is no file yet. *)
Definition seen_at_start (w : world) : gmap string string :=
  match seen_json w with
  | Stored m => m
  | _ => ∅
  end.

(** [j] stands in [l] at a place before which no record has its key. *)
Definition first_with_id (l : list Job.t) (j : Job.t) : Prop :=
  exists pre post, l = pre ++ j :: post /\ Job.id j ∉ (Job.id <$> pre).

(** [j] stands in [l] at a place after which no record has its key. *)
Definition last_with_id (l : list Job.t) (j : Job.t) : Prop :=
  exists pre post, l = pre ++ j :: post /\ Job.id j ∉ (Job.id <$> post).

(** Two records agree on the identity tuple. *)
Definition same_identity (a b : Job.t) : Prop :=
  Job.title a = Job.title b /\ Job.company_name a = Job.company_name b /\
  Job.location a = Job.location b.

(** Two records agree on the fields outside the identity tuple. *)
Definition same_details (a b : Job.t) : Prop :=
  Job.description_snippet a = Job.description_snippet b /\
  Job.apply_link a = Job.apply_link b /\ Job.via a = Job.via b /\
  Job.detected_extensions a = Job.detected_extensions b /\
  Job.scraped_at a = Job.scraped_at b.

(** What holds of the local variables throughout the search loop of a run
    that started from the mapping [seen0]. *)
Record scan_inv (seen0 : gmap string string) (s : scan) : Prop := ScanInv {
  inv_keyed : forall j, j ∈ all_jobs s ->
      Job.id j = Some (job_id j) /\ is_Some (seen s !! job_id j);
  inv_old : forall k t, seen0 !! k = Some t -> seen s !! k = Some t;
  inv_added : forall k t, seen0 !! k = None -> seen s !! k = Some t ->
      exists j, j ∈ new_jobs s /\ Job.id j = Some k /\ Job.scraped_at j = Some t;
  inv_new : forall j, j ∈ new_jobs s ->
      exists k t, Job.id j = Some k /\ seen0 !! k = None /\
                  Job.scraped_at j = Some t /\ seen s !! k = Some t /\
                  first_with_id (all_jobs s) j;
  inv_new_nodup : NoDup (Job.id <$> new_jobs s);
  inv_new_complete : forall j k, j ∈ all_jobs s -> Job.id j = Some k ->
      seen0 !! k = None -> Some k ∈ (Job.id <$> new_jobs s)
}.

(** What holds of [(seen_ids, deduped_all)] once the deduplication loop
    has gone through the records [pre]. *)
Record dedup_inv (pre : list Job.t) (acc : gset string * list Job.t) : Prop :=
  DedupInv {
  dd_ids : forall k, k ∈ acc.1 <-> Some k ∈ (Job.id <$> pre);
  dd_sublist : acc.2 `sublist_of` pre;
  dd_nodup : NoDup (Job.id <$> acc.2);
  dd_first : forall j, j ∈ acc.2 -> first_with_id pre j;
  dd_firsts_kept : forall j, first_with_id pre j -> j ∈ acc.2;
  dd_complete : forall j, j ∈ pre -> Job.id j ∈ (Job.id <$> acc.2)
}.

(** The world a run leaves: the world after the search loop, with the
    mapping written back. *)
Definition saved (s : scan) (w1 : world) : world :=
  World (Stored (seen s)) (index_html w1) (stdout w1) (requests w1)
        (ticks w1) (sessions w1).

(** The two runs have made the same number of requests, so the provider
    answers the next ones alike, and have accumulated the same keys. *)
Definition in_step (s1 : scan) (w1 : world) (s2 : scan) (w2 : world) : Prop :=
  requests w1 = requests w2 /\
  (Job.id <$> all_jobs s1) = (Job.id <$> all_jobs s2).

(** What a run can change outside the process besides standard output: the
    two files and the SMTP sessions attempted. *)
Definition outside (w : world) : seen_file * option string * list smtp_session :=
  (seen_json w, index_html w, sessions w).

(** The computation [m] leaves the observation [f] of the world as it was,
    whether it returns or raises. *)
Definition keeps {A X : Type} (f : world -> X) (m : M A) : Prop :=
  forall w, f (m w).2 = f w.

(** The query string parameters [search_serpapi] sends. *)
Definition serpapi_params (key query location : string) : list (string * string) :=
  [ ("engine", "google_jobs"); ("q", query); ("location", location);
    ("api_key", key); ("hl", "en"); ("chips", "date_posted:week") ].

(** Every configured location has its ["search_string"]. *)
Definition locations_ok (CONFIG : Config.t) : Prop :=
  forall loc, loc ∈ default [] (Config.locations CONFIG) ->
              is_Some (Location.search_string loc).

(** The world after the three banner lines of [main]. *)
Definition banner (clock : nat -> instant) (w : world) : world :=
  World (seen_json w) (index_html w)
        (((stdout w ++ [PyStr.mul "=" 60]) ++
          ["GA Nurse Jobs Scanner - " +:+ isoformat (clock (ticks w))]) ++
         [PyStr.mul "=" 60])
        (requests w) (S (ticks w)) (sessions w).

(** The Subject line [send_email] writes for a number of new postings. *)
Definition subject_for (new_count : nat) : string :=
  "GA Nurse Jobs: " +:+ PyStr.str_of_nat new_count +:+ " new posting" +:+
  (if Nat.eqb new_count 1 then "" else "s").

(** The mail settings are complete: the three required variables are set
    and not empty. *)
Definition mail_configured (environ : gmap string string) : Prop :=
  PyStr.truthy (environ_get environ "SMTP_USER" "") = true /\
  PyStr.truthy (environ_get environ "SMTP_PASS" "") = true /\
  PyStr.truthy (environ_get environ "EMAIL_TO" "") = true.

(** The results [search_serpapi] returns for the request numbered [n]: the
    ["jobs_results"] of the provider's answer, nothing when the request
    fails or the key is absent, and nothing without an API key. *)
Definition listed (SERPAPI_KEY : string)
    (http_get : nat -> list (string * string) -> http_outcome)
    (n : nat) (q where_ : string) : list Raw.t :=
  if PyStr.truthy SERPAPI_KEY then
    match http_get n (serpapi_params SERPAPI_KEY q where_) with
    | HttpJson jobs_results => default [] jobs_results
    | HttpFailed _ => []
    end
  else [].

(** The results of the queries [qs] for one search string, in order, the
    first request being number [n]. *)
Fixpoint listed_for (SERPAPI_KEY : string)
    (http_get : nat -> list (string * string) -> http_outcome)
    (where_ : string) (qs : list string) (n : nat) : list Raw.t :=
  match qs with
  | [] => []
  | q :: qs' => listed SERPAPI_KEY http_get n q where_ ++
                listed_for SERPAPI_KEY http_get where_ qs' (S n)
  end.

Definition listed_at (SERPAPI_KEY : string)
    (http_get : nat -> list (string * string) -> http_outcome)
    (qs : list string) (loc : Location.t) (n : nat) : list Raw.t :=
  match Location.search_string loc with
  | Some where_ => listed_for SERPAPI_KEY http_get where_ qs n
  | None => []
  end.

(** The results of the queries [qs] for the locations [locs], in the order
    of the two loops, one request per location and query. *)
Fixpoint processed_from (SERPAPI_KEY : string)
    (http_get : nat -> list (string * string) -> http_outcome)
    (qs : list string) (locs : list Location.t) (n : nat) : list Raw.t :=
  match locs with
  | [] => []
  | loc :: locs' =>
      listed_at SERPAPI_KEY http_get qs loc n ++
      processed_from SERPAPI_KEY http_get qs locs' (n + List.length qs)
  end.

(** The records a run processes, in processing order: what the provider
    lists in answer to the run's requests, the first of which has the
    number [requests w]. *)
Definition processed (CONFIG : Config.t) (SERPAPI_KEY : string)
    (http_get : nat -> list (string * string) -> http_outcome)
    (w : world) : list Raw.t :=
  processed_from SERPAPI_KEY http_get
                 (default [] (Config.search_queries CONFIG))
                 (default [] (Config.locations CONFIG)) (requests w).

(** What the keyword filter lets through of the records [raws], each
    normalized at its own reading of the clock, the first at reading [t],
    and keyed. *)
Fixpoint accumulated (CONFIG : Config.t) (clock : nat -> instant)
                     (t : nat) (raws : list Raw.t) : list Job.t :=
  match raws with
  | [] => []
  | raw :: rest =>
      (if any_keyword CONFIG (combined_text raw)
       then [keyed raw (clock t)] else []) ++
      accumulated CONFIG clock (S t) rest
  end.


(** Two worlds agree on everything but standard output. *)
Definition agree (w1 w2 : world) : Prop :=
  seen_json w1 = seen_json w2 /\ index_html w1 = index_html w2 /\
  requests w1 = requests w2 /\ ticks w1 = ticks w2 /\
  sessions w1 = sessions w2.

(** Two computations do the same but for what they print: started in
    worlds that agree, both return the same value or both raise the same
    exception, and they end in worlds that agree. *)
Definition alike {A : Type} (m1 m2 : M A) : Prop :=
  forall w1 w2, agree w1 w2 ->
    (m1 w1).1 = (m2 w2).1 /\ agree (m1 w1).2 (m2 w2).2.

(** A request that brings nothing: it failed, or its answer has no
    ["jobs_results"] or an empty list of them. *)
Definition lists_nothing (answer : http_outcome) : Prop :=
  match answer with
  | HttpFailed _ | HttpJson None | HttpJson (Some []) => True
  | HttpJson (Some (_ :: _)) => False
  end.

(** Two providers that answer alike except where both bring nothing. *)
Definition same_postings
    (http1 http2 : nat -> list (string * string) -> http_outcome) : Prop :=
  forall n params,
    http1 n params = http2 n params \/
    (lists_nothing (http1 n params) /\ lists_nothing (http2 n params)).

(* ===================================================================== *)
(** ** A sample run                                                       *)
(* ===================================================================== *)

Module Sample.

Definition config : Config.t :=
  Config.Make
    (Some [Location.Make (Some "Valdosta, GA"); Location.Make (Some "Tifton, GA")])
    (Some ["infection control nurse"])
    (Some ["Infection Control"; "infectious disease"])
    None None.

Definition raw (title company location description via : string) : Raw.t :=
  Raw.Make (Some title) (Some company) (Some location) (Some description)
           None None None (Some via).

Definition icn_linkedin : Raw.t :=
  raw "PRN Infection Control Nurse" "SGMC Health" "Valdosta, GA"
      "Per diem coverage for the infection prevention team." "LinkedIn".

Definition icn_indeed : Raw.t :=
  raw "PRN Infection Control Nurse" "SGMC Health" "Valdosta, GA"
      "Infection control nurse, as needed." "Indeed".

Definition cook : Raw.t :=
  raw "Line Cook" "Waffle House" "Tifton, GA" "Night shift." "Indeed".

Definition id_nurse : Raw.t :=
  raw "Infectious Disease RN" "Tift Regional" "Tifton, GA"
      "PRN position." "ZipRecruiter".

(** The provider answers the first request with three results, the second
    with two, and fails from then on. *)
Definition http (n : nat) (params : list (string * string)) : http_outcome :=
  match n with
  | 0%nat => HttpJson (Some [icn_linkedin; cook; icn_indeed])
  | 1%nat => HttpJson (Some [id_nurse; icn_indeed])
  | _ => HttpFailed "timed out"
  end.

Definition clock (n : nat) : instant :=
  Instant ("2026-01-01T00:00:" +:+ PyStr.str_of_nat n) "January 01, 2026".

(** Templates that render to their own name. *)
Definition templates (name : string) : result template :=
  Ok (fun _ => Ok name).

(** A process environment with the mail settings in place, and one where
    only the port is set, to the empty string. *)
Definition mail_environ : gmap string string :=
  <["SMTP_USER" := "scanner@example.org"]>
    (<["SMTP_PASS" := "app-password"]>
       (<["EMAIL_TO" := "nurse@example.org,backup@example.org"]> ∅)).

Definition blank_port_environ : gmap string string :=
  {["SMTP_PORT" := ""]}.

(** Every SMTP session goes through. *)
Definition smtp_fine (n : nat) : option string := None.

Definition boot (file : seen_file) : world := World file None [] 0 0 [].

Definition scan (w : world) : result (list Job.t * list Job.t) * world :=
  run_scan config "key" http clock w.

End Sample.

(** Configurations and worlds for the edge cases. *)
Module Cases.

(** A configuration whose second location lacks its search string. *)
Definition broken_config : Config.t :=
  Config.Make
    (Some [Location.Make (Some "Valdosta, GA"); Location.Make None])
    (Some ["infection control nurse"])
    (Some ["Infection Control"])
    None None.

(** Two results with the same title whose descriptions share their first
    500 characters; the first names a keyword after them. *)
Definition buried_keyword : Raw.t :=
  Raw.Make (Some "Registered Nurse") None None
           (Some (PyStr.mul "x" 500 +:+ " infection control")) None None None None.

Definition no_keyword : Raw.t :=
  Raw.Make (Some "Registered Nurse") None None
           (Some (PyStr.mul "x" 500)) None None None None.

(** A provider that by then lists one known posting, one that no keyword
    matches, and one new posting. *)
Definition later_http (n : nat) (params : list (string * string)) : http_outcome :=
  HttpJson (Some [Sample.icn_indeed; Sample.cook;
                  Sample.raw "PRN Infection Control RN" "Colquitt Regional"
                             "Moultrie, GA" "Weekend coverage." "Indeed"]).

(** A first process on a machine whose [seen_jobs.json] holds one key. *)
Definition one_seen : world :=
  World (Stored {["92ea612c7b05" := "2025-12-24T06:00:00"]}) None [] 0 0 [].

(** A result whose description is null, and one whose apply options hold
    a null entry. *)
Definition null_description : list (string * json) :=
  [ ("title", JStr "Infection Control Nurse"); ("description", JNull) ].

Definition null_apply_option : list (string * json) :=
  [ ("title", JStr "Infection Control Nurse");
    ("description", JStr "PRN position.");
    ("apply_options", JArr [JNull]) ].

(** A result of 600 characters of description with two apply options. *)
Definition long_description : list (string * json) :=
  [ ("description", JStr (PyStr.mul "x" 600));
    ("apply_options",
     JArr [JObj [("title", JStr "Indeed"); ("link", JStr "https://example.org/apply")];
           JNull]);
    ("share_link", JStr "https://example.org/share") ].

(** The same posting listed twice, the first time with a description that
    names no keyword under a title that names none either. *)
Definition rn_plain : Raw.t :=
  Sample.raw "Registered Nurse" "SGMC Health" "Valdosta, GA"
             "Med-surg floor, nights." "FirstSource".

Definition rn_infection : Raw.t :=
  Sample.raw "Registered Nurse" "SGMC Health" "Valdosta, GA"
             "Infection control experience required." "SecondSource".

Definition one_query_config : Config.t :=
  Config.Make (Some [Location.Make (Some "Valdosta, GA")])
              (Some ["registered nurse"])
              (Some ["Infection Control"]) None None.

Definition rn_http (n : nat) (params : list (string * string)) : http_outcome :=
  HttpJson (Some [rn_plain; rn_infection]).



(** A process environment whose port has one digit more than [int]
    reads. *)
Definition long_port_environ : gmap string string :=
  <["SMTP_PORT" := PyStr.mul "9" 4301]> Sample.mail_environ.

(** Two providers that list one posting in answer to the first request:
    the one fails at the second request and leaves out the results from
    then on, the other returns an empty list throughout. *)
Definition flaky_http (n : nat) (params : list (string * string)) : http_outcome :=
  match n with
  | 0%nat => HttpJson (Some [Sample.cook; Sample.id_nurse])
  | 1%nat => HttpFailed "timed out"
  | _ => HttpJson None
  end.

Definition patchy_http (n : nat) (params : list (string * string)) : http_outcome :=
  match n with
  | 0%nat => HttpJson (Some [Sample.cook; Sample.id_nurse])
  | _ => HttpJson (Some [])
  end.

End Cases.

(* ===================================================================== *)
(** ** Checks of the string and digest models against known values        *)
(* ===================================================================== *)

Example sha256_empty :
  SHA256.hexdigest (PyStr.encode "") =
  "e3b0c44298fc1c149afbf4c8996fb92427ae41e4649b934ca495991b7852b855".
Proof. vm_compute. reflexivity. Qed.

Example sha256_abc :
  SHA256.hexdigest (PyStr.encode "abc") =
  "ba7816bf8f01cfea414140de5dae2223b00361a396177a9cb410ff61f20015ad".
Proof. vm_compute. reflexivity. Qed.

Example sha256_two_blocks :
  SHA256.hexdigest
    (PyStr.encode "abcdbcdecdefdefgefghfghighijhijkijkljklmklmnlmnomnopnopq") =
  "248d6a61d20638b8e5c026930c3e6039a33ce45964ff2167f6ecedd419db06c1".
Proof. vm_compute. reflexivity. Qed.

Example lower_mixed : PyStr.lower "PRN Infection-Control RN 7a" = "prn infection-control rn 7a".
Proof. reflexivity. Qed.

Example int_of_str_default_port : PyStr.int_of_str "587" = Some 587.
Proof. reflexivity. Qed.

Example int_of_str_empty : PyStr.int_of_str "" = None.
Proof. reflexivity. Qed.

Example int_of_str_spaced : PyStr.int_of_str "  -2_5 " = Some (-25).
Proof. reflexivity. Qed.

(** The digit limit: 4300 digits are read, 4301 are refused, also when
    they are zeros, and underscores do not count. *)
Example int_of_str_digit_limit :
  is_Some (PyStr.int_of_str (PyStr.mul "9" 4300)) /\
  PyStr.int_of_str (PyStr.mul "9" 4301) = None /\
  PyStr.int_of_str ("+" +:+ PyStr.mul "0" 4301) = None /\
  is_Some (PyStr.int_of_str (PyStr.mul "9_" 4299 +:+ "9")).
Proof.
  split; [vm_compute; eauto |]. split; [vm_compute; reflexivity |].
  split; [vm_compute; reflexivity | vm_compute; eauto].
Qed.

(* ===================================================================== *)
(** ** Strings: slicing and substring search                              *)
(* ===================================================================== *)

Section StringFacts.

Lemma slice_to_length (n : nat) (s : string) :
  String.length (PyStr.slice_to n s) = Nat.min n (String.length s).
Proof.
  revert s; induction n as [|n IH]; intros [|c s]; simpl; auto.
Qed.

Lemma slice_to_prefix (n : nat) (s : string) :
  exists rest, s = PyStr.slice_to n s +:+ rest.
Proof.
  revert s; induction n as [|n IH]; intros s.
  - exists s. reflexivity.
  - destruct s as [|c s]; simpl.
    + exists "". reflexivity.
    + destruct (IH s) as [rest Hrest]. exists rest. now rewrite <- Hrest.
Qed.

Lemma startswith_spec (p s : string) :
  PyStr.startswith p s = true <-> exists post, s = p +:+ post.
Proof.
  revert s; induction p as [|a p IH]; intros s; simpl.
  - split; [intros _; exists s; reflexivity | reflexivity].
  - destruct s as [|b s].
    + split; [discriminate | intros [post H]; discriminate].
    + destruct (Ascii.eqb_spec a b) as [->|Hne].
      * rewrite IH. split; intros [post H]; exists post.
        -- now rewrite H.
        -- now injection H.
      * split; [discriminate | intros [post H]]. injection H. congruence.
Qed.

(** [needle in hay] holds exactly when [hay] splits around [needle]. *)
Lemma contains_spec (needle hay : string) :
  PyStr.contains needle hay = true <->
  exists pre post, hay = pre +:+ needle +:+ post.
Proof.
  induction hay as [|c hay IH]; simpl.
  - rewrite orb_false_r, startswith_spec. split.
    + intros [post H]. exists "", post. exact H.
    + intros (pre & post & H). destruct pre; [|discriminate].
      exists post. exact H.
  - rewrite orb_true_iff, startswith_spec, IH. split.
    + intros [[post H] | (pre & post & H)].
      * exists "", post. exact H.
      * exists (String c pre), post. simpl. now rewrite H.
    + intros (pre & post & H). destruct pre as [|c' pre].
      * left. exists post. exact H.
      * right. exists pre, post. simpl in H. now injection H.
Qed.

Lemma contains_empty (hay : string) : PyStr.contains "" hay = true.
Proof. destruct hay; reflexivity. Qed.

End StringFacts.

(* ===================================================================== *)
(** ** The identity hasher                                                *)
(* ===================================================================== *)

Section IdentityHasher.

Lemma hex_digit_is_hex (d : Z) : is_hex (SHA256.hex_digit d) = true.
Proof.
  destruct d as [|p|p]; try reflexivity.
  do 4 (try destruct p as [p|p|]); reflexivity.
Qed.

Lemma hex_word_length (n : nat) (w : Z) (rest : string) :
  String.length (SHA256.hex_word n w rest) = (n + String.length rest)%nat.
Proof. induction n as [|n IH]; simpl; [reflexivity | now rewrite IH]. Qed.

Lemma hex_word_chars (n : nat) (w : Z) (rest : string) :
  Forall (fun c => is_hex c = true) (chars rest) ->
  Forall (fun c => is_hex c = true) (chars (SHA256.hex_word n w rest)).
Proof.
  intros Hrest. induction n as [|n IH]; simpl; [exact Hrest |].
  constructor; [apply hex_digit_is_hex | exact IH].
Qed.

(** A digest renders as 64 hexadecimal digits, whatever the message. *)
Lemma hexdigest_length (msg : list Z) :
  String.length (SHA256.hexdigest msg) = 64%nat.
Proof.
  unfold SHA256.hexdigest, SHA256.hex_state.
  now rewrite !hex_word_length.
Qed.

Lemma hexdigest_chars (msg : list Z) :
  Forall (fun c => is_hex c = true) (chars (SHA256.hexdigest msg)).
Proof.
  unfold SHA256.hexdigest, SHA256.hex_state.
  repeat apply hex_word_chars. constructor.
Qed.

Lemma slice_to_chars (P : ascii -> Prop) (n : nat) (s : string) :
  Forall P (chars s) -> Forall P (chars (PyStr.slice_to n s)).
Proof.
  revert s; induction n as [|n IH]; intros [|c s] H; simpl;
    try constructor.
  - now inversion H.
  - apply IH. now inversion H.
Qed.

Lemma job_id_eq (j : Job.t) :
  job_id j = PyStr.slice_to 12 (SHA256.hexdigest (PyStr.encode (identity_text j))).
Proof. reflexivity. Qed.

Lemma job_id_length (j : Job.t) : String.length (job_id j) = 12%nat.
Proof. rewrite job_id_eq, slice_to_length, hexdigest_length. reflexivity. Qed.

(** Setting ["id"] does not change the identity key. *)
Lemma job_id_set_id (jid : string) (j : Job.t) :
  job_id (Job.set_id jid j) = job_id j.
Proof. reflexivity. Qed.

End IdentityHasher.

(** C5. The identity key depends on the title, company and location only:
    two job records that agree on these three fields have the same key. The
    key is the first 12 characters of the hexadecimal SHA-256 digest (64
    lower-case hexadecimal digits) of the UTF-8 text
    "{title}-{company_name}-{location}", where an absent field counts as the
    empty string. *)
Theorem job_id_identity (a b : Job.t)
  (Htitle : Job.title a = Job.title b)
  (Hcompany : Job.company_name a = Job.company_name b)
  (Hlocation : Job.location a = Job.location b) :
  job_id a = job_id b /\
  (let text := default "" (Job.title a) +:+ "-" +:+
               default "" (Job.company_name a) +:+ "-" +:+
               default "" (Job.location a) in
   let digest := SHA256.hexdigest (PyStr.encode text) in
   String.length digest = 64%nat /\
   (exists rest, digest = job_id a +:+ rest) /\
   String.length (job_id a) = 12%nat /\
   Forall (fun c => is_hex c = true) (chars (job_id a))).
Proof.
  split.
  - rewrite !job_id_eq. unfold identity_text.
    now rewrite Htitle, Hcompany, Hlocation.
  - cbv zeta. split; [apply hexdigest_length |].
    split; [apply slice_to_prefix |].
    split; [apply job_id_length |].
    rewrite job_id_eq. apply slice_to_chars, hexdigest_chars.
Qed.

(** Two records that differ outside the identity tuple, one of them without
    a company, which hashes like the empty string. *)
Lemma job_id_identity_witness :
  job_id (Job.Make (Some "RN") None (Some "Tifton, GA") (Some "a")
                   None (Some "x") (Some "Indeed") (Some "t1") None) =
  job_id (Job.Make (Some "RN") None (Some "Tifton, GA") (Some "b")
                   (Some []) None (Some "LinkedIn") (Some "t2") (Some "k")) /\
  job_id (Job.Make (Some "RN") None (Some "Tifton, GA") (Some "a")
                   None (Some "x") (Some "Indeed") (Some "t1") None) =
  "30e9bfb809aa".
Proof.
  split.
  - apply (job_id_identity
             (Job.Make (Some "RN") None (Some "Tifton, GA") (Some "a")
                       None (Some "x") (Some "Indeed") (Some "t1") None)
             (Job.Make (Some "RN") None (Some "Tifton, GA") (Some "b")
                       (Some []) None (Some "LinkedIn") (Some "t2") (Some "k")));
      reflexivity.
  - vm_compute. reflexivity.
Defined.

(* ===================================================================== *)
(** ** Reasoning about the monad and its loops                            *)
(* ===================================================================== *)

Section MonadFacts.

Context {A B : Type}.

Lemma bind_Ok (m : M A) (k : A -> M B) (w : world) (b : B) (w2 : world) :
  bind m k w = (Ok b, w2) <->
  exists a w1, m w = (Ok a, w1) /\ k a w1 = (Ok b, w2).
Proof.
  unfold bind. destruct (m w) as [[a|e] w1]; split.
  - intros H. exists a, w1. auto.
  - intros (a' & w1' & Heq & H). now inversion Heq; subst.
  - discriminate.
  - intros (a' & w1' & Heq & H). discriminate.
Qed.

Lemma bind_run (m : M A) (k : A -> M B) (w w1 : world) (a : A) :
  m w = (Ok a, w1) -> bind m k w = k a w1.
Proof. unfold bind. now intros ->. Qed.

Lemma lift_Ok (r : result A) (w : world) (a : A) (w' : world) :
  lift r w = (Ok a, w') <-> r = Ok a /\ w' = w.
Proof. unfold lift. split; [intros H; now inversion H | now intros [-> ->]]. Qed.

End MonadFacts.

Section LoopFacts.

Context {A S : Type}.

(** The loop rule: an invariant indexed by the elements already
    processed. *)
Lemma for_each_prefix (body : A -> S -> M S)
      (P : list A -> S -> world -> Prop) :
  (forall pre x s w s' w',
      P pre s w -> body x s w = (Ok s', w') -> P (pre ++ [x]) s' w') ->
  forall xs pre s w s' w',
    P pre s w -> for_each xs body s w = (Ok s', w') -> P (pre ++ xs) s' w'.
Proof.
  intros Hstep xs. induction xs as [|x xs IH]; intros pre s w s' w' HP Hrun.
  - simpl in Hrun. inversion Hrun; subst. now rewrite app_nil_r.
  - simpl in Hrun. apply bind_Ok in Hrun as (s1 & w1 & Hbody & Hrest).
    replace (pre ++ x :: xs) with ((pre ++ [x]) ++ xs)
      by now rewrite <- app_assoc.
    eapply IH; [|exact Hrest]. eapply Hstep; eauto.
Qed.

(** The loop rule for an invariant of the state alone. *)
Lemma for_each_inv (body : A -> S -> M S) (P : S -> world -> Prop) (xs : list A) :
  (forall x s w s' w',
      x ∈ xs -> P s w -> body x s w = (Ok s', w') -> P s' w') ->
  forall s w s' w',
    P s w -> for_each xs body s w = (Ok s', w') -> P s' w'.
Proof.
  induction xs as [|x xs IH]; intros Hstep s w s' w' HP Hrun.
  - simpl in Hrun. now inversion Hrun; subst.
  - simpl in Hrun. apply bind_Ok in Hrun as (s1 & w1 & Hbody & Hrest).
    eapply IH; [| |exact Hrest].
    + intros y sa wa sb wb Hy. apply Hstep. now right.
    + eapply Hstep; eauto. now left.
Qed.

(** Two runs of the same loop, related by [R] step by step: when the
    first returns, so does the second. *)
Lemma for_each_rel (body1 body2 : A -> S -> M S)
      (R : S -> world -> S -> world -> Prop) (xs : list A) :
  (forall x s1 w1 s2 w2 s1' w1',
      x ∈ xs -> R s1 w1 s2 w2 -> body1 x s1 w1 = (Ok s1', w1') ->
      exists s2' w2', body2 x s2 w2 = (Ok s2', w2') /\ R s1' w1' s2' w2') ->
  forall s1 w1 s2 w2 s1' w1',
    R s1 w1 s2 w2 -> for_each xs body1 s1 w1 = (Ok s1', w1') ->
    exists s2' w2', for_each xs body2 s2 w2 = (Ok s2', w2') /\ R s1' w1' s2' w2'.
Proof.
  induction xs as [|x xs IH]; intros Hstep s1 w1 s2 w2 s1' w1' HR Hrun.
  - simpl in Hrun. inversion Hrun; subst. exists s2, w2. now split.
  - simpl in Hrun. apply bind_Ok in Hrun as (sa & wa & Hbody & Hrest).
    destruct (Hstep x s1 w1 s2 w2 sa wa) as (sb & wb & Hbody2 & HR');
      [now left | exact HR | exact Hbody |].
    destruct (IH (fun y a b c d e f Hy => Hstep y a b c d e f
                                           (list_elem_of_further _ _ _ Hy))
                 sa wa sb wb s1' w1' HR' Hrest) as (s2' & w2' & Hrun2 & HR2).
    exists s2', w2'. split; [|exact HR2].
    simpl. now rewrite (bind_run _ _ _ _ _ Hbody2).
Qed.

End LoopFacts.

(* ===================================================================== *)
(** ** The normalizer                                                     *)
(* ===================================================================== *)

Section Normalizer.

Variable clock : nat -> instant.

(** [normalize_job] always returns, after one reading of the clock, a
    dictionary with its eight keys set and no ["id"]. *)
Lemma normalize_job_run (raw : Raw.t) (w : world) :
  normalize_job clock raw w =
  (Ok (normalized raw (clock (ticks w))), advance_clock w).
Proof.
  unfold normalize_job, normalized, bind, datetime_now, ret, advance_clock.
  destruct (Raw.apply_options raw) as [[|first others]|];
    try reflexivity;
    destruct (Raw.share_link raw) as [[|c share]|]; reflexivity.
Qed.

(** The key does not depend on the time of the scan. *)
Lemma job_id_normalized (raw : Raw.t) (now now' : instant) :
  job_id (normalized raw now) = job_id (normalized raw now').
Proof. reflexivity. Qed.

Lemma keyed_id (raw : Raw.t) (now : instant) :
  Job.id (keyed raw now) = Some (job_id (normalized raw now)).
Proof. reflexivity. Qed.

Lemma keyed_job_id (raw : Raw.t) (now : instant) :
  job_id (keyed raw now) = job_id (normalized raw now).
Proof. reflexivity. Qed.

End Normalizer.

Section UntypedNormalizer.

Variable clock : nat -> instant.

(** On the object a typed result stands for, the normalizer of arbitrary
    objects returns the dictionary the typed normalizer's result stands
    for. *)
Lemma normalize_job_of_raw (raw : Raw.t) (w : world) :
  Untyped.normalize_job clock (Untyped.of_raw raw) w =
  (Ok (Untyped.of_job (normalized raw (clock (ticks w)))), advance_clock w).
Proof.
  destruct raw as [[t|] [c|] [l|] [d|] [e|] [[|[[k|]] a]|] [[|x s]|] [v|]];
    reflexivity.
Qed.

Lemma well_typed_of_raw (raw : Raw.t) :
  Untyped.well_typed (Untyped.of_raw raw) = true.
Proof.
  destruct raw as [[t|] [c|] [l|] [d|] [e|] [[|[[k|]] a]|] [[|x s]|] [v|]];
    reflexivity.
Qed.

(** What [normalize_job] returns on an object whose description, apply
    options and share link have their shapes. *)
Lemma normalize_job_well_typed (raw : list (string * json)) (w : world) :
  Untyped.well_typed raw = true ->
  exists description link,
    default (JStr "") (Untyped.get "description" raw) = JStr description /\
    match Untyped.get "apply_options" raw with
    | Some (JArr (JObj option :: _)) =>
        link = default (JStr "") (Untyped.get "link" option)
    | Some (JArr []) | None =>
        link = default (JStr "") (Untyped.get "share_link" raw)
    | _ => False
    end /\
    Untyped.normalize_job clock raw w =
    (Ok [ ("title", default (JStr "Unknown") (Untyped.get "title" raw));
          ("company_name", default (JStr "Unknown") (Untyped.get "company_name" raw));
          ("location", default (JStr "") (Untyped.get "location" raw));
          ("description_snippet", JStr (PyStr.slice_to 500 description));
          ("detected_extensions",
           default (JObj []) (Untyped.get "detected_extensions" raw));
          ("apply_link", link);
          ("via", default (JStr "") (Untyped.get "via" raw));
          ("scraped_at", JStr (isoformat (clock (ticks w)))) ],
     advance_clock w).
Proof.
  unfold Untyped.well_typed, Untyped.has_shape.
  rewrite !andb_true_iff. intros [[Hd Ho] Hs].
  unfold Untyped.normalize_job, Untyped.apply_link.
  destruct (Untyped.get "description" raw) as [[| | |d| |]|];
    try discriminate Hd;
    (destruct (Untyped.get "apply_options" raw)
       as [[| | | |[|[| | | | |option] others]|]|]; try discriminate Ho);
    (destruct (Untyped.get "share_link" raw) as [[| | |[|x s]| |]|];
     try discriminate Hs);
    eexists _, _; (split; [reflexivity |]); (split; [reflexivity |]);
    reflexivity.
Qed.

End UntypedNormalizer.

(** The keys of the dictionary [normalize_job] builds. *)
Lemma normalized_fields (title company location snippet extensions link via at_ : json) :
  forall job,
    job = [ ("title", title); ("company_name", company); ("location", location);
            ("description_snippet", snippet); ("detected_extensions", extensions);
            ("apply_link", link); ("via", via); ("scraped_at", at_) ] ->
    Untyped.get "title" job = Some title /\
    Untyped.get "company_name" job = Some company /\
    Untyped.get "location" job = Some location /\
    Untyped.get "description_snippet" job = Some snippet /\
    Untyped.get "detected_extensions" job = Some extensions /\
    Untyped.get "apply_link" job = Some link /\
    Untyped.get "via" job = Some via /\
    Untyped.get "scraped_at" job = Some at_ /\
    Untyped.get "id" job = None.
Proof. intros job ->. repeat split. Qed.

(** C7 (as amended). On every result object whose description and share
    link, when present, are strings and whose apply options, when present,
    are a list that is empty or starts with an object, whichever keys are
    missing, the normalizer returns after one reading of the clock. A
    missing title or company becomes "Unknown", a missing location the
    empty string, and a value that is present is taken as it is; the
    snippet is the first 500 characters of the description (all of it when
    it is shorter, exactly 500 characters when it has 500 or more, a
    missing description counting as empty); the apply link is the link of
    the first apply option when the list has one (the empty string when
    that entry has no link), otherwise the share link when there is one,
    otherwise the empty string. *)
Theorem normalize_job_total_on_typed_records
  (clock : nat -> instant) (raw : list (string * json)) (w : world)
  (Htyped : Untyped.well_typed raw = true) :
  exists job,
    Untyped.normalize_job clock raw w = (Ok job, advance_clock w) /\
    (Untyped.get "title" raw = None ->
     Untyped.get "title" job = Some (JStr "Unknown")) /\
    (forall t, Untyped.get "title" raw = Some t -> Untyped.get "title" job = Some t) /\
    (Untyped.get "company_name" raw = None ->
     Untyped.get "company_name" job = Some (JStr "Unknown")) /\
    (forall c, Untyped.get "company_name" raw = Some c ->
               Untyped.get "company_name" job = Some c) /\
    (Untyped.get "location" raw = None ->
     Untyped.get "location" job = Some (JStr "")) /\
    (forall l, Untyped.get "location" raw = Some l ->
               Untyped.get "location" job = Some l) /\
    (exists description snippet rest,
        default (JStr "") (Untyped.get "description" raw) = JStr description /\
        Untyped.get "description_snippet" job = Some (JStr snippet) /\
        description = snippet +:+ rest /\
        String.length snippet = Nat.min 500 (String.length description) /\
        (500 <= String.length description -> String.length snippet = 500)%nat) /\
    (forall first others,
        Untyped.get "apply_options" raw = Some (JArr (first :: others)) ->
        exists option,
          first = JObj option /\
          Untyped.get "apply_link" job =
          Some (default (JStr "") (Untyped.get "link" option))) /\
    (forall share,
        Untyped.get "apply_options" raw = None \/
        Untyped.get "apply_options" raw = Some (JArr []) ->
        Untyped.get "share_link" raw = Some share ->
        Untyped.get "apply_link" job = Some share) /\
    (Untyped.get "apply_options" raw = None \/
     Untyped.get "apply_options" raw = Some (JArr []) ->
     Untyped.get "share_link" raw = None ->
     Untyped.get "apply_link" job = Some (JStr "")).
Proof.
  destruct (normalize_job_well_typed clock raw w Htyped)
    as (description & link & Hd & Hlink & Hrun).
  eexists. split; [exact Hrun |].
  edestruct normalized_fields
    as (Ht & Hc & Hl & Hs & _ & Ha & _); [reflexivity |].
  rewrite Ht, Hc, Hl, Hs, Ha. clear Ht Hc Hl Hs Ha Hrun.
  split; [now intros -> |]. split; [now intros t -> |].
  split; [now intros -> |]. split; [now intros c -> |].
  split; [now intros -> |]. split; [now intros l -> |].
  split.
  { destruct (slice_to_prefix 500 description) as [rest Hrest].
    exists description, (PyStr.slice_to 500 description), rest.
    rewrite slice_to_length. repeat split; [exact Hd | exact Hrest | lia]. }
  split.
  { intros first others Hopts. rewrite Hopts in Hlink.
    destruct first as [| | | | |option]; try contradiction.
    exists option. now subst link. }
  split.
  - intros share Hopts Hshare.
    destruct Hopts as [Hopts|Hopts]; rewrite Hopts in Hlink; subst link;
      now rewrite Hshare.
  - intros Hopts Hshare.
    destruct Hopts as [Hopts|Hopts]; rewrite Hopts in Hlink; subst link;
      now rewrite Hshare.
Qed.

Lemma normalize_job_total_on_typed_records_witness :
  Untyped.well_typed Cases.long_description = true /\
  exists job,
    Untyped.normalize_job Sample.clock Cases.long_description (Sample.boot NoFile)
    = (Ok job, advance_clock (Sample.boot NoFile)) /\
    Untyped.get "title" job = Some (JStr "Unknown") /\
    Untyped.get "location" job = Some (JStr "") /\
    (exists snippet,
        Untyped.get "description_snippet" job = Some (JStr snippet) /\
        String.length snippet = 500%nat) /\
    Untyped.get "apply_link" job = Some (JStr "https://example.org/apply").
Proof.
  split; [reflexivity |].
  destruct (normalize_job_total_on_typed_records Sample.clock Cases.long_description
              (Sample.boot NoFile) eq_refl)
    as (job & Hrun & Htitle & _ & _ & _ & Hloc & _ & Hsnippet & Hopt & _).
  exists job. split; [exact Hrun |].
  split; [exact (Htitle eq_refl) |]. split; [exact (Hloc eq_refl) |].
  split.
  - destruct Hsnippet as (description & snippet & rest & Hd & Hs & _ & _ & Hlen).
    exists snippet. split; [exact Hs |]. apply Hlen.
    change (JStr (PyStr.mul "x" 600) = JStr description) in Hd.
    injection Hd as <-. apply Nat.leb_le. vm_compute. reflexivity.
  - destruct (Hopt _ _ eq_refl) as (option & Hfirst & Hlink).
    injection Hfirst as <-. exact Hlink.
Defined.

(** C7 as stated fails: the normalizer is not total over arbitrary raw
    records. On a result whose description is null it raises [TypeError]
    at the slice, and on one whose apply options hold a null entry it
    raises [AttributeError] at [.get]; in both cases before the clock is
    read. *)
Lemma normalize_job_null_field_counterexample :
  (exists msg,
     Untyped.normalize_job Sample.clock Cases.null_description (Sample.boot NoFile)
     = (Raise (TypeError msg), Sample.boot NoFile)) /\
  (exists msg,
     Untyped.normalize_job Sample.clock Cases.null_apply_option (Sample.boot NoFile)
     = (Raise (AttributeError msg), Sample.boot NoFile)) /\
  ~ (exists job w',
       Untyped.normalize_job Sample.clock Cases.null_description (Sample.boot NoFile)
       = (Ok job, w')).
Proof.
  split; [eexists; reflexivity |]. split; [eexists; reflexivity |].
  intros (job & w' & Hrun). discriminate Hrun.
Qed.

(** A description of 600 characters is cut to 500; a record with nothing but
    a share link applies through it. *)
Example normalize_job_600 :
  exists job w',
    normalize_job Sample.clock
      (Raw.Make None None None (Some (PyStr.mul "x" 600)) None (Some [])
                (Some "https://example.org/share") None)
      (Sample.boot NoFile) = (Ok job, w') /\
    Job.title job = Some "Unknown" /\
    (String.length <$> Job.description_snippet job) = Some 500%nat /\
    Job.apply_link job = Some "https://example.org/share".
Proof. eexists _, _. split; [reflexivity |]. vm_compute. auto. Qed.

(* ===================================================================== *)
(** ** The keyword filter and the body of the search loop                 *)
(* ===================================================================== *)

Section KeywordFilter.

Variable CONFIG : Config.t.
Variable clock : nat -> instant.

Lemma any_keyword_spec (text : string) :
  any_keyword CONFIG (PyStr.lower text) = true <->
  keyword_occurs (default [] (Config.keywords CONFIG)) text.
Proof.
  unfold any_keyword, keyword_occurs, is_substring.
  rewrite existsb_exists. split.
  - intros (kw & Hin & Hc). exists kw. split.
    + now apply list_elem_of_In.
    + now apply contains_spec.
  - intros (kw & Hin & Hc). exists kw. split.
    + now apply list_elem_of_In.
    + now apply contains_spec.
Qed.

(** The loop body always returns: it reads the clock once, and either
    leaves the local variables alone or records the keyed job. *)
Lemma scan_result_run (raw : Raw.t) (s : scan) (w : world) :
  scan_result CONFIG clock raw s w =
  (Ok (if any_keyword CONFIG (combined_text raw)
       then record_job (keyed raw (clock (ticks w)))
                       (job_id (normalized raw (clock (ticks w))))
                       (isoformat (clock (ticks w))) s
       else s),
   advance_clock w).
Proof.
  unfold scan_result.
  rewrite (bind_run _ _ _ _ _ (normalize_job_run clock raw w)).
  change (Job.set_id _ _) with (keyed raw (clock (ticks w))).
  cbn [bind lift subscript keyed normalized Job.title Job.description_snippet
       Job.set_id].
  fold (combined_text raw).
  destruct (any_keyword CONFIG (combined_text raw)); [|reflexivity].
  cbn [negb]. unfold record_job.
  destruct (seen s !! job_id (normalized raw (clock (ticks w)))); reflexivity.
Qed.

Lemma record_job_all_jobs (j : Job.t) (jid at_ : string) (s : scan) :
  all_jobs (record_job j jid at_ s) = all_jobs s ++ [j].
Proof. unfold record_job. now destruct (seen s !! jid). Qed.

Lemma record_job_neq (j : Job.t) (jid at_ : string) (s : scan) :
  record_job j jid at_ s <> s.
Proof.
  intros H. apply (f_equal all_jobs) in H.
  rewrite record_job_all_jobs in H.
  apply (f_equal (@List.length _)) in H. rewrite length_app in H.
  simpl in H. lia.
Qed.

Lemma retains_iff (raw : Raw.t) (s : scan) (w : world) :
  retains CONFIG clock raw s w <-> any_keyword CONFIG (combined_text raw) = true.
Proof.
  unfold retains. split.
  - intros (job & w' & s' & Hnorm & Hrun & Hall).
    rewrite scan_result_run in Hrun.
    destruct (any_keyword CONFIG (combined_text raw)); [reflexivity |].
    inversion Hrun; subst s'.
    apply (f_equal (@List.length _)) in Hall. rewrite length_app in Hall.
    simpl in Hall. lia.
  - intros Hkw. eexists _, _, _.
    split; [apply normalize_job_run |].
    split; [apply scan_result_run |].
    rewrite Hkw. apply record_job_all_jobs.
Qed.

Lemma drops_iff (raw : Raw.t) (s : scan) (w : world) :
  drops CONFIG clock raw s w <-> any_keyword CONFIG (combined_text raw) = false.
Proof.
  unfold drops. rewrite scan_result_run. split.
  - intros (w' & Hrun).
    destruct (any_keyword CONFIG (combined_text raw)); [|reflexivity].
    inversion Hrun as [[Hs Hw]]. now apply record_job_neq in Hs.
  - intros ->. now eexists.
Qed.

End KeywordFilter.

(** C6 (as amended). The search loop keeps a normalized record if and only
    if some configured keyword, in lower case, occurs in the lower-cased
    text made of the title, one space, and the description snippet;
    otherwise it drops the record. With an empty (or absent) keyword list
    every record is dropped. *)
Theorem keyword_filter_spec (CONFIG : Config.t) (clock : nat -> instant)
                            (raw : Raw.t) (s : scan) (w : world) :
  exists job w' title snippet,
    normalize_job clock raw w = (Ok job, w') /\
    Job.title job = Some title /\
    Job.description_snippet job = Some snippet /\
    (retains CONFIG clock raw s w <->
     keyword_occurs (default [] (Config.keywords CONFIG))
                    (title +:+ " " +:+ snippet)) /\
    (drops CONFIG clock raw s w <->
     ~ keyword_occurs (default [] (Config.keywords CONFIG))
                      (title +:+ " " +:+ snippet)) /\
    (default [] (Config.keywords CONFIG) = [] -> drops CONFIG clock raw s w).
Proof.
  eexists _, _, _, _.
  split; [apply normalize_job_run |].
  split; [reflexivity |]. split; [reflexivity |].
  rewrite retains_iff, drops_iff, <- any_keyword_spec.
  fold (combined_text raw).
  split; [reflexivity |]. split.
  - now destruct (any_keyword CONFIG (combined_text raw)).
  - unfold any_keyword. now intros ->.
Qed.

(** C6 as stated fails: a keyword can match across the space that the code
    puts between title and snippet. The record is kept although the keyword
    does not occur in the title directly followed by the snippet. *)
Lemma keyword_filter_plain_concatenation_counterexample :
  ~ (retains (Config.Make None None (Some ["Infection Control"]) None None)
             Sample.clock
             (Raw.Make (Some "PRN Infection") (Some "SGMC Health") None
                       (Some "Control nurse, as needed.") None None None None)
             (Scan ∅ [] []) (Sample.boot NoFile)
     <->
     keyword_occurs ["Infection Control"]
                    ("PRN Infection" +:+ "Control nurse, as needed.")).
Proof.
  intros [Hkeep _].
  destruct Hkeep as (kw & Hin & Hsub).
  - apply retains_iff. vm_compute. reflexivity.
  - apply list_elem_of_singleton in Hin. subst kw.
    apply contains_spec in Hsub. vm_compute in Hsub. discriminate.
Qed.

(* ===================================================================== *)
(** ** The search loop: what it maintains                                 *)
(* ===================================================================== *)

Section FirstOccurrences.

Lemma first_with_id_elem (l : list Job.t) (j : Job.t) :
  first_with_id l j -> j ∈ l.
Proof.
  intros (pre & post & -> & _). apply elem_of_app. right. now left.
Qed.

Lemma first_with_id_snoc (l : list Job.t) (j x : Job.t) :
  first_with_id l j -> first_with_id (l ++ [x]) j.
Proof.
  intros (pre & post & -> & Hfresh). exists pre, (post ++ [x]).
  split; [now rewrite <- app_assoc | exact Hfresh].
Qed.

Lemma first_with_id_last (l : list Job.t) (x : Job.t) :
  Job.id x ∉ (Job.id <$> l) -> first_with_id (l ++ [x]) x.
Proof. intros Hfresh. exists l, []. now split. Qed.

(** A first occurrence in [l ++ [x]] is one in [l], or is [x] with a key
    that [l] does not have. *)
Lemma first_with_id_snoc_inv (l : list Job.t) (j x : Job.t) :
  first_with_id (l ++ [x]) j ->
  first_with_id l j \/ (j = x /\ Job.id x ∉ (Job.id <$> l)).
Proof.
  intros (pre & post & Heq & Hfresh).
  destruct post as [|p post _] using rev_ind.
  - apply app_inj_tail in Heq as [-> ->]. now right.
  - rewrite app_comm_cons, app_assoc in Heq.
    apply app_inj_tail in Heq as [-> ->].
    left. now exists pre, post.
Qed.

Lemma NoDup_fmap_eq {A B} (f : A -> B) (l : list A) (x y : A) :
  NoDup (f <$> l) -> x ∈ l -> y ∈ l -> f x = f y -> x = y.
Proof.
  induction l as [|a l IH]; intros Hnd Hx Hy Hf.
  - now apply elem_of_nil in Hx.
  - rewrite fmap_cons in Hnd. apply NoDup_cons in Hnd as [Ha Hnd].
    apply elem_of_cons in Hx as [->|Hx]; apply elem_of_cons in Hy as [->|Hy].
    + reflexivity.
    + exfalso. apply Ha. rewrite Hf. now apply list_elem_of_fmap_2.
    + exfalso. apply Ha. rewrite <- Hf. now apply list_elem_of_fmap_2.
    + now apply IH.
Qed.

End FirstOccurrences.

Section SearchLoopInvariant.

Variable seen0 : gmap string string.

Lemma scan_inv_init : scan_inv seen0 (Scan seen0 [] []).
Proof.
  split; simpl.
  - intros j Hj. now apply elem_of_nil in Hj.
  - auto.
  - intros k t Hnone Hsome. congruence.
  - intros j Hj. now apply elem_of_nil in Hj.
  - constructor.
  - intros j k Hj. now apply elem_of_nil in Hj.
Qed.

(** Recording a keyed job keeps the invariant. *)
Lemma scan_inv_record (s : scan) (j : Job.t) (at_ : string) :
  scan_inv seen0 s ->
  Job.id j = Some (job_id j) -> Job.scraped_at j = Some at_ ->
  scan_inv seen0 (record_job j (job_id j) at_ s).
Proof.
  intros [Hkeyed Hold Hadded Hnew Hnodup Hcomplete] Hid Hat.
  unfold record_job.
  destruct (seen s !! job_id j) as [t0|] eqn:Hlook; split; simpl.
  - (* known key: keyed *)
    intros x Hx. apply elem_of_app in Hx as [Hx|Hx]; [now apply Hkeyed |].
    apply list_elem_of_singleton in Hx as ->. rewrite Hlook. eauto.
  - exact Hold.
  - exact Hadded.
  - intros x Hx. destruct (Hnew x Hx) as (k & t & ? & ? & ? & ? & Hfirst).
    exists k, t. repeat split; auto. now apply first_with_id_snoc.
  - exact Hnodup.
  - intros x k Hx Hxid Hk0.
    apply elem_of_app in Hx as [Hx|Hx];
      [exact (Hcomplete x k Hx Hxid Hk0) |].
    apply list_elem_of_singleton in Hx as ->.
    assert (k = job_id j) as -> by congruence.
    destruct (Hadded _ _ Hk0 Hlook) as (y & Hy & Hyid & _).
    rewrite <- Hyid. now apply list_elem_of_fmap_2.
  - (* fresh key: keyed *)
    intros x Hx. apply elem_of_app in Hx as [Hx|Hx].
    + destruct (Hkeyed x Hx) as [Hxid Hsome]. split; [exact Hxid |].
      apply lookup_insert_is_Some. destruct (decide (job_id j = job_id x)); auto.
    + apply list_elem_of_singleton in Hx as ->. split; [exact Hid |].
      rewrite lookup_insert_eq. eauto.
  - intros k t Hk0. specialize (Hold _ _ Hk0).
    rewrite lookup_insert_ne; [exact Hold | congruence].
  - intros k t Hk0 Hk. destruct (decide (job_id j = k)) as [<-|Hne].
    + rewrite lookup_insert_eq in Hk. inversion Hk; subst t.
      exists j. split; [|now split].
      apply elem_of_app. right. now apply list_elem_of_singleton.
    + rewrite lookup_insert_ne in Hk by exact Hne.
      destruct (Hadded _ _ Hk0 Hk) as (y & Hy & Hyid & Hyat).
      exists y. split; [|now split]. apply elem_of_app. now left.
  - intros x Hx. apply elem_of_app in Hx as [Hx|Hx].
    + destruct (Hnew x Hx) as (k & t & Hxid & Hk0 & Hxat & Hk & Hfirst).
      exists k, t. repeat split; auto.
      * rewrite lookup_insert_ne; [exact Hk | congruence].
      * now apply first_with_id_snoc.
    + apply list_elem_of_singleton in Hx as ->.
      exists (job_id j), at_. repeat split; auto.
      * destruct (seen0 !! job_id j) as [t|] eqn:H0; [|reflexivity].
        apply Hold in H0. congruence.
      * apply lookup_insert_eq.
      * apply first_with_id_last. intros Hin.
        apply list_elem_of_fmap in Hin as (y & Hyid & Hy).
        destruct (Hkeyed y Hy) as [Hyid' [t Ht]].
        assert (job_id y = job_id j) as Heq by congruence.
        rewrite Heq in Ht. congruence.
  - rewrite fmap_app. apply NoDup_app. split; [exact Hnodup |].
    split; [|apply NoDup_singleton].
    intros k Hk Hk'. apply list_elem_of_singleton in Hk'. subst k.
    apply list_elem_of_fmap in Hk as (y & Hyid & Hy).
    destruct (Hnew y Hy) as (k & t & Hyid' & _ & _ & Hsome & _).
    assert (k = job_id j) as -> by congruence. congruence.
  - intros x k Hx Hxid Hk0. rewrite fmap_app. apply elem_of_app.
    apply elem_of_app in Hx as [Hx|Hx].
    + left. exact (Hcomplete x k Hx Hxid Hk0).
    + apply list_elem_of_singleton in Hx as ->. right.
      rewrite <- Hxid. now apply list_elem_of_singleton.
Qed.

End SearchLoopInvariant.

Section SearchLoop.

Variable CONFIG : Config.t.
Variable SERPAPI_KEY : string.
Variable http_get : nat -> list (string * string) -> http_outcome.
Variable clock : nat -> instant.

Lemma keyed_scraped_at (raw : Raw.t) (now : instant) :
  Job.scraped_at (keyed raw now) = Some (isoformat now).
Proof. reflexivity. Qed.

Lemma scan_result_keeps_inv (seen0 : gmap string string) (raw : Raw.t)
      (s s' : scan) (w w' : world) :
  scan_inv seen0 s ->
  scan_result CONFIG clock raw s w = (Ok s', w') ->
  scan_inv seen0 s'.
Proof.
  intros Hinv Hrun. rewrite scan_result_run in Hrun.
  inversion Hrun; subst s' w'; clear Hrun.
  destruct (any_keyword CONFIG (combined_text raw)); [|exact Hinv].
  rewrite <- (keyed_job_id raw (clock (ticks w))).
  apply scan_inv_record; [exact Hinv | reflexivity | reflexivity].
Qed.

Lemma scan_query_keeps_inv (seen0 : gmap string string) (loc : Location.t)
      (q : string) (s s' : scan) (w w' : world) :
  scan_inv seen0 s ->
  scan_query CONFIG SERPAPI_KEY http_get clock loc q s w = (Ok s', w') ->
  scan_inv seen0 s'.
Proof.
  intros Hinv Hrun. unfold scan_query in Hrun.
  apply bind_Ok in Hrun as (where_ & w1 & _ & Hrun).
  apply bind_Ok in Hrun as (? & w2 & _ & Hrun).
  apply bind_Ok in Hrun as (results & w3 & _ & Hrun).
  apply bind_Ok in Hrun as (? & w4 & _ & Hrun).
  revert Hinv Hrun.
  apply (for_each_inv _ (fun s _ => scan_inv seen0 s)).
  intros raw sa wa sb wb _. apply scan_result_keeps_inv.
Qed.

Lemma scan_location_keeps_inv (seen0 : gmap string string) (loc : Location.t)
      (s s' : scan) (w w' : world) :
  scan_inv seen0 s ->
  scan_location CONFIG SERPAPI_KEY http_get clock loc s w = (Ok s', w') ->
  scan_inv seen0 s'.
Proof.
  apply (for_each_inv _ (fun s _ => scan_inv seen0 s)).
  intros q sa wa sb wb _. apply scan_query_keeps_inv.
Qed.

(** The invariant holds when the search loop is over. *)
Lemma search_loop_inv (seen0 : gmap string string) (s : scan) (w w' : world) :
  search_loop CONFIG SERPAPI_KEY http_get clock seen0 w = (Ok s, w') ->
  scan_inv seen0 s.
Proof.
  apply (for_each_inv _ (fun s _ => scan_inv seen0 s)).
  - intros loc sa wa sb wb _. apply scan_location_keeps_inv.
  - apply scan_inv_init.
Qed.

End SearchLoop.

(* ===================================================================== *)
(** ** The deduplication loop                                             *)
(* ===================================================================== *)

Section Deduplication.

Lemma dedup_step_run (j : Job.t) (k : string) (acc : gset string * list Job.t)
      (w : world) :
  Job.id j = Some k ->
  dedup_step j acc w =
  (Ok (if decide (k ∈ acc.1) then acc else ({[k]} ∪ acc.1, acc.2 ++ [j])), w).
Proof.
  intros Hid. unfold dedup_step, bind, lift. rewrite Hid. simpl.
  now destruct (decide (k ∈ acc.1)).
Qed.

Lemma dedup_step_Ok (j : Job.t) (acc acc' : gset string * list Job.t)
      (w w' : world) :
  dedup_step j acc w = (Ok acc', w') ->
  exists k, Job.id j = Some k /\ w' = w /\
    acc' = if decide (k ∈ acc.1) then acc else ({[k]} ∪ acc.1, acc.2 ++ [j]).
Proof.
  intros Hrun. destruct (Job.id j) as [k|] eqn:Hid.
  - rewrite (dedup_step_run j k acc w Hid) in Hrun.
    inversion Hrun. eauto.
  - unfold dedup_step, bind, lift in Hrun. rewrite Hid in Hrun. discriminate.
Qed.

Lemma dedup_inv_init : dedup_inv [] (∅, []).
Proof.
  split; simpl.
  - intros k. rewrite elem_of_nil. set_solver.
  - constructor.
  - constructor.
  - intros j Hj. now apply elem_of_nil in Hj.
  - intros j Hj. now apply first_with_id_elem, elem_of_nil in Hj.
  - intros j Hj. now apply elem_of_nil in Hj.
Qed.

Lemma dedup_inv_step (pre : list Job.t) (j : Job.t) (k : string)
      (acc : gset string * list Job.t) :
  Job.id j = Some k ->
  dedup_inv pre acc ->
  dedup_inv (pre ++ [j])
            (if decide (k ∈ acc.1) then acc else ({[k]} ∪ acc.1, acc.2 ++ [j])).
Proof.
  intros Hid [Hids Hsub Hnodup Hfirst Hkept Hcomplete].
  destruct (decide (k ∈ acc.1)) as [Hin|Hnotin]; split; simpl.
  - intros k'. rewrite fmap_app, elem_of_app, <- Hids. simpl.
    rewrite list_elem_of_singleton, Hid. split; [auto |].
    intros [H|H]; [exact H | now inversion H; subst].
  - now apply sublist_inserts_r.
  - exact Hnodup.
  - intros x Hx. now apply first_with_id_snoc, Hfirst.
  - intros x Hx. apply first_with_id_snoc_inv in Hx as [Hx|[-> Hfresh]].
    + now apply Hkept.
    + exfalso. apply Hfresh. rewrite Hid. now apply Hids.
  - intros x Hx. apply elem_of_app in Hx as [Hx|Hx]; [now apply Hcomplete |].
    apply list_elem_of_singleton in Hx as ->. rewrite Hid.
    apply Hids in Hin. apply list_elem_of_fmap in Hin as (y & Hyid & Hy).
    rewrite Hyid. now apply Hcomplete.
  - intros k'. rewrite fmap_app, elem_of_app, elem_of_union, <- Hids. simpl.
    rewrite list_elem_of_singleton, Hid. split.
    + intros [H|H]; [right | now left].
      apply elem_of_singleton in H. congruence.
    + intros [H|H]; [now right | left].
      apply elem_of_singleton. congruence.
  - now apply sublist_app.
  - rewrite fmap_app. apply NoDup_app. split; [exact Hnodup |].
    split; [|apply NoDup_singleton].
    intros k' Hk' Hk''. apply list_elem_of_singleton in Hk''. subst k'.
    rewrite Hid in Hk'. apply Hnotin, Hids.
    apply list_elem_of_fmap in Hk' as (y & Hyid & Hy).
    rewrite Hyid. apply list_elem_of_fmap_2.
    now apply first_with_id_elem, Hfirst.
  - intros x Hx. apply elem_of_app in Hx as [Hx|Hx].
    + now apply first_with_id_snoc, Hfirst.
    + apply list_elem_of_singleton in Hx as ->.
      apply first_with_id_last. rewrite Hid. now rewrite <- Hids.
  - intros x Hx. apply elem_of_app.
    apply first_with_id_snoc_inv in Hx as [Hx|[-> _]].
    + left. now apply Hkept.
    + right. now apply list_elem_of_singleton.
  - intros x Hx. rewrite fmap_app, elem_of_app.
    apply elem_of_app in Hx as [Hx|Hx]; [left; now apply Hcomplete |].
    apply list_elem_of_singleton in Hx as ->. right.
    now apply list_elem_of_singleton.
Qed.

(** When the deduplication loop is over, [deduped_all] holds the first
    occurrences of the accumulated list and the world is as before. *)
Lemma dedup_loop_spec (l : list Job.t) (d : gset string * list Job.t)
      (w w' : world) :
  for_each l dedup_step (∅, []) w = (Ok d, w') ->
  dedup_inv l d /\ w' = w.
Proof.
  intros Hrun.
  apply (for_each_prefix dedup_step
           (fun pre acc wx => dedup_inv pre acc /\ wx = w)
           ) with (pre := []) in Hrun; [exact Hrun | | ].
  - intros pre x acc wa acc' wb [Hinv ->] Hstep.
    apply dedup_step_Ok in Hstep as (k & Hid & -> & ->).
    split; [now apply dedup_inv_step | reflexivity].
  - split; [apply dedup_inv_init | reflexivity].
Qed.

Lemma dedup_loop_total (l : list Job.t) :
  (forall j, j ∈ l -> is_Some (Job.id j)) ->
  forall acc w, exists d, for_each l dedup_step acc w = (Ok d, w).
Proof.
  induction l as [|j l IH]; intros Hids acc w.
  - exists acc. reflexivity.
  - destruct (Hids j) as [k Hk]; [now left |].
    simpl. rewrite (bind_run _ _ _ _ _ (dedup_step_run j k acc w Hk)).
    apply IH. intros x Hx. apply Hids. now right.
Qed.

(** The comprehension over [new_jobs] keeps every record whose key is in
    [seen_ids]. *)
Lemma keep_deduped_all (seen_ids : gset string) (l : list Job.t) :
  (forall j, j ∈ l -> exists k, Job.id j = Some k /\ k ∈ seen_ids) ->
  forall out w,
    for_each l (keep_deduped seen_ids) out w = (Ok (out ++ l), w).
Proof.
  induction l as [|j l IH]; intros Hids out w.
  - simpl. now rewrite app_nil_r.
  - destruct (Hids j) as (k & Hk & Hin); [now left |].
    assert (keep_deduped seen_ids j out w = (Ok (out ++ [j]), w)) as Hstep.
    { unfold keep_deduped, bind, lift. rewrite Hk. simpl.
      now destruct (decide (k ∈ seen_ids)). }
    simpl. rewrite (bind_run _ _ _ _ _ Hstep).
    rewrite IH; [now rewrite <- app_assoc |].
    intros x Hx. apply Hids. now right.
Qed.

End Deduplication.

(* ===================================================================== *)
(** ** [run_scan]                                                         *)
(* ===================================================================== *)

Section RunScan.

Variable CONFIG : Config.t.
Variable SERPAPI_KEY : string.
Variable http_get : nat -> list (string * string) -> http_outcome.
Variable clock : nat -> instant.

Lemma load_seen_Ok (w w1 : world) (seen0 : gmap string string) :
  load_seen w = (Ok seen0, w1) <->
  seen_json w <> Malformed /\ seen0 = seen_at_start w /\ w1 = w.
Proof.
  unfold load_seen, seen_at_start.
  destruct (seen_json w); split;
    try (intros H; inversion H; subst; now repeat split);
    try (intros (Hm & -> & ->); reflexivity);
    try discriminate.
Qed.

Lemma new_jobs_keys_deduped (seen0 : gmap string string) (s : scan)
      (d : gset string * list Job.t) :
  scan_inv seen0 s -> dedup_inv (all_jobs s) d ->
  forall j, j ∈ new_jobs s -> exists k, Job.id j = Some k /\ k ∈ d.1.
Proof.
  intros Hinv Hd j Hj.
  destruct (inv_new _ _ Hinv j Hj) as (k & t & Hid & _ & _ & _ & Hfirst).
  exists k. split; [exact Hid |].
  apply (dd_ids _ _ Hd). rewrite <- Hid.
  now apply list_elem_of_fmap_2, first_with_id_elem.
Qed.

(** What a run that returns has done. *)
Lemma run_scan_Ok (w w' : world) (all new : list Job.t) :
  run_scan CONFIG SERPAPI_KEY http_get clock w = (Ok (all, new), w') ->
  exists s w1 ids,
    search_loop CONFIG SERPAPI_KEY http_get clock (seen_at_start w) w = (Ok s, w1) /\
    scan_inv (seen_at_start w) s /\
    dedup_inv (all_jobs s) (ids, all) /\
    new = new_jobs s /\ w' = saved s w1.
Proof.
  intros Hrun. unfold run_scan in Hrun.
  apply bind_Ok in Hrun as (seen0 & w0 & Hload & Hrun).
  apply load_seen_Ok in Hload as (_ & -> & ->).
  apply bind_Ok in Hrun as (s & w1 & Hloop & Hrun).
  apply bind_Ok in Hrun as (d & w2 & Hdedup & Hrun).
  apply dedup_loop_spec in Hdedup as [Hd ->].
  pose proof (search_loop_inv _ _ _ _ _ _ _ _ Hloop) as Hinv.
  rewrite (bind_run _ _ _ _ _
             (keep_deduped_all d.1 (new_jobs s)
                (new_jobs_keys_deduped _ _ _ Hinv Hd) [] w1)) in Hrun.
  unfold bind, save_seen, ret in Hrun. inversion Hrun; subst.
  exists s, w1, d.1.
  split; [exact Hloop |]. split; [exact Hinv |].
  split; [now destruct d |]. split; reflexivity.
Qed.

(** A run returns as soon as the stored mapping can be read and the
    search loop returns. *)
Lemma run_scan_total (w w1 : world) (s : scan) :
  seen_json w <> Malformed ->
  search_loop CONFIG SERPAPI_KEY http_get clock (seen_at_start w) w = (Ok s, w1) ->
  exists all, run_scan CONFIG SERPAPI_KEY http_get clock w = (Ok (all, new_jobs s), saved s w1).
Proof.
  intros Hfile Hloop.
  pose proof (search_loop_inv _ _ _ _ _ _ _ _ Hloop) as Hinv.
  destruct (dedup_loop_total (all_jobs s)
              (fun j Hj => ex_intro _ _ (proj1 (inv_keyed _ _ Hinv j Hj)))
              (∅, []) w1) as [d Hdedup].
  pose proof (dedup_loop_spec _ _ _ _ Hdedup) as [Hd _].
  exists d.2. unfold run_scan.
  assert (load_seen w = (Ok (seen_at_start w), w)) as Hload
      by now apply load_seen_Ok.
  rewrite (bind_run _ _ _ _ _ Hload), (bind_run _ _ _ _ _ Hloop),
          (bind_run _ _ _ _ _ Hdedup).
  rewrite (bind_run _ _ _ _ _
             (keep_deduped_all d.1 (new_jobs s)
                (new_jobs_keys_deduped _ _ _ Hinv Hd) [] w1)).
  reflexivity.
Qed.

End RunScan.

Lemma job_id_ext (a b : Job.t) : same_identity a b -> job_id a = job_id b.
Proof.
  intros (Ht & Hc & Hl). rewrite !job_id_eq. unfold identity_text.
  now rewrite Ht, Hc, Hl.
Qed.

(** C1. The [all_jobs] a run returns has no two records with the same key.
    It is the accumulated list with later duplicates removed: a sublist of
    it (so the order is kept), each kept record being the first one
    appended with its key, and no accumulated key is lost. *)
Theorem all_jobs_first_occurrences
  (CONFIG : Config.t) (SERPAPI_KEY : string)
  (http_get : nat -> list (string * string) -> http_outcome)
  (clock : nat -> instant) (w w' : world) (all new : list Job.t)
  (Hrun : run_scan CONFIG SERPAPI_KEY http_get clock w = (Ok (all, new), w')) :
  exists s w1,
    search_loop CONFIG SERPAPI_KEY http_get clock (seen_at_start w) w = (Ok s, w1) /\
    NoDup (Job.id <$> all) /\
    (forall j, j ∈ all -> Job.id j = Some (job_id j)) /\
    all `sublist_of` all_jobs s /\
    (forall j, j ∈ all -> first_with_id (all_jobs s) j) /\
    (forall j, j ∈ all_jobs s -> Job.id j ∈ (Job.id <$> all)).
Proof.
  apply run_scan_Ok in Hrun as (s & w1 & ids & Hloop & Hinv & Hd & _ & _).
  exists s, w1. split; [exact Hloop |].
  split; [exact (dd_nodup _ _ Hd) |].
  split.
  { intros j Hj. apply (inv_keyed _ _ Hinv).
    apply first_with_id_elem. now apply (dd_first _ _ Hd). }
  split; [exact (dd_sublist _ _ Hd) |].
  split; [exact (dd_first _ _ Hd) | exact (dd_complete _ _ Hd)].
Qed.

Lemma all_jobs_first_occurrences_witness :
  exists all new w',
    Sample.scan (Sample.boot NoFile) = (Ok (all, new), w') /\
    List.length all = 2%nat /\
    exists s w1,
      search_loop Sample.config "key" Sample.http Sample.clock
                  (seen_at_start (Sample.boot NoFile)) (Sample.boot NoFile)
      = (Ok s, w1) /\
      NoDup (Job.id <$> all) /\
      (forall j, j ∈ all -> Job.id j = Some (job_id j)) /\
      all `sublist_of` all_jobs s /\
      (forall j, j ∈ all -> first_with_id (all_jobs s) j) /\
      (forall j, j ∈ all_jobs s -> Job.id j ∈ (Job.id <$> all)).
Proof.
  eexists _, _, _. split; [vm_compute; reflexivity |].
  split; [reflexivity |].
  eapply (all_jobs_first_occurrences Sample.config "key" Sample.http Sample.clock
           (Sample.boot NoFile) _ _ _).
  vm_compute. reflexivity.
Defined.

(** C2. Every key in the [new_jobs] a run returns is a key of the returned
    [all_jobs], and was not in the mapping loaded at the start of the run. *)
Theorem new_jobs_subset_and_unseen
  (CONFIG : Config.t) (SERPAPI_KEY : string)
  (http_get : nat -> list (string * string) -> http_outcome)
  (clock : nat -> instant) (w w' : world) (all new : list Job.t)
  (Hrun : run_scan CONFIG SERPAPI_KEY http_get clock w = (Ok (all, new), w')) :
  forall j, j ∈ new ->
    exists k, Job.id j = Some k /\ Some k ∈ (Job.id <$> all) /\
              seen_at_start w !! k = None.
Proof.
  apply run_scan_Ok in Hrun as (s & w1 & ids & Hloop & Hinv & Hd & -> & _).
  intros j Hj.
  destruct (inv_new _ _ Hinv j Hj) as (k & t & Hid & Hk0 & _ & _ & Hfirst).
  exists k. split; [exact Hid |]. split; [|exact Hk0].
  rewrite <- Hid. apply (dd_complete _ _ Hd).
  now apply first_with_id_elem.
Qed.

Lemma new_jobs_subset_and_unseen_witness :
  exists all new w',
    Sample.scan (Sample.boot (Stored {["92ea612c7b05" := "2025-12-24T06:00:00"]}))
    = (Ok (all, new), w') /\
    List.length all = 2%nat /\ List.length new = 1%nat /\
    forall j, j ∈ new ->
      exists k, Job.id j = Some k /\ Some k ∈ (Job.id <$> all) /\
        seen_at_start
          (Sample.boot (Stored {["92ea612c7b05" := "2025-12-24T06:00:00"]})) !! k
        = None.
Proof.
  eexists _, _, _. split; [vm_compute; reflexivity |].
  split; [reflexivity |]. split; [reflexivity |].
  eapply (new_jobs_subset_and_unseen Sample.config "key" Sample.http Sample.clock
           (Sample.boot (Stored {["92ea612c7b05" := "2025-12-24T06:00:00"]}))
           _ _ _).
  vm_compute. reflexivity.
Defined.

(** C10. The [new_jobs] a run returns has no two records with the same key,
    and each of its records is itself a member of the returned [all_jobs]:
    the first record accumulated with that key, and the only record of
    [all_jobs] with that key. *)
Theorem new_jobs_are_kept_first_occurrences
  (CONFIG : Config.t) (SERPAPI_KEY : string)
  (http_get : nat -> list (string * string) -> http_outcome)
  (clock : nat -> instant) (w w' : world) (all new : list Job.t)
  (Hrun : run_scan CONFIG SERPAPI_KEY http_get clock w = (Ok (all, new), w')) :
  exists s w1,
    search_loop CONFIG SERPAPI_KEY http_get clock (seen_at_start w) w = (Ok s, w1) /\
    NoDup (Job.id <$> new) /\
    forall j, j ∈ new ->
      j ∈ all /\ first_with_id (all_jobs s) j /\
      (forall j', j' ∈ all -> Job.id j' = Job.id j -> j' = j).
Proof.
  apply run_scan_Ok in Hrun as (s & w1 & ids & Hloop & Hinv & Hd & -> & _).
  exists s, w1. split; [exact Hloop |].
  split; [exact (inv_new_nodup _ _ Hinv) |].
  intros j Hj.
  destruct (inv_new _ _ Hinv j Hj) as (k & t & _ & _ & _ & _ & Hfirst).
  assert (j ∈ all) as Hall by now apply (dd_firsts_kept _ _ Hd).
  split; [exact Hall |]. split; [exact Hfirst |].
  intros j' Hj' Hsame.
  exact (NoDup_fmap_eq Job.id all j' j (dd_nodup _ _ Hd) Hj' Hall Hsame).
Qed.

Lemma new_jobs_are_kept_first_occurrences_witness :
  exists all new w',
    Sample.scan (Sample.boot NoFile) = (Ok (all, new), w') /\
    List.length new = 2%nat /\
    exists s w1,
      search_loop Sample.config "key" Sample.http Sample.clock
                  (seen_at_start (Sample.boot NoFile)) (Sample.boot NoFile)
      = (Ok s, w1) /\
      NoDup (Job.id <$> new) /\
      forall j, j ∈ new ->
        j ∈ all /\ first_with_id (all_jobs s) j /\
        (forall j', j' ∈ all -> Job.id j' = Job.id j -> j' = j).
Proof.
  eexists _, _, _. split; [vm_compute; reflexivity |].
  split; [reflexivity |].
  eapply (new_jobs_are_kept_first_occurrences
            Sample.config "key" Sample.http Sample.clock (Sample.boot NoFile)).
  vm_compute. reflexivity.
Defined.

(** C8. The mapping a run writes back extends the mapping it loaded: every
    key present at the start keeps its timestamp, and every other entry of
    the written mapping belongs to a key absent at the start and holds the
    [scraped_at] of the returned new job with that key; each new job has
    such an entry. *)
Theorem seen_set_only_grows
  (CONFIG : Config.t) (SERPAPI_KEY : string)
  (http_get : nat -> list (string * string) -> http_outcome)
  (clock : nat -> instant) (w w' : world) (all new : list Job.t)
  (Hrun : run_scan CONFIG SERPAPI_KEY http_get clock w = (Ok (all, new), w')) :
  exists seen1,
    seen_json w' = Stored seen1 /\
    seen_at_start w ⊆ seen1 /\
    (forall k t, seen_at_start w !! k = Some t -> seen1 !! k = Some t) /\
    (forall k t, seen_at_start w !! k = None -> seen1 !! k = Some t ->
       exists j, j ∈ new /\ Job.id j = Some k /\ Job.scraped_at j = Some t) /\
    (forall j, j ∈ new ->
       exists k t, Job.id j = Some k /\ Job.scraped_at j = Some t /\
                   seen_at_start w !! k = None /\ seen1 !! k = Some t).
Proof.
  apply run_scan_Ok in Hrun as (s & w1 & ids & Hloop & Hinv & Hd & -> & ->).
  exists (seen s). split; [reflexivity |].
  split; [apply map_subseteq_spec; exact (inv_old _ _ Hinv) |].
  split; [exact (inv_old _ _ Hinv) |].
  split; [exact (inv_added _ _ Hinv) |].
  intros j Hj.
  destruct (inv_new _ _ Hinv j Hj) as (k & t & Hid & Hk0 & Hat & Hk & _).
  exists k, t. auto.
Qed.

Lemma seen_set_only_grows_witness :
  exists all new w',
    Sample.scan (Sample.boot (Stored {["92ea612c7b05" := "2025-12-24T06:00:00"]}))
    = (Ok (all, new), w') /\
    seen_json w' =
      Stored (<["0809d7986996" := "2026-01-01T00:00:3"]>
                {["92ea612c7b05" := "2025-12-24T06:00:00"]}) /\
    exists seen1,
      seen_json w' = Stored seen1 /\
      seen_at_start
        (Sample.boot (Stored {["92ea612c7b05" := "2025-12-24T06:00:00"]})) ⊆ seen1 /\
      (forall k t,
         seen_at_start
           (Sample.boot (Stored {["92ea612c7b05" := "2025-12-24T06:00:00"]})) !! k
         = Some t -> seen1 !! k = Some t) /\
      (forall k t,
         seen_at_start
           (Sample.boot (Stored {["92ea612c7b05" := "2025-12-24T06:00:00"]})) !! k
         = None -> seen1 !! k = Some t ->
         exists j, j ∈ new /\ Job.id j = Some k /\ Job.scraped_at j = Some t) /\
      (forall j, j ∈ new ->
         exists k t, Job.id j = Some k /\ Job.scraped_at j = Some t /\
           seen_at_start
             (Sample.boot (Stored {["92ea612c7b05" := "2025-12-24T06:00:00"]})) !! k
           = None /\ seen1 !! k = Some t).
Proof.
  eexists _, _, _. split; [vm_compute; reflexivity |].
  split; [vm_compute; reflexivity |].
  eapply (seen_set_only_grows Sample.config "key" Sample.http Sample.clock
            (Sample.boot (Stored {["92ea612c7b05" := "2025-12-24T06:00:00"]}))).
  vm_compute. reflexivity.
Defined.

(* ===================================================================== *)
(** ** Two runs over the same source data                                 *)
(* ===================================================================== *)

Section TwoRuns.

Variable CONFIG : Config.t.
Variable SERPAPI_KEY : string.
Variable http_get : nat -> list (string * string) -> http_outcome.
Variables clock1 clock2 : nat -> instant.

Lemma scan_result_in_step (raw : Raw.t) (s1 s2 s1' : scan) (w1 w2 w1' : world) :
  in_step s1 w1 s2 w2 ->
  scan_result CONFIG clock1 raw s1 w1 = (Ok s1', w1') ->
  exists s2' w2',
    scan_result CONFIG clock2 raw s2 w2 = (Ok s2', w2') /\
    in_step s1' w1' s2' w2'.
Proof.
  intros [Hreq Hids] Hrun. rewrite scan_result_run in Hrun.
  inversion Hrun; subst s1' w1'; clear Hrun.
  eexists _, _. split; [apply scan_result_run |].
  split; [exact Hreq |].
  destruct (any_keyword CONFIG (combined_text raw)); [|exact Hids].
  rewrite !record_job_all_jobs, !fmap_app, Hids. reflexivity.
Qed.

Lemma search_serpapi_in_step (q loc : string) (w1 w2 w1' : world)
      (results : list Raw.t) :
  requests w1 = requests w2 ->
  search_serpapi SERPAPI_KEY http_get q loc w1 = (Ok results, w1') ->
  exists w2',
    search_serpapi SERPAPI_KEY http_get q loc w2 = (Ok results, w2') /\
    requests w1' = requests w2'.
Proof.
  intros Hreq Hrun. unfold search_serpapi in *.
  destruct (negb (PyStr.truthy SERPAPI_KEY)).
  - unfold bind, print, ret in *. inversion Hrun; subst.
    eexists. split; [reflexivity | exact Hreq].
  - unfold bind, requests_get, print, ret in *. simpl in *.
    rewrite <- Hreq.
    destruct (http_get (requests w1) _); inversion Hrun; subst;
      (eexists; split; [reflexivity | simpl; now rewrite Hreq]).
Qed.

Lemma scan_query_in_step (loc : Location.t) (q : string)
      (s1 s2 s1' : scan) (w1 w2 w1' : world) :
  in_step s1 w1 s2 w2 ->
  scan_query CONFIG SERPAPI_KEY http_get clock1 loc q s1 w1 = (Ok s1', w1') ->
  exists s2' w2',
    scan_query CONFIG SERPAPI_KEY http_get clock2 loc q s2 w2 = (Ok s2', w2') /\
    in_step s1' w1' s2' w2'.
Proof.
  intros [Hreq Hids] Hrun. unfold scan_query in *.
  apply bind_Ok in Hrun as (where_ & wa & Hsub & Hrun).
  apply lift_Ok in Hsub as [Hsub ->].
  apply bind_Ok in Hrun as ([] & wb & Hprint & Hrun).
  apply bind_Ok in Hrun as (results & wc & Hsearch & Hrun).
  apply bind_Ok in Hrun as ([] & wd & Hprint' & Hrun).
  unfold print in Hprint, Hprint'. inversion Hprint; subst wb; clear Hprint.
  inversion Hprint'; subst wd; clear Hprint'.
  eapply (search_serpapi_in_step _ _ _
            (World (seen_json w2) (index_html w2)
                   (stdout w2 ++ ["Searching: '" +:+ q +:+ "' in '" +:+ where_ +:+ "'"])
                   (requests w2) (ticks w2) (sessions w2)))
    in Hsearch as (w2c & Hsearch2 & Hreqc); [|exact Hreq].
  eapply (for_each_rel _ (scan_result CONFIG clock2) in_step) in Hrun
    as (s2' & w2' & Hloop2 & Hstep).
  - exists s2', w2'. split; [|exact Hstep].
    unfold bind at 1. unfold lift at 1. rewrite Hsub.
    unfold bind at 1. unfold print at 1.
    rewrite (bind_run _ _ _ _ _ Hsearch2).
    unfold bind at 1. unfold print at 1. exact Hloop2.
  - intros raw sa wa sb wb sa' wa' _. apply scan_result_in_step.
  - split; [exact Hreqc | exact Hids].
Qed.

Lemma search_loop_in_step (seen1 seen2 : gmap string string)
      (s1 : scan) (w1 w2 w1' : world) :
  requests w1 = requests w2 ->
  search_loop CONFIG SERPAPI_KEY http_get clock1 seen1 w1 = (Ok s1, w1') ->
  exists s2 w2',
    search_loop CONFIG SERPAPI_KEY http_get clock2 seen2 w2 = (Ok s2, w2') /\
    in_step s1 w1' s2 w2'.
Proof.
  intros Hreq Hrun. unfold search_loop in *.
  eapply (for_each_rel _ (scan_location CONFIG SERPAPI_KEY http_get clock2)
                       in_step) in Hrun as (s2 & w2' & Hloop & Hstep).
  - exists s2, w2'. split; [exact Hloop | exact Hstep].
  - intros loc sa wa sb wb sa' wa' _ HR Hloc. unfold scan_location in *.
    eapply (for_each_rel _ (scan_query CONFIG SERPAPI_KEY http_get clock2 loc)
                         in_step) in Hloc as (sb' & wb' & Hloop & Hstep).
    + exists sb', wb'. split; [exact Hloop | exact Hstep].
    + intros q sc wc sd wd sc' wc' _. apply scan_query_in_step.
    + exact HR.
  - split; [exact Hreq | reflexivity].
Qed.

End TwoRuns.

(** C4. A run returns and writes back its mapping; a second run that starts
    from that mapping, over the same configuration and with the provider
    answering its requests as it answered the first run's, returns too,
    with an empty [new_jobs], whatever the clock shows by then. *)
Theorem second_run_has_no_new_jobs
  (CONFIG : Config.t) (SERPAPI_KEY : string)
  (http_get : nat -> list (string * string) -> http_outcome)
  (clock1 clock2 : nat -> instant)
  (w1 w1' : world) (all1 new1 : list Job.t)
  (Hfirst : run_scan CONFIG SERPAPI_KEY http_get clock1 w1 = (Ok (all1, new1), w1'))
  (w2 : world)
  (Hcarried : seen_json w2 = seen_json w1')
  (Hsource : requests w2 = requests w1) :
  exists all2 w2',
    run_scan CONFIG SERPAPI_KEY http_get clock2 w2 = (Ok (all2, []), w2').
Proof.
  apply run_scan_Ok in Hfirst as (s1 & wl1 & ids & Hloop1 & Hinv1 & _ & _ & ->).
  simpl in Hcarried.
  assert (seen_at_start w2 = seen s1) as Hstart
      by (unfold seen_at_start; now rewrite Hcarried).
  destruct (search_loop_in_step CONFIG SERPAPI_KEY http_get clock1 clock2
              (seen_at_start w1) (seen s1) s1 w1 w2 wl1 (eq_sym Hsource) Hloop1)
    as (s2 & wl2 & Hloop2 & _ & Hids).
  pose proof (search_loop_inv _ _ _ _ _ _ _ _ Hloop2) as Hinv2.
  assert (new_jobs s2 = []) as Hnone.
  { destruct (new_jobs s2) as [|j rest] eqn:Hnew; [reflexivity | exfalso].
    destruct (inv_new _ _ Hinv2 j) as (k & t & Hid & Hk0 & _ & _ & Hfirst).
    { rewrite Hnew. now left. }
    apply first_with_id_elem in Hfirst.
    apply (list_elem_of_fmap_2 Job.id) in Hfirst.
    rewrite <- Hids, Hid in Hfirst.
    apply list_elem_of_fmap in Hfirst as (j1 & Hj1id & Hj1).
    destruct (inv_keyed _ _ Hinv1 j1 Hj1) as [Hkey [t1 Ht1]].
    assert (k = job_id j1) as -> by congruence. congruence. }
  destruct (run_scan_total CONFIG SERPAPI_KEY http_get clock2 w2 wl2 s2)
    as [all2 Hrun2].
  - rewrite Hcarried. discriminate.
  - now rewrite Hstart.
  - rewrite Hnone in Hrun2. eauto.
Qed.

Lemma second_run_has_no_new_jobs_witness :
  exists all1 new1 w1',
    Sample.scan (Sample.boot NoFile) = (Ok (all1, new1), w1') /\
    List.length new1 = 2%nat /\
    exists all2 w2',
      run_scan Sample.config "key" Sample.http
               (fun n => Sample.clock (n + 3600)) (Sample.boot (seen_json w1'))
      = (Ok (all2, []), w2').
Proof.
  eexists _, _, _. split; [vm_compute; reflexivity |].
  split; [reflexivity |].
  eapply (second_run_has_no_new_jobs Sample.config "key" Sample.http
            Sample.clock (fun n => Sample.clock (n + 3600))
            (Sample.boot NoFile)).
  - vm_compute. reflexivity.
  - reflexivity.
  - reflexivity.
Defined.

(* ===================================================================== *)
(** ** The notifier                                                       *)
(* ===================================================================== *)

Section Notifier.

Variable CONFIG : Config.t.
Variable environ : gmap string string.
Variable clock : nat -> instant.
Variable get_template : string -> result template.
Variable smtp_outcome : nat -> option string.

Lemma render_email_sessions (all new : list Job.t) (w : world) :
  sessions (render_email CONFIG clock get_template all new w).2 = sessions w.
Proof.
  unfold render_email, bind, lift, datetime_now.
  destruct (get_template "email.html") as [tmpl|e]; reflexivity.
Qed.

(** A port that is not a number stops [send_email] before anything else. *)
Lemma send_email_bad_port (html : string) (n : nat) (w : world) :
  PyStr.int_of_str (environ_get environ "SMTP_PORT" "587") = None ->
  send_email environ smtp_outcome html n w =
  (Raise (ValueError "invalid literal for int() with base 10"), w).
Proof. intros Hport. unfold send_email. now rewrite Hport. Qed.

Lemma send_email_unconfigured (html : string) (n : nat) (w : world) (port : Z) :
  PyStr.int_of_str (environ_get environ "SMTP_PORT" "587") = Some port ->
  PyStr.truthy (environ_get environ "SMTP_USER" "") &&
  PyStr.truthy (environ_get environ "SMTP_PASS" "") &&
  PyStr.truthy (environ_get environ "EMAIL_TO" "") = false ->
  send_email environ smtp_outcome html n w =
  print "[WARN] Email not configured, skipping." w.
Proof. intros Hport Hcred. unfold send_email. now rewrite Hport, Hcred. Qed.

Lemma send_email_configured (html : string) (n : nat) (w : world) (port : Z) :
  PyStr.int_of_str (environ_get environ "SMTP_PORT" "587") = Some port ->
  PyStr.truthy (environ_get environ "SMTP_USER" "") &&
  PyStr.truthy (environ_get environ "SMTP_PASS" "") &&
  PyStr.truthy (environ_get environ "EMAIL_TO" "") = true ->
  exists w',
    send_email environ smtp_outcome html n w = (Ok tt, w') /\
    sessions w' =
    sessions w ++
    [Session (environ_get environ "SMTP_SERVER" "smtp.gmail.com") port
             (environ_get environ "SMTP_USER" "", environ_get environ "SMTP_PASS" "")
             (PyStr.split_comma (environ_get environ "EMAIL_TO" ""))
             (Message ("GA Nurse Jobs: " +:+ PyStr.str_of_nat n +:+ " new posting"
                       +:+ (if Nat.eqb n 1 then "" else "s"))
                      (environ_get environ "SMTP_USER" "")
                      (environ_get environ "EMAIL_TO" "") html)].
Proof.
  intros Hport Hcred. unfold send_email. rewrite Hport, Hcred.
  cbn [negb]. unfold bind, smtp_session_run.
  destruct (smtp_outcome (List.length (sessions w))); eexists;
    (split; [reflexivity | reflexivity]).
Qed.

Lemma environ_get_unset (key : string) :
  environ !! key = None -> PyStr.truthy (environ_get environ key "") = false.
Proof. intros H. unfold environ_get. now rewrite H. Qed.

End Notifier.

(** C9 (as amended). With no new job and FORCE_EMAIL unset, the e-mail step
    attempts no SMTP session, whatever else happens. With exactly one new
    job, e-mail enabled, the e-mail body rendered, SMTP_USER, SMTP_PASS
    and EMAIL_TO set and not empty, and SMTP_PORT unset or a string that
    [int] accepts (a base-ten integer literal of at most 4300 digits), it
    attempts exactly one session, whose Subject is
    "GA Nurse Jobs: 1 new posting". With SMTP_PORT unset or a string that
    [int] accepts and one of SMTP_USER, SMTP_PASS, EMAIL_TO unset,
    [send_email] returns normally after printing its warning and attempts
    no session. *)
Theorem notifier_gate
  (CONFIG : Config.t) (environ : gmap string string) (clock : nat -> instant)
  (get_template : string -> result template) (smtp_outcome : nat -> option string)
  (all : list Job.t) (w : world) :
  (environ !! "FORCE_EMAIL" = None ->
   sessions (notify CONFIG environ clock get_template smtp_outcome all [] w).2
   = sessions w) /\
  (forall j html w1 port,
      Config.email_enabled CONFIG <> Some false ->
      render_email CONFIG clock get_template all [j] w = (Ok html, w1) ->
      PyStr.int_of_str (environ_get environ "SMTP_PORT" "587") = Some port ->
      PyStr.truthy (environ_get environ "SMTP_USER" "") = true ->
      PyStr.truthy (environ_get environ "SMTP_PASS" "") = true ->
      PyStr.truthy (environ_get environ "EMAIL_TO" "") = true ->
      exists w' session,
        notify CONFIG environ clock get_template smtp_outcome all [j] w = (Ok tt, w') /\
        sessions w' = sessions w ++ [session] /\
        msg_subject (smtp_msg session) = "GA Nurse Jobs: 1 new posting" /\
        msg_html (smtp_msg session) = html) /\
  (forall html n port,
      PyStr.int_of_str (environ_get environ "SMTP_PORT" "587") = Some port ->
      environ !! "SMTP_USER" = None \/ environ !! "SMTP_PASS" = None \/
      environ !! "EMAIL_TO" = None ->
      send_email environ smtp_outcome html n w =
      (Ok tt, World (seen_json w) (index_html w)
                    (stdout w ++ ["[WARN] Email not configured, skipping."])
                    (requests w) (ticks w) (sessions w))).
Proof.
  split; [|split].
  - intros Hforce. unfold notify.
    destruct (default true (Config.email_enabled CONFIG)); [|reflexivity].
    pose proof (render_email_sessions CONFIG clock get_template all [] w) as Hframe.
    unfold bind.
    destruct (render_email CONFIG clock get_template all [] w) as [[html|e] w1];
      simpl in Hframe; [|exact Hframe].
    unfold force_email. rewrite Hforce. simpl. exact Hframe.
  - intros j html w1 port Henabled Hrender Hport Huser Hpass Hto.
    pose proof (render_email_sessions CONFIG clock get_template all [j] w) as Hframe.
    rewrite Hrender in Hframe. simpl in Hframe.
    destruct (send_email_configured environ smtp_outcome html 1 w1 port Hport)
      as (w' & Hsend & Hsessions).
    { now rewrite Huser, Hpass, Hto. }
    exists w'. eexists. split; [|split; [|split]].
    + unfold notify.
      replace (default true (Config.email_enabled CONFIG)) with true
        by (destruct (Config.email_enabled CONFIG) as [[|]|]; simpl; congruence).
      rewrite (bind_run _ _ _ _ _ Hrender). exact Hsend.
    + rewrite Hsessions, Hframe. reflexivity.
    + reflexivity.
    + reflexivity.
  - intros html n port Hport Hunset.
    rewrite (send_email_unconfigured environ smtp_outcome html n w port Hport);
      [reflexivity |].
    destruct Hunset as [H|[H|H]]; rewrite (environ_get_unset environ _ H);
      rewrite ?andb_false_r; reflexivity.
Qed.

Lemma notifier_gate_witness :
  exists w' session,
    notify Sample.config Sample.mail_environ Sample.clock Sample.templates
           Sample.smtp_fine [] [keyed Sample.id_nurse (Sample.clock 0)]
           (Sample.boot NoFile) = (Ok tt, w') /\
    sessions w' = sessions (Sample.boot NoFile) ++ [session] /\
    msg_subject (smtp_msg session) = "GA Nurse Jobs: 1 new posting" /\
    msg_html (smtp_msg session) = "email.html".
Proof.
  apply (proj1 (proj2 (notifier_gate Sample.config Sample.mail_environ Sample.clock
                         Sample.templates Sample.smtp_fine []
                         (Sample.boot NoFile)))
           (keyed Sample.id_nurse (Sample.clock 0)) "email.html"
           (advance_clock (Sample.boot NoFile)) 587).
  - discriminate.
  - reflexivity.
  - reflexivity.
  - reflexivity.
  - reflexivity.
  - reflexivity.
Defined.

(** C9 as stated fails: [send_email] converts SMTP_PORT before it looks at
    the credentials. With SMTP_PORT set to the empty string and no
    credential set, it raises [ValueError] and prints no warning. *)
Lemma unconfigured_email_blank_port_counterexample :
  Sample.blank_port_environ !! "SMTP_USER" = None /\
  Sample.blank_port_environ !! "SMTP_PASS" = None /\
  Sample.blank_port_environ !! "EMAIL_TO" = None /\
  exists e,
    send_email Sample.blank_port_environ Sample.smtp_fine "email.html" 1
               (Sample.boot NoFile) = (Raise e, Sample.boot NoFile) /\
    notify Sample.config Sample.blank_port_environ Sample.clock Sample.templates
           Sample.smtp_fine [] [keyed Sample.id_nurse (Sample.clock 0)]
           (Sample.boot NoFile)
    = (Raise e, advance_clock (Sample.boot NoFile)).
Proof.
  split; [reflexivity |]. split; [reflexivity |]. split; [reflexivity |].
  eexists. split; [now apply send_email_bad_port | reflexivity].
Qed.

(** A port of 4301 digits is no port: with every mail setting in place,
    [send_email] raises [ValueError] and attempts no session. *)
Example send_email_port_over_digit_limit :
  mail_configured Cases.long_port_environ /\
  exists msg,
    send_email Cases.long_port_environ Sample.smtp_fine "email.html" 1
               (Sample.boot NoFile) = (Raise (ValueError msg), Sample.boot NoFile).
Proof.
  split; [repeat split |].
  eexists. apply send_email_bad_port. vm_compute. reflexivity.
Qed.

(** The whole program on the sample data: two new postings, one session,
    plural subject, both recipients. *)
Example main_sends_one_digest :
  exists w',
    main Sample.config "key" Sample.mail_environ Sample.http Sample.clock
         Sample.templates Sample.smtp_fine (Sample.boot NoFile) = (Ok tt, w') /\
    (msg_subject <$> (smtp_msg <$> sessions w')) = ["GA Nurse Jobs: 2 new postings"] /\
    (smtp_rcpt <$> sessions w') = [["nurse@example.org"; "backup@example.org"]] /\
    (smtp_port_no <$> sessions w') = [587] /\
    index_html w' = Some "index.html" /\
    last (stdout w') = Some "Done.".
Proof. eexists. split; [vm_compute; reflexivity |]. vm_compute. auto. Qed.

(* ===================================================================== *)
(** ** More about the loops: returning, raising, leaving the world alone  *)
(* ===================================================================== *)

Section MoreLoopFacts.

Context {A S : Type}.

(** A loop whose body returns on every state satisfying [P], and keeps
    [P], returns. *)
Lemma for_each_returns (body : A -> S -> M S) (P : S -> world -> Prop) (xs : list A) :
  (forall x s w, x ∈ xs -> P s w ->
                 exists s' w', body x s w = (Ok s', w') /\ P s' w') ->
  forall s w, P s w ->
              exists s' w', for_each xs body s w = (Ok s', w') /\ P s' w'.
Proof.
  induction xs as [|x xs IH]; intros Hstep s w HP.
  - exists s, w. split; [reflexivity | exact HP].
  - destruct (Hstep x s w) as (s1 & w1 & Hbody & HP1); [now left | exact HP |].
    destruct (IH (fun y sa wa Hy => Hstep y sa wa (list_elem_of_further _ _ _ Hy))
                 s1 w1 HP1) as (s' & w' & Hrest & HP').
    exists s', w'. split; [|exact HP'].
    simpl. now rewrite (bind_run _ _ _ _ _ Hbody).
Qed.

(** A loop raises only what its body raised, from a state the loop had
    reached. *)
Lemma for_each_raises (body : A -> S -> M S) (P : S -> world -> Prop) (xs : list A) :
  (forall x s w s' w', x ∈ xs -> P s w -> body x s w = (Ok s', w') -> P s' w') ->
  forall s w e w',
    P s w -> for_each xs body s w = (Raise e, w') ->
    exists x s1 w1, x ∈ xs /\ P s1 w1 /\ body x s1 w1 = (Raise e, w').
Proof.
  induction xs as [|x xs IH]; intros Hstep s w e w' HP Hrun.
  - discriminate.
  - simpl in Hrun. unfold bind in Hrun.
    destruct (body x s w) as [[s1|e1] w1] eqn:Hbody.
    + destruct (IH (fun y a b c d Hy => Hstep y a b c d
                                         (list_elem_of_further _ _ _ Hy))
                   s1 w1 e w') as (y & s2 & w2 & Hy & HP2 & Hraise).
      * eapply Hstep; [now left | exact HP | exact Hbody].
      * exact Hrun.
      * exists y, s2, w2. split; [now right | now split].
    + inversion Hrun; subst. exists x, s, w. split; [now left | now split].
Qed.

Lemma keeps_for_each {X : Type} (f : world -> X) (body : A -> S -> M S)
      (xs : list A) :
  (forall x s, x ∈ xs -> keeps f (body x s)) ->
  forall s, keeps f (for_each xs body s).
Proof.
  induction xs as [|x xs IH]; intros Hbody s w.
  - reflexivity.
  - simpl. unfold bind.
    pose proof (Hbody x s (list_elem_of_here _ _) w) as Hx.
    destruct (body x s w) as [[s1|e] w1]; simpl in Hx; [|exact Hx].
    rewrite IH; [exact Hx |].
    intros y sy Hy. apply Hbody. now right.
Qed.

End MoreLoopFacts.

Section Keeping.

Context {A B X : Type}.
Variable f : world -> X.

Lemma keeps_ret (a : A) : keeps f (ret a).
Proof. intros w. reflexivity. Qed.

Lemma keeps_lift (r : result A) : keeps f (lift r).
Proof. intros w. reflexivity. Qed.

Lemma keeps_bind (m : M A) (k : A -> M B) :
  keeps f m -> (forall a, keeps f (k a)) -> keeps f (bind m k).
Proof.
  intros Hm Hk w. unfold bind. specialize (Hm w).
  destruct (m w) as [[a|e] w1]; simpl in Hm; [|exact Hm].
  now rewrite Hk.
Qed.

End Keeping.

(* ===================================================================== *)
(** ** The fetcher                                                        *)
(* ===================================================================== *)

Lemma truthy_false (s : string) : PyStr.truthy s = false <-> s = "".
Proof. destruct s; simpl; split; congruence. Qed.

Lemma search_serpapi_cases
  (SERPAPI_KEY : string)
  (http_get : nat -> list (string * string) -> http_outcome)
  (query location : string) (w : world) :
  exists results w',
    search_serpapi SERPAPI_KEY http_get query location w = (Ok results, w') /\
    outside w' = outside w /\ ticks w' = ticks w /\
    (SERPAPI_KEY = "" -> results = [] /\ requests w' = requests w) /\
    (SERPAPI_KEY <> "" ->
       requests w' = S (requests w) /\
       (results <> [] ->
        http_get (requests w) (serpapi_params SERPAPI_KEY query location)
        = HttpJson (Some results)) /\
       (forall e,
          http_get (requests w) (serpapi_params SERPAPI_KEY query location)
          = HttpFailed e -> results = [])).
Proof.
  unfold search_serpapi.
  destruct (PyStr.truthy SERPAPI_KEY) eqn:Hkey; simpl.
  - fold (serpapi_params SERPAPI_KEY query location).
    unfold bind, requests_get.
    destruct (http_get (requests w) (serpapi_params SERPAPI_KEY query location))
      as [e|[answer|]] eqn:Hhttp; simpl;
      eexists _, _; (split; [reflexivity |]);
      (split; [reflexivity |]); (split; [reflexivity |]);
      (split; [intros ->; discriminate |]); intros _;
      (split; [reflexivity |]); split; try congruence; auto.
  - apply truthy_false in Hkey. subst SERPAPI_KEY.
    eexists _, _. split; [reflexivity |].
    repeat split; congruence.
Qed.

(** X1. [search_serpapi] never raises and never touches the files or the
    mail. Without an API key it makes no request and returns no result;
    with a key it makes exactly one request, and whatever it returns other
    than the empty list is the ["jobs_results"] of the provider's answer to
    that request; a failed request gives the empty list. *)
Theorem search_serpapi_never_raises
  (SERPAPI_KEY : string)
  (http_get : nat -> list (string * string) -> http_outcome)
  (query location : string) (w : world) :
  exists results w',
    search_serpapi SERPAPI_KEY http_get query location w = (Ok results, w') /\
    outside w' = outside w /\ ticks w' = ticks w /\
    (SERPAPI_KEY = "" -> results = [] /\ requests w' = requests w) /\
    (SERPAPI_KEY <> "" ->
       requests w' = S (requests w) /\
       (results <> [] ->
        http_get (requests w) (serpapi_params SERPAPI_KEY query location)
        = HttpJson (Some results)) /\
       (forall e,
          http_get (requests w) (serpapi_params SERPAPI_KEY query location)
          = HttpFailed e -> results = [])).
Proof. apply search_serpapi_cases. Qed.

Section Fetcher.

Variable SERPAPI_KEY : string.
Variable http_get : nat -> list (string * string) -> http_outcome.

Lemma search_serpapi_keeps_outside (q loc : string) :
  keeps outside (search_serpapi SERPAPI_KEY http_get q loc).
Proof.
  intros w.
  destruct (search_serpapi_cases SERPAPI_KEY http_get q loc w)
    as (results & w' & Hrun & Hout & _).
  now rewrite Hrun.
Qed.

Lemma search_serpapi_returns (q loc : string) (w : world) :
  exists results w',
    search_serpapi SERPAPI_KEY http_get q loc w = (Ok results, w') /\
    ticks w' = ticks w /\
    (forall raw, raw ∈ results ->
       http_get (requests w) (serpapi_params SERPAPI_KEY q loc)
       = HttpJson (Some results)).
Proof.
  destruct (search_serpapi_cases SERPAPI_KEY http_get q loc w)
    as (results & w' & Hrun & _ & Hticks & Hnokey & Hkey).
  exists results, w'. split; [exact Hrun |]. split; [exact Hticks |].
  intros raw Hraw.
  destruct (decide (SERPAPI_KEY = "")) as [Hk|Hk].
  - destruct (Hnokey Hk) as [-> _]. now apply elem_of_nil in Hraw.
  - apply (Hkey Hk). intros ->. now apply elem_of_nil in Hraw.
Qed.

End Fetcher.

(* ===================================================================== *)
(** ** The search loop: when it returns, what it leaves alone             *)
(* ===================================================================== *)

Section SearchLoopEffects.

Variable CONFIG : Config.t.
Variable SERPAPI_KEY : string.
Variable http_get : nat -> list (string * string) -> http_outcome.
Variable clock : nat -> instant.

Lemma keeps_print_outside (line : string) : keeps outside (print line).
Proof. intros w. reflexivity. Qed.

Lemma scan_result_keeps_outside (raw : Raw.t) (s : scan) :
  keeps outside (scan_result CONFIG clock raw s).
Proof. intros w. now rewrite scan_result_run. Qed.

Lemma scan_query_some (loc : Location.t) (q where_ : string) (s : scan) (w : world) :
  Location.search_string loc = Some where_ ->
  scan_query CONFIG SERPAPI_KEY http_get clock loc q s w =
  bind (search_serpapi SERPAPI_KEY http_get q where_)
       (fun results =>
          bind (print ("  Found " +:+ PyStr.str_of_nat (List.length results)
                       +:+ " results"))
               (fun _ => for_each results (scan_result CONFIG clock) s))
       (print ("Searching: '" +:+ q +:+ "' in '" +:+ where_ +:+ "'") w).2.
Proof. intros Hloc. unfold scan_query. unfold bind at 1 2, lift. now rewrite Hloc. Qed.

Lemma scan_query_none (loc : Location.t) (q : string) (s : scan) (w : world) :
  Location.search_string loc = None ->
  scan_query CONFIG SERPAPI_KEY http_get clock loc q s w =
  (Raise (KeyError "search_string"), w).
Proof. intros Hloc. unfold scan_query. unfold bind at 1, lift. now rewrite Hloc. Qed.

Lemma results_loop_returns (results : list Raw.t) (s : scan) (w : world) :
  exists s' w', for_each results (scan_result CONFIG clock) s w = (Ok s', w') /\
                requests w' = requests w.
Proof.
  destruct (for_each_returns (scan_result CONFIG clock)
              (fun _ wx => requests wx = requests w) results) with (s := s) (w := w)
    as (s' & w' & Hrun & Hreq); [|reflexivity | now exists s', w'].
  intros raw sa wa _ Hreq. rewrite scan_result_run.
  eexists _, _. split; [reflexivity | exact Hreq].
Qed.

(** A query on a location that has its search string returns. *)
Lemma scan_query_returns (loc : Location.t) (q where_ : string) (s : scan) (w : world) :
  Location.search_string loc = Some where_ ->
  exists s' w',
    scan_query CONFIG SERPAPI_KEY http_get clock loc q s w = (Ok s', w') /\
    requests w' = (if PyStr.truthy SERPAPI_KEY then S (requests w) else requests w).
Proof.
  intros Hloc. rewrite (scan_query_some loc q where_ s w Hloc).
  destruct (search_serpapi_cases SERPAPI_KEY http_get q where_
              (print ("Searching: '" +:+ q +:+ "' in '" +:+ where_ +:+ "'") w).2)
    as (results & w1 & Hsearch & _ & _ & Hnokey & Hkey).
  rewrite (bind_run _ _ _ _ _ Hsearch). unfold bind at 1.
  destruct (results_loop_returns results s
              (print ("  Found " +:+ PyStr.str_of_nat (List.length results)
                      +:+ " results") w1).2) as (s' & w' & Hloop & Hreq).
  exists s', w'. split; [exact Hloop |].
  rewrite Hreq. simpl.
  destruct (PyStr.truthy SERPAPI_KEY) eqn:Ht.
  - destruct Hkey as [-> _]; [|reflexivity]. intros ->. discriminate.
  - apply truthy_false in Ht. now destruct (Hnokey Ht) as [_ ->].
Qed.

Lemma scan_query_keeps_outside (loc : Location.t) (q : string) (s : scan) :
  keeps outside (scan_query CONFIG SERPAPI_KEY http_get clock loc q s).
Proof.
  unfold scan_query.
  apply keeps_bind; [apply keeps_lift | intros where_].
  apply keeps_bind; [apply keeps_print_outside | intros _].
  apply keeps_bind; [apply search_serpapi_keeps_outside | intros results].
  apply keeps_bind; [apply keeps_print_outside | intros _].
  apply keeps_for_each. intros raw sa _. apply scan_result_keeps_outside.
Qed.

Lemma search_loop_keeps_outside (seen0 : gmap string string) :
  keeps outside (search_loop CONFIG SERPAPI_KEY http_get clock seen0).
Proof.
  apply keeps_for_each. intros loc s _.
  apply keeps_for_each. intros q sa _. apply scan_query_keeps_outside.
Qed.

(** The search loop raises nothing but the [KeyError] of a location
    without search string. *)
Lemma search_loop_raises (seen0 : gmap string string) (w w' : world) (e : exn) :
  search_loop CONFIG SERPAPI_KEY http_get clock seen0 w = (Raise e, w') ->
  e = KeyError "search_string" /\
  default [] (Config.search_queries CONFIG) <> [] /\
  exists loc, loc ∈ default [] (Config.locations CONFIG) /\
              Location.search_string loc = None.
Proof.
  intros Hrun. unfold search_loop in Hrun.
  apply (for_each_raises _ (fun _ _ => True)) in Hrun
    as (loc & s1 & w1 & Hloc & _ & Hrun); [|auto | exact I].
  unfold scan_location in Hrun.
  apply (for_each_raises _ (fun _ _ => True)) in Hrun
    as (q & s2 & w2 & Hq & _ & Hrun); [|auto | exact I].
  destruct (Location.search_string loc) as [where_|] eqn:Hss.
  - destruct (scan_query_returns loc q where_ s2 w2 Hss) as (s' & w3 & Hok & _).
    congruence.
  - rewrite (scan_query_none loc q s2 w2 Hss) in Hrun. inversion Hrun; subst.
    split; [reflexivity |]. split.
    + intros Hnil. rewrite Hnil in Hq. now apply elem_of_nil in Hq.
    + now exists loc.
Qed.

(** With every location in order (or no query at all) the search loop
    returns, having made one request per location and query when there is
    an API key and none otherwise. *)
Lemma search_loop_returns (seen0 : gmap string string) (w : world) :
  default [] (Config.search_queries CONFIG) = [] \/ locations_ok CONFIG ->
  exists s w',
    search_loop CONFIG SERPAPI_KEY http_get clock seen0 w = (Ok s, w').
Proof.
  intros Hcfg. unfold search_loop.
  destruct (for_each_returns
              (scan_location CONFIG SERPAPI_KEY http_get clock)
              (fun _ _ => True) (default [] (Config.locations CONFIG)))
    with (s := Scan seen0 [] []) (w := w) as (s & w' & Hrun & _);
    [|exact I | now exists s, w'].
  intros loc sa wa Hloc _. unfold scan_location.
  destruct Hcfg as [Hnil|Hok].
  - rewrite Hnil. now exists sa, wa.
  - destruct (Hok loc Hloc) as [where_ Hss].
    destruct (for_each_returns
                (scan_query CONFIG SERPAPI_KEY http_get clock loc)
                (fun _ _ => True) (default [] (Config.search_queries CONFIG)))
      with (s := sa) (w := wa) as (s' & w' & Hrun & _);
      [|exact I | now exists s', w'].
    intros q sb wb _ _.
    destruct (scan_query_returns loc q where_ sb wb Hss) as (s' & w' & Hq & _).
    now exists s', w'.
Qed.

End SearchLoopEffects.

Section RunScanEffects.

Variable CONFIG : Config.t.
Variable SERPAPI_KEY : string.
Variable http_get : nat -> list (string * string) -> http_outcome.
Variable clock : nat -> instant.

Lemma run_scan_raises (w w' : world) (e : exn) :
  run_scan CONFIG SERPAPI_KEY http_get clock w = (Raise e, w') ->
  outside w' = outside w /\
  ((e = JSONDecodeError /\ seen_json w = Malformed /\ w' = w) \/
   (e = KeyError "search_string" /\
    default [] (Config.search_queries CONFIG) <> [] /\
    exists loc, loc ∈ default [] (Config.locations CONFIG) /\
                Location.search_string loc = None)).
Proof.
  intros Hrun.
  assert (seen_json w = Malformed \/ seen_json w <> Malformed) as [Hbad|Hfile]
      by (destruct (seen_json w); [right | left | right]; congruence).
  - unfold run_scan, bind, load_seen in Hrun. rewrite Hbad in Hrun.
    inversion Hrun; subst. split; [reflexivity | left; auto].
  - assert (load_seen w = (Ok (seen_at_start w), w)) as Hload
        by now apply load_seen_Ok.
    destruct (search_loop CONFIG SERPAPI_KEY http_get clock (seen_at_start w) w)
      as [[s|e1] w1] eqn:Hloop.
    + destruct (run_scan_total CONFIG SERPAPI_KEY http_get clock w w1 s Hfile Hloop)
        as [all Hok]. congruence.
    + unfold run_scan in Hrun. rewrite (bind_run _ _ _ _ _ Hload) in Hrun.
      unfold bind in Hrun. rewrite Hloop in Hrun. inversion Hrun; subst.
      split.
      * pose proof (search_loop_keeps_outside CONFIG SERPAPI_KEY http_get clock
                      (seen_at_start w) w) as Hkeep.
        now rewrite Hloop in Hkeep.
      * right. exact (search_loop_raises _ _ _ _ _ _ _ _ Hloop).
Qed.

Lemma run_scan_raises_frame (w w' : world) (e : exn) :
  run_scan CONFIG SERPAPI_KEY http_get clock w = (Raise e, w') ->
  outside w' = outside w /\
  (seen_json w = Malformed -> e = JSONDecodeError /\ w' = w) /\
  (e = JSONDecodeError -> seen_json w = Malformed /\ w' = w).
Proof.
  intros Hrun. destruct (run_scan_raises w w' e Hrun) as [Hout Hwhich].
  split; [exact Hout |]. split.
  - intros Hbad. unfold run_scan, bind, load_seen in Hrun. rewrite Hbad in Hrun.
    inversion Hrun. auto.
  - intros ->. destruct Hwhich as [(_ & Hbad & Hw)|(He & _)];
      [auto | discriminate He].
Qed.

End RunScanEffects.

(** X3. A run that raises has written nothing. When [run_scan] raises, as
    it does with [JSONDecodeError] on an unreadable [seen_jobs.json] and
    with [KeyError] on a location without search string, the stored
    mapping, the report file and the mail are as before: the keys
    collected up to the failure are not saved. [JSONDecodeError] is raised
    on an unreadable [seen_jobs.json] and on nothing else, and before
    anything else happens: no request, no output, no reading of the
    clock. (The final write of the mapping is taken to succeed.) *)
Theorem run_scan_failure_writes_nothing
  (CONFIG : Config.t) (SERPAPI_KEY : string)
  (http_get : nat -> list (string * string) -> http_outcome)
  (clock : nat -> instant) (w w' : world) (e : exn)
  (Hraise : run_scan CONFIG SERPAPI_KEY http_get clock w = (Raise e, w')) :
  outside w' = outside w /\
  (seen_json w = Malformed -> e = JSONDecodeError /\ w' = w) /\
  (e = JSONDecodeError -> seen_json w = Malformed /\ w' = w).
Proof. exact (run_scan_raises_frame _ _ _ _ _ _ _ Hraise). Qed.

Lemma run_scan_failure_writes_nothing_witness :
  exists e w',
    run_scan Cases.broken_config "key" Sample.http Sample.clock Cases.one_seen
    = (Raise e, w') /\
    requests w' = 1%nat /\ ticks w' = 3%nat /\
    outside w' = outside Cases.one_seen.
Proof.
  assert (exists e w',
             run_scan Cases.broken_config "key" Sample.http Sample.clock
                      Cases.one_seen = (Raise e, w') /\
             requests w' = 1%nat /\ ticks w' = 3%nat) as (e & w' & Hrun & Hr & Ht).
  { eexists _, _. split; [vm_compute; reflexivity |]. split; reflexivity. }
  exists e, w'. split; [exact Hrun |]. split; [exact Hr |]. split; [exact Ht |].
  exact (proj1 (run_scan_failure_writes_nothing Cases.broken_config "key"
                  Sample.http Sample.clock Cases.one_seen w' e Hrun)).
Defined.

Section RequestCount.

Variable CONFIG : Config.t.
Variable SERPAPI_KEY : string.
Variable http_get : nat -> list (string * string) -> http_outcome.
Variable clock : nat -> instant.

Lemma scan_query_Ok_requests (loc : Location.t) (q : string)
      (s s' : scan) (w w' : world) :
  scan_query CONFIG SERPAPI_KEY http_get clock loc q s w = (Ok s', w') ->
  requests w' = (if PyStr.truthy SERPAPI_KEY then S (requests w) else requests w).
Proof.
  intros Hrun. destruct (Location.search_string loc) as [where_|] eqn:Hss.
  - destruct (scan_query_returns CONFIG SERPAPI_KEY http_get clock
                loc q where_ s w Hss) as (s1 & w1 & Hok & Hreq).
    congruence.
  - rewrite (scan_query_none _ _ _ _ loc q s w Hss) in Hrun. discriminate.
Qed.

Lemma scan_location_requests (loc : Location.t) (s s' : scan) (w w' : world) :
  scan_location CONFIG SERPAPI_KEY http_get clock loc s w = (Ok s', w') ->
  requests w' =
  (requests w +
   (if PyStr.truthy SERPAPI_KEY
    then List.length (default [] (Config.search_queries CONFIG)) else 0))%nat.
Proof.
  intros Hrun. unfold scan_location in Hrun.
  apply (for_each_prefix _
           (fun pre _ wx =>
              requests wx =
              (requests w +
               (if PyStr.truthy SERPAPI_KEY then List.length pre else 0))%nat))
    with (pre := []) in Hrun.
  - exact Hrun.
  - intros pre q sa wa sb wb Hreq Hq.
    apply scan_query_Ok_requests in Hq. rewrite Hq, length_app. simpl.
    destruct (PyStr.truthy SERPAPI_KEY); lia.
  - simpl. destruct (PyStr.truthy SERPAPI_KEY); lia.
Qed.

Lemma search_loop_requests (seen0 : gmap string string) (s : scan) (w w' : world) :
  search_loop CONFIG SERPAPI_KEY http_get clock seen0 w = (Ok s, w') ->
  requests w' =
  (requests w +
   (if PyStr.truthy SERPAPI_KEY
    then List.length (default [] (Config.locations CONFIG)) *
         List.length (default [] (Config.search_queries CONFIG))
    else 0))%nat.
Proof.
  intros Hrun. unfold search_loop in Hrun.
  apply (for_each_prefix _
           (fun pre _ wx =>
              requests wx =
              (requests w +
               (if PyStr.truthy SERPAPI_KEY
                then List.length pre *
                     List.length (default [] (Config.search_queries CONFIG))
                else 0))%nat))
    with (pre := []) in Hrun.
  - exact Hrun.
  - intros pre loc sa wa sb wb Hreq Hloc.
    apply scan_location_requests in Hloc. rewrite Hloc, Hreq, length_app. simpl.
    destruct (PyStr.truthy SERPAPI_KEY); lia.
  - simpl. destruct (PyStr.truthy SERPAPI_KEY); lia.
Qed.

(** Without an API key the search loop changes none of its variables and
    does not read the clock. *)
Lemma search_loop_without_key (seen0 : gmap string string) (s : scan) (w w' : world) :
  SERPAPI_KEY = "" ->
  search_loop CONFIG SERPAPI_KEY http_get clock seen0 w = (Ok s, w') ->
  s = Scan seen0 [] [] /\ ticks w' = ticks w.
Proof.
  intros Hkey Hrun. unfold search_loop in Hrun.
  apply (for_each_inv _ (fun sx wx => sx = Scan seen0 [] [] /\ ticks wx = ticks w))
    in Hrun; [exact Hrun | | now split].
  intros loc sa wa sb wb _ Hinv Hloc. unfold scan_location in Hloc.
  apply (for_each_inv _ (fun sx wx => sx = Scan seen0 [] [] /\ ticks wx = ticks w))
    in Hloc; [exact Hloc | | exact Hinv].
  intros q sc wc sd wd _ [-> Hticks] Hq.
  destruct (Location.search_string loc) as [where_|] eqn:Hss.
  - rewrite (scan_query_some _ _ _ _ loc q where_ _ wc Hss) in Hq.
    destruct (search_serpapi_cases SERPAPI_KEY http_get q where_
                (print ("Searching: '" +:+ q +:+ "' in '" +:+ where_ +:+ "'") wc).2)
      as (results & w1 & Hsearch & _ & Ht & Hnokey & _).
    destruct (Hnokey Hkey) as [-> _].
    rewrite (bind_run _ _ _ _ _ Hsearch) in Hq.
    inversion Hq; subst. split; [reflexivity |].
    simpl. rewrite Ht. exact Hticks.
  - rewrite (scan_query_none _ _ _ _ loc q _ wc Hss) in Hq. discriminate.
Qed.

End RequestCount.

(** X4. A run that returns has made exactly one request per configured
    (location, query) pair when an API key is set, and none without a key,
    whatever the provider answered. *)
Theorem run_scan_request_count
  (CONFIG : Config.t) (SERPAPI_KEY : string)
  (http_get : nat -> list (string * string) -> http_outcome)
  (clock : nat -> instant) (w w' : world) (all new : list Job.t)
  (Hrun : run_scan CONFIG SERPAPI_KEY http_get clock w = (Ok (all, new), w')) :
  (SERPAPI_KEY <> "" ->
   requests w' =
   (requests w + List.length (default [] (Config.locations CONFIG)) *
                 List.length (default [] (Config.search_queries CONFIG)))%nat) /\
  (SERPAPI_KEY = "" -> requests w' = requests w).
Proof.
  apply run_scan_Ok in Hrun as (s & w1 & ids & Hloop & _ & _ & _ & ->).
  apply search_loop_requests in Hloop. simpl. rewrite Hloop. split.
  - intros Hkey. destruct (PyStr.truthy SERPAPI_KEY) eqn:Ht; [reflexivity |].
    now apply truthy_false in Ht.
  - intros ->. simpl. lia.
Qed.

Lemma run_scan_request_count_witness :
  exists all new w',
    Sample.scan (Sample.boot NoFile) = (Ok (all, new), w') /\
    requests w' = 2%nat /\
    ("key" <> "" ->
     requests w' =
     (requests (Sample.boot NoFile) +
      List.length (default [] (Config.locations Sample.config)) *
      List.length (default [] (Config.search_queries Sample.config)))%nat) /\
    ("key" = "" -> requests w' = requests (Sample.boot NoFile)).
Proof.
  eexists _, _, _. split; [vm_compute; reflexivity |].
  split; [reflexivity |].
  eapply (run_scan_request_count Sample.config "key" Sample.http Sample.clock
            (Sample.boot NoFile)).
  vm_compute. reflexivity.
Defined.

(** X5. Without an API key a run that returns reports nothing: both lists
    are empty, no request is made, the clock is not read, and the mapping
    written back is the one loaded (the empty one when there was no
    file). *)
Theorem run_scan_without_key
  (CONFIG : Config.t)
  (http_get : nat -> list (string * string) -> http_outcome)
  (clock : nat -> instant) (w w' : world) (all new : list Job.t)
  (Hrun : run_scan CONFIG "" http_get clock w = (Ok (all, new), w')) :
  all = [] /\ new = [] /\
  requests w' = requests w /\ ticks w' = ticks w /\
  seen_json w' = Stored (seen_at_start w).
Proof.
  apply run_scan_Ok in Hrun as (s & w1 & ids & Hloop & _ & Hd & -> & ->).
  pose proof (search_loop_requests _ _ _ _ _ _ _ _ Hloop) as Hreq.
  apply search_loop_without_key in Hloop as [-> Hticks]; [|reflexivity].
  simpl in *. split; [|repeat split; auto; lia].
  pose proof (dd_sublist _ _ Hd) as Hsub. simpl in Hsub.
  now apply sublist_nil_r in Hsub.
Qed.

Lemma run_scan_without_key_witness :
  exists all new w',
    run_scan Sample.config "" Sample.http Sample.clock Cases.one_seen
    = (Ok (all, new), w') /\
    List.length (stdout w') = 6%nat /\
    all = [] /\ new = [] /\
    requests w' = requests Cases.one_seen /\ ticks w' = ticks Cases.one_seen /\
    seen_json w' = Stored (seen_at_start Cases.one_seen).
Proof.
  eexists _, _, _. split; [vm_compute; reflexivity |].
  split; [reflexivity |].
  eapply (run_scan_without_key Sample.config Sample.http Sample.clock
            Cases.one_seen).
  vm_compute. reflexivity.
Defined.

Section Provenance.

Variable CONFIG : Config.t.
Variable SERPAPI_KEY : string.
Variable http_get : nat -> list (string * string) -> http_outcome.
Variable clock : nat -> instant.

Lemma accumulated_app (t : nat) (a b : list Raw.t) :
  accumulated CONFIG clock t (a ++ b) =
  accumulated CONFIG clock t a ++
  accumulated CONFIG clock (t + List.length a) b.
Proof.
  revert t. induction a as [|raw a IH]; intros t; simpl.
  - now rewrite Nat.add_0_r.
  - rewrite IH, <- app_assoc. do 3 f_equal. lia.
Qed.

(** An accumulated record is the keyed form of a record that passed the
    filter, read at the clock reading of its place. *)
Lemma accumulated_elem (t : nat) (raws : list Raw.t) (j : Job.t) :
  j ∈ accumulated CONFIG clock t raws ->
  exists i raw,
    raws !! i = Some raw /\
    any_keyword CONFIG (combined_text raw) = true /\
    j = keyed raw (clock (t + i)).
Proof.
  revert t. induction raws as [|raw raws IH]; intros t Hj; simpl in Hj.
  - now apply elem_of_nil in Hj.
  - apply elem_of_app in Hj as [Hj|Hj].
    + destruct (any_keyword CONFIG (combined_text raw)) eqn:Hkw;
        [|now apply elem_of_nil in Hj].
      apply list_elem_of_singleton in Hj as ->.
      exists 0%nat, raw. rewrite Nat.add_0_r. auto.
    + destruct (IH (S t) Hj) as (i & raw' & Hi & Hkw & ->).
      exists (S i), raw'. split; [exact Hi |]. split; [exact Hkw |].
      do 2 f_equal. lia.
Qed.

(** What [search_serpapi] returns is what the provider listed for the
    request it makes. *)
Lemma search_serpapi_listed (q where_ : string) (w : world) :
  exists w',
    search_serpapi SERPAPI_KEY http_get q where_ w =
    (Ok (listed SERPAPI_KEY http_get (requests w) q where_), w') /\
    ticks w' = ticks w /\
    requests w' = (if PyStr.truthy SERPAPI_KEY then S (requests w) else requests w).
Proof.
  unfold search_serpapi, listed.
  destruct (PyStr.truthy SERPAPI_KEY); simpl.
  - fold (serpapi_params SERPAPI_KEY q where_). unfold bind, requests_get.
    destruct (http_get (requests w) (serpapi_params SERPAPI_KEY q where_));
      simpl; eexists; repeat split.
  - eexists. repeat split.
Qed.

Lemma listed_elem (n : nat) (q where_ : string) (raw : Raw.t) :
  raw ∈ listed SERPAPI_KEY http_get n q where_ ->
  PyStr.truthy SERPAPI_KEY = true /\
  exists answer,
    http_get n (serpapi_params SERPAPI_KEY q where_) = HttpJson (Some answer) /\
    raw ∈ answer.
Proof.
  unfold listed. destruct (PyStr.truthy SERPAPI_KEY);
    [|intros H; now apply elem_of_nil in H].
  destruct (http_get n (serpapi_params SERPAPI_KEY q where_)) as [e|[answer|]];
    simpl; intros H; try (now apply elem_of_nil in H).
  split; [reflexivity | now exists answer].
Qed.

Lemma listed_for_elem (where_ : string) (qs : list string) (n : nat) (raw : Raw.t) :
  raw ∈ listed_for SERPAPI_KEY http_get where_ qs n ->
  exists qi q answer,
    PyStr.truthy SERPAPI_KEY = true /\ qs !! qi = Some q /\
    http_get (n + qi) (serpapi_params SERPAPI_KEY q where_) = HttpJson (Some answer) /\
    raw ∈ answer.
Proof.
  revert n. induction qs as [|q qs IH]; intros n Hraw; simpl in Hraw.
  - now apply elem_of_nil in Hraw.
  - apply elem_of_app in Hraw as [Hraw|Hraw].
    + apply listed_elem in Hraw as (Hkey & answer & Hhttp & Hin).
      exists 0%nat, q, answer. rewrite Nat.add_0_r. auto.
    + destruct (IH (S n) Hraw) as (qi & q' & answer & Hkey & Hq & Hhttp & Hin).
      exists (S qi), q', answer. split; [exact Hkey |]. split; [exact Hq |].
      split; [|exact Hin]. now replace (n + S qi)%nat with (S n + qi)%nat by lia.
Qed.

(** A processed record was listed in the answer to the request made for
    its location and query, whose number follows from their places. *)
Lemma processed_from_elem (qs : list string) (locs : list Location.t) (n : nat)
      (raw : Raw.t) :
  raw ∈ processed_from SERPAPI_KEY http_get qs locs n ->
  exists li qi loc q where_ answer,
    PyStr.truthy SERPAPI_KEY = true /\
    locs !! li = Some loc /\ qs !! qi = Some q /\
    Location.search_string loc = Some where_ /\
    http_get (n + li * List.length qs + qi) (serpapi_params SERPAPI_KEY q where_)
    = HttpJson (Some answer) /\
    raw ∈ answer.
Proof.
  revert n. induction locs as [|loc locs IH]; intros n Hraw; simpl in Hraw.
  - now apply elem_of_nil in Hraw.
  - apply elem_of_app in Hraw as [Hraw|Hraw].
    + unfold listed_at in Hraw.
      destruct (Location.search_string loc) as [where_|] eqn:Hss;
        [|now apply elem_of_nil in Hraw].
      apply listed_for_elem in Hraw as (qi & q & answer & Hkey & Hq & Hhttp & Hin).
      exists 0%nat, qi, loc, q, where_, answer.
      simpl. rewrite Nat.add_0_r. auto 10.
    + destruct (IH _ Hraw) as (li & qi & loc' & q & where_ & answer
                               & Hkey & Hloc & Hq & Hss & Hhttp & Hin).
      exists (S li), qi, loc', q, where_, answer.
      split; [exact Hkey |].
      split; [exact Hloc |]. split; [exact Hq |]. split; [exact Hss |].
      split; [|exact Hin].
      now replace (n + S li * List.length qs + qi)%nat
        with (n + List.length qs + li * List.length qs + qi)%nat by lia.
Qed.

Lemma processed_from_without_key (qs : list string) (locs : list Location.t) (n : nat) :
  PyStr.truthy SERPAPI_KEY = false ->
  processed_from SERPAPI_KEY http_get qs locs n = [].
Proof.
  intros Hkey. destruct (processed_from SERPAPI_KEY http_get qs locs n)
    as [|raw rest] eqn:Hp; [reflexivity |].
  assert (raw ∈ processed_from SERPAPI_KEY http_get qs locs n) as Hraw
      by (rewrite Hp; now left).
  apply processed_from_elem in Hraw
    as (li & qi & loc & q & where_ & answer & Ht & _).
  congruence.
Qed.

(** The loop over the results of one request appends what the filter lets
    through, reading the clock once for each result. *)
Lemma results_loop_accumulates (results : list Raw.t) (s s' : scan) (w w' : world) :
  for_each results (scan_result CONFIG clock) s w = (Ok s', w') ->
  all_jobs s' = all_jobs s ++ accumulated CONFIG clock (ticks w) results /\
  ticks w' = (ticks w + List.length results)%nat /\
  requests w' = requests w.
Proof.
  revert s w. induction results as [|raw results IH]; intros s w Hrun.
  - simpl in Hrun. inversion Hrun; subst. simpl. rewrite app_nil_r.
    repeat split. lia.
  - simpl in Hrun.
    rewrite (bind_run _ _ _ _ _ (scan_result_run CONFIG clock raw s w)) in Hrun.
    apply IH in Hrun as (Hall & Hticks & Hreq). simpl in Hticks, Hreq.
    split; [|split; [simpl; lia | exact Hreq]].
    rewrite Hall. simpl.
    destruct (any_keyword CONFIG (combined_text raw)).
    + now rewrite record_job_all_jobs, <- app_assoc.
    + reflexivity.
Qed.

Lemma scan_query_accumulates (loc : Location.t) (q : string)
      (s s' : scan) (w w' : world) :
  scan_query CONFIG SERPAPI_KEY http_get clock loc q s w = (Ok s', w') ->
  exists where_,
    Location.search_string loc = Some where_ /\
    all_jobs s' =
    all_jobs s ++
    accumulated CONFIG clock (ticks w)
                (listed SERPAPI_KEY http_get (requests w) q where_) /\
    ticks w' =
    (ticks w + List.length (listed SERPAPI_KEY http_get (requests w) q where_))%nat /\
    requests w' = (if PyStr.truthy SERPAPI_KEY then S (requests w) else requests w).
Proof.
  intros Hrun. destruct (Location.search_string loc) as [where_|] eqn:Hss.
  2: { rewrite (scan_query_none _ _ _ _ loc q s w Hss) in Hrun. discriminate. }
  exists where_. split; [reflexivity |].
  rewrite (scan_query_some _ _ _ _ loc q where_ s w Hss) in Hrun.
  destruct (search_serpapi_listed q where_
              (print ("Searching: '" +:+ q +:+ "' in '" +:+ where_ +:+ "'") w).2)
    as (w1 & Hsearch & Hticks & Hreq).
  rewrite (bind_run _ _ _ _ _ Hsearch) in Hrun. unfold bind at 1 in Hrun.
  simpl in Hrun, Hticks, Hreq.
  apply results_loop_accumulates in Hrun as (Hall & Ht & Hr).
  simpl in Ht, Hr. rewrite Hticks in Hall, Ht. rewrite Hreq in Hr. auto.
Qed.

Lemma queries_loop_accumulates (loc : Location.t) (qs : list string)
      (s s' : scan) (w w' : world) :
  PyStr.truthy SERPAPI_KEY = true ->
  for_each qs (scan_query CONFIG SERPAPI_KEY http_get clock loc) s w = (Ok s', w') ->
  all_jobs s' =
  all_jobs s ++
  accumulated CONFIG clock (ticks w)
              (listed_at SERPAPI_KEY http_get qs loc (requests w)) /\
  ticks w' =
  (ticks w + List.length (listed_at SERPAPI_KEY http_get qs loc (requests w)))%nat /\
  requests w' = (requests w + List.length qs)%nat.
Proof.
  intros Hkey. revert s w. induction qs as [|q qs IH]; intros s w Hrun.
  - simpl in Hrun. inversion Hrun; subst. unfold listed_at.
    destruct (Location.search_string loc); simpl; rewrite app_nil_r;
      repeat split; lia.
  - simpl in Hrun. apply bind_Ok in Hrun as (s1 & w1 & Hq & Hrest).
    apply scan_query_accumulates in Hq as (where_ & Hss & Hall1 & Ht1 & Hr1).
    rewrite Hkey in Hr1.
    apply IH in Hrest as (Hall & Ht & Hr).
    unfold listed_at in *. rewrite Hss in *. simpl.
    rewrite accumulated_app, length_app, Hall, Hall1, Ht, Hr, Ht1, Hr1.
    rewrite <- app_assoc. repeat split; lia.
Qed.

Lemma locations_loop_accumulates (locs : list Location.t) (s s' : scan) (w w' : world) :
  PyStr.truthy SERPAPI_KEY = true ->
  for_each locs (scan_location CONFIG SERPAPI_KEY http_get clock) s w = (Ok s', w') ->
  all_jobs s' =
  all_jobs s ++
  accumulated CONFIG clock (ticks w)
    (processed_from SERPAPI_KEY http_get
                    (default [] (Config.search_queries CONFIG)) locs (requests w)) /\
  ticks w' =
  (ticks w +
   List.length (processed_from SERPAPI_KEY http_get
                  (default [] (Config.search_queries CONFIG)) locs (requests w)))%nat.
Proof.
  intros Hkey. revert s w. induction locs as [|loc locs IH]; intros s w Hrun.
  - simpl in Hrun. inversion Hrun; subst. simpl. rewrite app_nil_r. split; [auto | lia].
  - simpl in Hrun. apply bind_Ok in Hrun as (s1 & w1 & Hloc & Hrest).
    unfold scan_location in Hloc.
    apply (queries_loop_accumulates loc _ s s1 w w1 Hkey) in Hloc
      as (Hall1 & Ht1 & Hr1).
    apply IH in Hrest as (Hall & Ht). simpl.
    rewrite accumulated_app, length_app, Hall, Hall1, Ht, Ht1, Hr1.
    rewrite <- app_assoc. split; [reflexivity | lia].
Qed.

(** The list the search loop accumulates is the list of the processed
    records that pass the keyword filter, in processing order, each
    normalized at its own reading of the clock. *)
Lemma search_loop_accumulates (seen0 : gmap string string) (s : scan) (w w' : world) :
  search_loop CONFIG SERPAPI_KEY http_get clock seen0 w = (Ok s, w') ->
  all_jobs s =
  accumulated CONFIG clock (ticks w) (processed CONFIG SERPAPI_KEY http_get w) /\
  ticks w' =
  (ticks w + List.length (processed CONFIG SERPAPI_KEY http_get w))%nat.
Proof.
  intros Hrun. unfold processed.
  destruct (PyStr.truthy SERPAPI_KEY) eqn:Hkey.
  - unfold search_loop in Hrun.
    now apply (locations_loop_accumulates _ _ _ _ _ Hkey) in Hrun.
  - rewrite (processed_from_without_key _ _ _ Hkey).
    apply search_loop_without_key in Hrun as [-> Hticks];
      [|now apply truthy_false].
    simpl. split; [reflexivity | lia].
Qed.

(** Every returned record is the keyed form of a processed record that
    passed the filter, read at a clock reading of this run. *)
Lemma run_scan_provenance (w w' : world) (all new : list Job.t) :
  run_scan CONFIG SERPAPI_KEY http_get clock w = (Ok (all, new), w') ->
  forall j, j ∈ all \/ j ∈ new ->
    exists i raw,
      processed CONFIG SERPAPI_KEY http_get w !! i = Some raw /\
      any_keyword CONFIG (combined_text raw) = true /\
      j = keyed raw (clock (ticks w + i)) /\
      (ticks w + i < ticks w')%nat.
Proof.
  intros Hrun j Hj.
  apply run_scan_Ok in Hrun as (s & w1 & ids & Hloop & Hinv & Hd & -> & ->).
  apply search_loop_accumulates in Hloop as [Hall Hticks].
  assert (j ∈ all_jobs s) as Hin.
  { destruct Hj as [Hj|Hj].
    - now apply first_with_id_elem, (dd_first _ _ Hd).
    - destruct (inv_new _ _ Hinv j Hj) as (k & t & _ & _ & _ & _ & Hfirst).
      now apply first_with_id_elem. }
  rewrite Hall in Hin. apply accumulated_elem in Hin as (i & raw & Hi & Hkw & ->).
  exists i, raw. split; [exact Hi |]. split; [exact Hkw |].
  split; [reflexivity |]. simpl. rewrite Hticks.
  apply lookup_lt_Some in Hi. lia.
Qed.

End Provenance.

(** C3 (as amended). Within a run, the list the search loop accumulates
    is the list of the processed records that pass the keyword filter, in
    processing order. Accumulated records that share the identity tuple
    share the key, and the one record returned for that key is the first
    accumulated record with it: among the records that pass the filter,
    the first one processed wins for the fields outside the identity
    tuple. A record that the filter drops plays no part, wherever it
    stands. *)
Theorem first_kept_wins
  (CONFIG : Config.t) (SERPAPI_KEY : string)
  (http_get : nat -> list (string * string) -> http_outcome)
  (clock : nat -> instant) (w w' : world) (all new : list Job.t)
  (Hrun : run_scan CONFIG SERPAPI_KEY http_get clock w = (Ok (all, new), w')) :
  exists s w1,
    search_loop CONFIG SERPAPI_KEY http_get clock (seen_at_start w) w = (Ok s, w1) /\
    all_jobs s =
    accumulated CONFIG clock (ticks w) (processed CONFIG SERPAPI_KEY http_get w) /\
    forall j1 j2, j1 ∈ all_jobs s -> j2 ∈ all_jobs s -> same_identity j1 j2 ->
      exists j, j ∈ all /\ Job.id j = Job.id j1 /\ Job.id j = Job.id j2 /\
                first_with_id (all_jobs s) j /\
                (forall j', j' ∈ all -> Job.id j' = Job.id j -> j' = j).
Proof.
  apply run_scan_Ok in Hrun as (s & w1 & ids & Hloop & Hinv & Hd & _ & _).
  exists s, w1. split; [exact Hloop |].
  split; [exact (proj1 (search_loop_accumulates _ _ _ _ _ _ _ _ Hloop)) |].
  intros j1 j2 H1 H2 Hsame.
  destruct (inv_keyed _ _ Hinv j1 H1) as [Hid1 _].
  destruct (inv_keyed _ _ Hinv j2 H2) as [Hid2 _].
  pose proof (dd_complete _ _ Hd j1 H1) as Hin.
  apply list_elem_of_fmap in Hin as (j & Hjid & Hj).
  exists j. split; [exact Hj |]. split; [now symmetry |].
  split; [rewrite <- Hjid, Hid1, Hid2; f_equal; now apply job_id_ext |].
  split; [exact (dd_first _ _ Hd j Hj) |].
  intros j' Hj' Heq.
  exact (NoDup_fmap_eq Job.id all j' j (dd_nodup _ _ Hd) Hj' Hj Heq).
Qed.

Lemma first_kept_wins_witness :
  exists all new w',
    Sample.scan (Sample.boot NoFile) = (Ok (all, new), w') /\
    (Job.via <$> all) = [Some "LinkedIn"; Some "ZipRecruiter"] /\
    exists s w1,
      search_loop Sample.config "key" Sample.http Sample.clock
                  (seen_at_start (Sample.boot NoFile)) (Sample.boot NoFile)
      = (Ok s, w1) /\
      all_jobs s =
      accumulated Sample.config Sample.clock (ticks (Sample.boot NoFile))
                  (processed Sample.config "key" Sample.http (Sample.boot NoFile)) /\
      forall j1 j2, j1 ∈ all_jobs s -> j2 ∈ all_jobs s -> same_identity j1 j2 ->
        exists j, j ∈ all /\ Job.id j = Job.id j1 /\ Job.id j = Job.id j2 /\
                  first_with_id (all_jobs s) j /\
                  (forall j', j' ∈ all -> Job.id j' = Job.id j -> j' = j).
Proof.
  eexists _, _, _. split; [vm_compute; reflexivity |].
  split; [reflexivity |].
  eapply (first_kept_wins Sample.config "key" Sample.http Sample.clock
            (Sample.boot NoFile)).
  vm_compute. reflexivity.
Defined.

(** C3 as stated fails. In the sample run the provider lists the same
    posting three times; the record returned for it is the first one
    processed (via LinkedIn, read at tick 0), not the last one (via Indeed,
    read at tick 4). *)
Lemma last_processed_wins_counterexample :
  exists s w1 all new w',
    search_loop Sample.config "key" Sample.http Sample.clock ∅ (Sample.boot NoFile)
    = (Ok s, w1) /\
    Sample.scan (Sample.boot NoFile) = (Ok (all, new), w') /\
    exists kept last,
      kept ∈ all /\ last_with_id (all_jobs s) last /\
      same_identity kept last /\ Job.id kept = Job.id last /\
      Job.via kept = Some "LinkedIn" /\ Job.via last = Some "Indeed" /\
      ~ same_details kept last.
Proof.
  eexists _, _, _, _, _.
  split; [vm_compute; reflexivity |].
  split; [vm_compute; reflexivity |].
  exists (keyed Sample.icn_linkedin (Sample.clock 0)),
         (keyed Sample.icn_indeed (Sample.clock 4)).
  split; [vm_compute; left |].
  split.
  { exists [keyed Sample.icn_linkedin (Sample.clock 0);
            keyed Sample.icn_indeed (Sample.clock 2);
            keyed Sample.id_nurse (Sample.clock 3)], [].
    split; [vm_compute; reflexivity | apply not_elem_of_nil]. }
  split; [repeat split |].
  split; [reflexivity |].
  split; [reflexivity |]. split; [reflexivity |].
  intros (_ & _ & Hvia & _). discriminate Hvia.
Qed.

(** The first record processed for a key does not win when the filter
    drops it: of two listings with the same identity tuple, the first,
    which names no keyword, is dropped, and the run returns the second,
    read at the second reading of the clock. *)
Example first_processed_record_dropped :
  exists all new w',
    run_scan Cases.one_query_config "key" Cases.rn_http Sample.clock
             (Sample.boot NoFile) = (Ok (all, new), w') /\
    processed Cases.one_query_config "key" Cases.rn_http (Sample.boot NoFile)
    = [Cases.rn_plain; Cases.rn_infection] /\
    job_id (normalized Cases.rn_plain (Sample.clock 0))
    = job_id (normalized Cases.rn_infection (Sample.clock 1)) /\
    all = [keyed Cases.rn_infection (Sample.clock 1)] /\
    (Job.via <$> all) = [Some "SecondSource"].
Proof.
  eexists _, _, _. split; [vm_compute; reflexivity |].
  repeat split; vm_compute; reflexivity.
Qed.

(** X6. Every record a run returns, in either list, is what the scanner
    makes of a record it processed in this run: a result that the provider
    listed in its answer to one of the run's own requests, namely the
    request made for a configured location and query, whose number is
    given by their places in the two loops; normalized with the clock
    reading taken at the record's place in the processing order, a
    reading of this run; and matching a keyword. The scanner reports no
    posting of its own making and none that the filter refuses. *)
Theorem returned_jobs_were_fetched_and_match
  (CONFIG : Config.t) (SERPAPI_KEY : string)
  (http_get : nat -> list (string * string) -> http_outcome)
  (clock : nat -> instant) (w w' : world) (all new : list Job.t)
  (Hrun : run_scan CONFIG SERPAPI_KEY http_get clock w = (Ok (all, new), w')) :
  forall j, j ∈ all \/ j ∈ new ->
    exists i raw li qi loc q where_ answer,
      processed CONFIG SERPAPI_KEY http_get w !! i = Some raw /\
      j = Job.set_id (job_id (normalized raw (clock (ticks w + i)%nat)))
                     (normalized raw (clock (ticks w + i)%nat)) /\
      (ticks w + i < ticks w')%nat /\
      default [] (Config.locations CONFIG) !! li = Some loc /\
      default [] (Config.search_queries CONFIG) !! qi = Some q /\
      Location.search_string loc = Some where_ /\
      (requests w + li * List.length (default [] (Config.search_queries CONFIG)) + qi
       < requests w')%nat /\
      http_get
        (requests w + li * List.length (default [] (Config.search_queries CONFIG)) + qi)%nat
        (serpapi_params SERPAPI_KEY q where_) = HttpJson (Some answer) /\
      raw ∈ answer /\
      keyword_occurs (default [] (Config.keywords CONFIG))
        (default "Unknown" (Raw.title raw) +:+ " " +:+
         PyStr.slice_to 500 (default "" (Raw.description raw))).
Proof.
  intros j Hj.
  destruct (run_scan_provenance _ _ _ _ _ _ _ _ Hrun j Hj)
    as (i & raw & Hi & Hkw & -> & Htick).
  pose proof (list_elem_of_lookup_2 _ _ _ Hi) as Hraw.
  apply processed_from_elem in Hraw
    as (li & qi & loc & q & where_ & answer & Hkey & Hloc & Hq & Hss & Hhttp & Hin).
  exists i, raw, li, qi, loc, q, where_, answer.
  split; [exact Hi |]. split; [reflexivity |]. split; [exact Htick |].
  split; [exact Hloc |]. split; [exact Hq |]. split; [exact Hss |].
  split.
  { apply run_scan_Ok in Hrun as (s & w1 & ids & Hloop & _ & _ & _ & ->).
    apply search_loop_requests in Hloop. simpl. rewrite Hloop, Hkey.
    apply lookup_lt_Some in Hloc, Hq. nia. }
  split; [exact Hhttp |]. split; [exact Hin |].
  now apply any_keyword_spec.
Qed.

Lemma returned_jobs_were_fetched_and_match_witness :
  exists all new w',
    Sample.scan (Sample.boot NoFile) = (Ok (all, new), w') /\
    List.length all = 2%nat /\
    forall j, j ∈ all \/ j ∈ new ->
      exists i raw li qi loc q where_ answer,
        processed Sample.config "key" Sample.http (Sample.boot NoFile) !! i = Some raw /\
        j = Job.set_id (job_id (normalized raw (Sample.clock (0 + i)%nat)))
                       (normalized raw (Sample.clock (0 + i)%nat)) /\
        (0 + i < ticks w')%nat /\
        default [] (Config.locations Sample.config) !! li = Some loc /\
        default [] (Config.search_queries Sample.config) !! qi = Some q /\
        Location.search_string loc = Some where_ /\
        (0 + li * List.length (default [] (Config.search_queries Sample.config)) + qi
         < requests w')%nat /\
        Sample.http
          (0 + li * List.length (default [] (Config.search_queries Sample.config)) + qi)%nat
          (serpapi_params "key" q where_) = HttpJson (Some answer) /\
        raw ∈ answer /\
        keyword_occurs (default [] (Config.keywords Sample.config))
          (default "Unknown" (Raw.title raw) +:+ " " +:+
           PyStr.slice_to 500 (default "" (Raw.description raw))).
Proof.
  eexists _, _, _. split; [vm_compute; reflexivity |].
  split; [reflexivity |].
  eapply (returned_jobs_were_fetched_and_match Sample.config "key" Sample.http
            Sample.clock (Sample.boot NoFile)).
  vm_compute. reflexivity.
Defined.

(** X7. Every record a run returns, in either list, has all nine keys: a
    template may subscript any of them. Its snippet has at most 500
    characters, and its ["id"] is the 12-character key that [job_id]
    computes from the record itself. *)
Theorem returned_jobs_are_complete
  (CONFIG : Config.t) (SERPAPI_KEY : string)
  (http_get : nat -> list (string * string) -> http_outcome)
  (clock : nat -> instant) (w w' : world) (all new : list Job.t)
  (Hrun : run_scan CONFIG SERPAPI_KEY http_get clock w = (Ok (all, new), w')) :
  forall j, j ∈ all \/ j ∈ new ->
    exists title company location snippet extensions link via at_ key,
      j = Job.Make (Some title) (Some company) (Some location) (Some snippet)
                   (Some extensions) (Some link) (Some via) (Some at_)
                   (Some key) /\
      (String.length snippet <= 500)%nat /\
      key = job_id j /\ String.length key = 12%nat.
Proof.
  intros j Hj.
  destruct (run_scan_provenance _ _ _ _ _ _ _ _ Hrun j Hj)
    as (i & raw & _ & _ & -> & _).
  eexists _, _, _, _, _, _, _, _, _.
  split; [reflexivity |].
  split; [rewrite slice_to_length; lia |].
  split; [reflexivity | apply job_id_length].
Qed.

Lemma returned_jobs_are_complete_witness :
  exists all new w',
    Sample.scan (Sample.boot NoFile) = (Ok (all, new), w') /\
    forall j, j ∈ all \/ j ∈ new ->
      exists title company location snippet extensions link via at_ key,
        j = Job.Make (Some title) (Some company) (Some location) (Some snippet)
                     (Some extensions) (Some link) (Some via) (Some at_)
                     (Some key) /\
        (String.length snippet <= 500)%nat /\
        key = job_id j /\ String.length key = 12%nat.
Proof.
  eexists _, _, _. split; [vm_compute; reflexivity |].
  eapply (returned_jobs_are_complete Sample.config "key" Sample.http
            Sample.clock (Sample.boot NoFile)).
  vm_compute. reflexivity.
Defined.

(** X8. The returned [new_jobs] is exactly the part of the returned
    [all_jobs] whose keys the loaded mapping did not have: a record is in
    [new_jobs] if and only if it is in [all_jobs] and its key was not
    seen before the run. *)
Theorem new_jobs_exactly_unseen
  (CONFIG : Config.t) (SERPAPI_KEY : string)
  (http_get : nat -> list (string * string) -> http_outcome)
  (clock : nat -> instant) (w w' : world) (all new : list Job.t)
  (Hrun : run_scan CONFIG SERPAPI_KEY http_get clock w = (Ok (all, new), w')) :
  forall j, j ∈ new <->
            j ∈ all /\ exists k, Job.id j = Some k /\ seen_at_start w !! k = None.
Proof.
  apply run_scan_Ok in Hrun as (s & w1 & ids & Hloop & Hinv & Hd & -> & _).
  intros j. split.
  - intros Hj.
    destruct (inv_new _ _ Hinv j Hj) as (k & t & Hid & Hk0 & _ & _ & Hfirst).
    split; [now apply (dd_firsts_kept _ _ Hd) | eauto].
  - intros (Hj & k & Hid & Hk0).
    pose proof (dd_first _ _ Hd j Hj) as Hfirst.
    pose proof (inv_new_complete _ _ Hinv j k (first_with_id_elem _ _ Hfirst)
                  Hid Hk0) as Hin.
    apply list_elem_of_fmap in Hin as (j' & Hid' & Hj').
    destruct (inv_new _ _ Hinv j' Hj') as (_ & _ & _ & _ & _ & _ & Hfirst').
    assert (j' ∈ all) as Hall' by now apply (dd_firsts_kept _ _ Hd).
    assert (j' = j) as <-; [|exact Hj'].
    apply (NoDup_fmap_eq Job.id all j' j (dd_nodup _ _ Hd) Hall' Hj).
    congruence.
Qed.

Lemma new_jobs_exactly_unseen_witness :
  exists all new w',
    Sample.scan Cases.one_seen = (Ok (all, new), w') /\
    List.length all = 2%nat /\ List.length new = 1%nat /\
    forall j, j ∈ new <->
              j ∈ all /\
              exists k, Job.id j = Some k /\ seen_at_start Cases.one_seen !! k = None.
Proof.
  eexists _, _, _. split; [vm_compute; reflexivity |].
  split; [reflexivity |]. split; [reflexivity |].
  eapply (new_jobs_exactly_unseen Sample.config "key" Sample.http Sample.clock
            Cases.one_seen).
  vm_compute. reflexivity.
Defined.

(** X9. The keys of the mapping a run writes back are exactly the keys it
    loaded together with the keys of the returned [all_jobs]: every
    posting reported in this run counts as seen in the next one. *)
Theorem saved_keys_are_loaded_and_reported
  (CONFIG : Config.t) (SERPAPI_KEY : string)
  (http_get : nat -> list (string * string) -> http_outcome)
  (clock : nat -> instant) (w w' : world) (all new : list Job.t)
  (Hrun : run_scan CONFIG SERPAPI_KEY http_get clock w = (Ok (all, new), w')) :
  exists seen1,
    seen_json w' = Stored seen1 /\
    forall k, is_Some (seen1 !! k) <->
              is_Some (seen_at_start w !! k) \/ Some k ∈ (Job.id <$> all).
Proof.
  apply run_scan_Ok in Hrun as (s & w1 & ids & Hloop & Hinv & Hd & -> & ->).
  exists (seen s). split; [reflexivity |].
  intros k. split.
  - intros [t Ht]. destruct (seen_at_start w !! k) as [t0|] eqn:H0; [left; eauto |].
    right. destruct (inv_added _ _ Hinv k t H0 Ht) as (j & Hj & Hid & _).
    destruct (inv_new _ _ Hinv j Hj) as (_ & _ & _ & _ & _ & _ & Hfirst).
    rewrite <- Hid. apply list_elem_of_fmap_2. now apply (dd_firsts_kept _ _ Hd).
  - intros [[t Ht]|Hin].
    + exists t. now apply (inv_old _ _ Hinv).
    + apply list_elem_of_fmap in Hin as (j & Hid & Hj).
      apply (dd_first _ _ Hd), first_with_id_elem in Hj.
      destruct (inv_keyed _ _ Hinv j Hj) as [Hkey Hsome].
      assert (k = job_id j) as -> by congruence. exact Hsome.
Qed.

Lemma saved_keys_are_loaded_and_reported_witness :
  exists all new w',
    Sample.scan Cases.one_seen = (Ok (all, new), w') /\
    exists seen1,
      seen_json w' = Stored seen1 /\
      forall k, is_Some (seen1 !! k) <->
                is_Some (seen_at_start Cases.one_seen !! k) \/
                Some k ∈ (Job.id <$> all).
Proof.
  eexists _, _, _. split; [vm_compute; reflexivity |].
  eapply (saved_keys_are_loaded_and_reported Sample.config "key" Sample.http
            Sample.clock Cases.one_seen).
  vm_compute. reflexivity.
Defined.

(* ===================================================================== *)
(** ** More about the keyword filter and the identity key                 *)
(* ===================================================================== *)

Section SubstringFacts.

Lemma str_app_assoc (a b c : string) : (a +:+ b) +:+ c = a +:+ (b +:+ c).
Proof. induction a as [|x a IH]; simpl; [reflexivity | now rewrite IH]. Qed.

Lemma lower_app (a b : string) :
  PyStr.lower (a +:+ b) = PyStr.lower a +:+ PyStr.lower b.
Proof. induction a as [|x a IH]; simpl; [reflexivity | now rewrite IH]. Qed.

Lemma is_substring_app_l (n a b : string) :
  is_substring n a -> is_substring n (a +:+ b).
Proof.
  intros (pre & post & ->). exists pre, (post +:+ b).
  now rewrite !str_app_assoc.
Qed.

Lemma is_substring_app_r (n a b : string) :
  is_substring n b -> is_substring n (a +:+ b).
Proof.
  intros (pre & post & ->). exists (a +:+ pre), post.
  now rewrite !str_app_assoc.
Qed.

Lemma is_substring_empty (hay : string) : is_substring "" hay.
Proof. exists "", hay. reflexivity. Qed.

End SubstringFacts.

(** X10. For a configured keyword, an occurrence (in any letter case) in
    the title of the normalized record, or in its description snippet, is
    enough for the search loop to keep the record; and a configured empty
    keyword keeps every record. *)
Theorem keyword_in_title_or_snippet_is_kept
  (CONFIG : Config.t) (clock : nat -> instant) (raw : Raw.t) (s : scan) (w : world)
  (kw : string)
  (Hconfigured : kw ∈ default [] (Config.keywords CONFIG)) :
  (is_substring (PyStr.lower kw)
                (PyStr.lower (default "Unknown" (Raw.title raw))) ->
   retains CONFIG clock raw s w) /\
  (is_substring (PyStr.lower kw)
                (PyStr.lower (PyStr.slice_to 500 (default "" (Raw.description raw)))) ->
   retains CONFIG clock raw s w) /\
  (kw = "" -> retains CONFIG clock raw s w).
Proof.
  assert (forall text,
             is_substring (PyStr.lower kw) (PyStr.lower text) ->
             keyword_occurs (default [] (Config.keywords CONFIG)) text) as Hocc
      by (intros text Hsub; now exists kw).
  repeat split; intros H; apply retains_iff; unfold combined_text;
    apply any_keyword_spec, Hocc; rewrite !lower_app.
  - now apply is_substring_app_l.
  - now apply is_substring_app_r, is_substring_app_r.
  - subst kw. apply is_substring_empty.
Qed.

Lemma keyword_in_title_or_snippet_is_kept_witness :
  retains Sample.config Sample.clock Sample.id_nurse (Scan ∅ [] [])
          (Sample.boot NoFile).
Proof.
  apply (proj1 (keyword_in_title_or_snippet_is_kept Sample.config Sample.clock
                  Sample.id_nurse (Scan ∅ [] []) (Sample.boot NoFile)
                  "infectious disease"
                  ltac:(simpl; right; left))).
  exists "", " rn". reflexivity.
Defined.

(** X11. The verdict of the keyword filter depends on nothing but the
    title (or "Unknown") and the first 500 characters of the description:
    two results that agree on these are both kept or both dropped, at any
    time and in any state of the run. What a description says after its
    500th character is never searched. *)
Theorem filter_reads_title_and_snippet_only
  (CONFIG : Config.t) (clock1 clock2 : nat -> instant)
  (raw1 raw2 : Raw.t) (s1 s2 : scan) (w1 w2 : world)
  (Htitle : default "Unknown" (Raw.title raw1) = default "Unknown" (Raw.title raw2))
  (Hsnippet : PyStr.slice_to 500 (default "" (Raw.description raw1)) =
              PyStr.slice_to 500 (default "" (Raw.description raw2))) :
  retains CONFIG clock1 raw1 s1 w1 <-> retains CONFIG clock2 raw2 s2 w2.
Proof.
  rewrite !retains_iff. unfold combined_text. now rewrite Htitle, Hsnippet.
Qed.

Lemma filter_reads_title_and_snippet_only_witness :
  (retains Sample.config Sample.clock Cases.buried_keyword (Scan ∅ [] [])
           (Sample.boot NoFile) <->
   retains Sample.config Sample.clock Cases.no_keyword (Scan ∅ [] [])
           (Sample.boot NoFile)) /\
  ~ retains Sample.config Sample.clock Cases.no_keyword (Scan ∅ [] [])
            (Sample.boot NoFile).
Proof.
  split.
  - apply (filter_reads_title_and_snippet_only Sample.config Sample.clock
             Sample.clock Cases.buried_keyword Cases.no_keyword).
    + reflexivity.
    + vm_compute. reflexivity.
  - rewrite retains_iff. vm_compute. discriminate.
Defined.

(** X12. The text that [job_id] hashes joins the three fields with "-" and
    cannot tell where a field ends: moving a "-"-separated tail of the
    title to the front of the company name, or of the company name to the
    front of the location, gives the same key, so such postings count as
    one. *)
Theorem job_id_separator_collision
  (a b c l : string)
  (snippet link via at_ snippet' link' via' at_' : option string)
  (ext ext' : option (list (string * json))) (i i' : option string) :
  job_id (Job.Make (Some (a +:+ "-" +:+ b)) (Some c) (Some l)
                   snippet ext link via at_ i) =
  job_id (Job.Make (Some a) (Some (b +:+ "-" +:+ c)) (Some l)
                   snippet' ext' link' via' at_' i') /\
  job_id (Job.Make (Some a) (Some (b +:+ "-" +:+ c)) (Some l)
                   snippet ext link via at_ i) =
  job_id (Job.Make (Some a) (Some b) (Some (c +:+ "-" +:+ l))
                   snippet' ext' link' via' at_' i').
Proof.
  split; rewrite !job_id_eq; do 3 f_equal; unfold identity_text;
    cbn [Job.title Job.company_name Job.location default from_option id];
    now rewrite !str_app_assoc.
Qed.

(* ===================================================================== *)
(** ** More about deduplication                                           *)
(* ===================================================================== *)

Section DedupDistinct.

Lemma dedup_loop_distinct (l : list Job.t) :
  forall (ids : gset string) (out : list Job.t) (w : world),
    NoDup (Job.id <$> l) ->
    (forall j, j ∈ l -> exists k, Job.id j = Some k /\ k ∉ ids) ->
    exists ids',
      for_each l dedup_step (ids, out) w = (Ok (ids', out ++ l), w) /\
      forall k, k ∈ ids' <-> k ∈ ids \/ Some k ∈ (Job.id <$> l).
Proof.
  induction l as [|j l IH]; intros ids out w Hnd Hfresh.
  - exists ids. split; [simpl; now rewrite app_nil_r |].
    intros k. simpl. rewrite elem_of_nil. tauto.
  - destruct (Hfresh j) as (k & Hk & Hnotin); [now left |].
    rewrite fmap_cons in Hnd. apply NoDup_cons in Hnd as [Hj Hnd].
    destruct (IH ({[k]} ∪ ids) (out ++ [j]) w Hnd) as (ids' & Hrun & Hids').
    { intros x Hx. destruct (Hfresh x) as (kx & Hkx & Hxnotin); [now right |].
      exists kx. split; [exact Hkx |].
      intros Hin. apply elem_of_union in Hin as [Hin|Hin]; [|contradiction].
      apply elem_of_singleton in Hin. subst kx.
      apply Hj. rewrite Hk, <- Hkx. now apply list_elem_of_fmap_2. }
    exists ids'. split.
    + simpl. rewrite (bind_run _ _ _ _ _ (dedup_step_run j k (ids, out) w Hk)).
      simpl. destruct (decide (k ∈ ids)); [contradiction |].
      rewrite Hrun. now rewrite <- app_assoc.
    + intros k'. rewrite Hids', fmap_cons, elem_of_cons, elem_of_union,
                         elem_of_singleton, Hk.
      split; [intros [[->|H]|H] | intros [H|[H|H]]]; auto.
      inversion H. auto.
Qed.

End DedupDistinct.

(** X13. The deduplication loop returns a list whose records have pairwise
    distinct keys as it is: nothing is dropped or reordered, and the set
    collected holds exactly its keys. *)
Theorem dedup_keeps_distinct_list
  (l : list Job.t) (w : world)
  (Hdistinct : NoDup (Job.id <$> l))
  (Hkeyed : forall j, j ∈ l -> is_Some (Job.id j)) :
  exists ids,
    for_each l dedup_step (∅, []) w = (Ok (ids, l), w) /\
    forall k, k ∈ ids <-> Some k ∈ (Job.id <$> l).
Proof.
  destruct (dedup_loop_distinct l ∅ [] w Hdistinct) as (ids & Hrun & Hids).
  - intros j Hj. destruct (Hkeyed j Hj) as [k Hk]. exists k. split; [exact Hk |].
    apply not_elem_of_empty.
  - exists ids. split; [exact Hrun |].
    intros k. rewrite Hids. split; [intros [H|H]; [|exact H] | auto].
    now apply not_elem_of_empty in H.
Qed.

Lemma dedup_keeps_distinct_list_witness :
  exists ids,
    for_each [keyed Sample.icn_linkedin (Sample.clock 0);
              keyed Sample.id_nurse (Sample.clock 1)]
             dedup_step (∅, []) (Sample.boot NoFile)
    = (Ok (ids, [keyed Sample.icn_linkedin (Sample.clock 0);
                 keyed Sample.id_nurse (Sample.clock 1)]), Sample.boot NoFile) /\
    forall k, k ∈ ids <->
              Some k ∈ (Job.id <$> [keyed Sample.icn_linkedin (Sample.clock 0);
                                    keyed Sample.id_nurse (Sample.clock 1)]).
Proof.
  apply (dedup_keeps_distinct_list
           [keyed Sample.icn_linkedin (Sample.clock 0);
            keyed Sample.id_nurse (Sample.clock 1)] (Sample.boot NoFile)).
  - vm_compute. apply NoDup_cons. split.
    + intros Hin. apply list_elem_of_singleton in Hin. discriminate.
    + apply NoDup_singleton.
  - intros j Hj. apply elem_of_cons in Hj as [->|Hj]; [now eexists |].
    apply list_elem_of_singleton in Hj as ->. now eexists.
Defined.

(** X14. The last filter of [run_scan] (its comprehension over [new_jobs])
    never removes anything, and its subscripts never fail: the returned
    [new_jobs] is the list the search loop accumulated, and the returned
    [all_jobs] is no longer than the accumulated one. *)
Theorem run_scan_final_filter_is_identity
  (CONFIG : Config.t) (SERPAPI_KEY : string)
  (http_get : nat -> list (string * string) -> http_outcome)
  (clock : nat -> instant) (w w' : world) (all new : list Job.t)
  (Hrun : run_scan CONFIG SERPAPI_KEY http_get clock w = (Ok (all, new), w')) :
  exists s w1,
    search_loop CONFIG SERPAPI_KEY http_get clock (seen_at_start w) w = (Ok s, w1) /\
    new = new_jobs s /\
    (List.length new <= List.length all <= List.length (all_jobs s))%nat.
Proof.
  pose proof Hrun as Hrun'.
  apply run_scan_Ok in Hrun as (s & w1 & ids & Hloop & Hinv & Hd & -> & _).
  exists s, w1. split; [exact Hloop |]. split; [reflexivity |].
  split; [|exact (sublist_length _ _ (dd_sublist _ _ Hd))].
  apply submseteq_length, NoDup_submseteq.
  - apply (NoDup_fmap_1 Job.id), (inv_new_nodup _ _ Hinv).
  - intros j Hj.
    destruct (inv_new _ _ Hinv j Hj) as (_ & _ & _ & _ & _ & _ & Hfirst).
    now apply (dd_firsts_kept _ _ Hd).
Qed.

Lemma run_scan_final_filter_is_identity_witness :
  exists all new w',
    Sample.scan Cases.one_seen = (Ok (all, new), w') /\
    exists s w1,
      search_loop Sample.config "key" Sample.http Sample.clock
                  (seen_at_start Cases.one_seen) Cases.one_seen = (Ok s, w1) /\
      new = new_jobs s /\
      (List.length new <= List.length all <= List.length (all_jobs s))%nat.
Proof.
  eexists _, _, _. split; [vm_compute; reflexivity |].
  eapply (run_scan_final_filter_is_identity Sample.config "key" Sample.http
            Sample.clock Cases.one_seen).
  vm_compute. reflexivity.
Defined.

(* ===================================================================== *)
(** ** More about the notifier                                            *)
(* ===================================================================== *)

Section SendEmail.

Variable environ : gmap string string.
Variable smtp_outcome : nat -> option string.

Lemma mail_configured_andb :
  mail_configured environ <->
  PyStr.truthy (environ_get environ "SMTP_USER" "") &&
  PyStr.truthy (environ_get environ "SMTP_PASS" "") &&
  PyStr.truthy (environ_get environ "EMAIL_TO" "") = true.
Proof.
  unfold mail_configured. rewrite !andb_true_iff. tauto.
Qed.

(** With a valid port and complete settings [send_email] returns, after
    exactly one session, whatever becomes of the session. *)
Lemma send_email_sends (html : string) (n : nat) (w : world) (port : Z) :
  PyStr.int_of_str (environ_get environ "SMTP_PORT" "587") = Some port ->
  mail_configured environ ->
  exists w' session,
    send_email environ smtp_outcome html n w = (Ok tt, w') /\
    sessions w' = sessions w ++ [session] /\
    seen_json w' = seen_json w /\ index_html w' = index_html w /\
    smtp_host session = environ_get environ "SMTP_SERVER" "smtp.gmail.com" /\
    smtp_port_no session = port /\
    smtp_login session = (environ_get environ "SMTP_USER" "",
                          environ_get environ "SMTP_PASS" "") /\
    smtp_rcpt session = PyStr.split_comma (environ_get environ "EMAIL_TO" "") /\
    smtp_msg session = Message (subject_for n)
                               (environ_get environ "SMTP_USER" "")
                               (environ_get environ "EMAIL_TO" "") html /\
    stdout w' = stdout w ++
      [match smtp_outcome (List.length (sessions w)) with
       | None => "Email sent to " +:+ environ_get environ "EMAIL_TO" ""
       | Some e => "[ERROR] Failed to send email: " +:+ e
       end].
Proof.
  intros Hport Hcfg. apply mail_configured_andb in Hcfg.
  unfold send_email. rewrite Hport, Hcfg. cbn [negb].
  unfold bind, smtp_session_run.
  destruct (smtp_outcome (List.length (sessions w))); eexists _, _;
    (split; [reflexivity |]); repeat split.
Qed.

(** In every case [send_email] leaves the two files alone and attempts at
    most one session; it attempts one only with a valid port and complete
    settings. *)
Lemma send_email_cases (html : string) (n : nat) (w : world) :
  seen_json (send_email environ smtp_outcome html n w).2 = seen_json w /\
  index_html (send_email environ smtp_outcome html n w).2 = index_html w /\
  (sessions (send_email environ smtp_outcome html n w).2 = sessions w \/
   (mail_configured environ /\
    is_Some (PyStr.int_of_str (environ_get environ "SMTP_PORT" "587")) /\
    exists session,
      sessions (send_email environ smtp_outcome html n w).2
      = sessions w ++ [session] /\
      msg_subject (smtp_msg session) = subject_for n /\
      msg_html (smtp_msg session) = html /\
      smtp_rcpt session = PyStr.split_comma (environ_get environ "EMAIL_TO" ""))).
Proof.
  destruct (PyStr.int_of_str (environ_get environ "SMTP_PORT" "587"))
    as [port|] eqn:Hport.
  - destruct (PyStr.truthy (environ_get environ "SMTP_USER" "") &&
              PyStr.truthy (environ_get environ "SMTP_PASS" "") &&
              PyStr.truthy (environ_get environ "EMAIL_TO" "")) eqn:Hcfg.
    + apply mail_configured_andb in Hcfg.
      destruct (send_email_sends html n w port Hport Hcfg)
        as (w' & session & Hrun & Hs & Hseen & Hindex & _ & _ & _ & Hrcpt & Hmsg & _).
      rewrite Hrun. simpl.
      split; [exact Hseen |]. split; [exact Hindex |].
      right. split; [exact Hcfg |]. split; [now exists port |].
      exists session. rewrite Hmsg. auto.
    + rewrite (send_email_unconfigured environ smtp_outcome html n w port Hport Hcfg).
      split; [reflexivity |]. split; [reflexivity |]. now left.
  - rewrite (send_email_bad_port environ smtp_outcome html n w Hport).
    split; [reflexivity |]. split; [reflexivity |]. now left.
Qed.

End SendEmail.

(** X15. With SMTP_PORT absent or a string that [int] accepts (a base-ten
    integer literal of at most 4300 digits) and the three mail variables
    set, [send_email] never raises: it attempts exactly one session, to the
    host SMTP_SERVER (default smtp.gmail.com) and the port given (default
    587), addressed to the comma-separated parts of EMAIL_TO, with a
    Subject that says "posting" for one new posting and "postings" for any
    other number, zero included; and a session that fails only adds an
    error line to the output. *)
Theorem send_email_attempts_one_session
  (environ : gmap string string) (smtp_outcome : nat -> option string)
  (html : string) (n : nat) (w : world) (port : Z)
  (Hport : PyStr.int_of_str (environ_get environ "SMTP_PORT" "587") = Some port)
  (Hmail : mail_configured environ) :
  exists w' session,
    send_email environ smtp_outcome html n w = (Ok tt, w') /\
    sessions w' = sessions w ++ [session] /\
    seen_json w' = seen_json w /\ index_html w' = index_html w /\
    smtp_host session = default "smtp.gmail.com" (environ !! "SMTP_SERVER") /\
    smtp_port_no session = port /\
    (environ !! "SMTP_PORT" = None -> port = 587) /\
    smtp_rcpt session = PyStr.split_comma (environ_get environ "EMAIL_TO" "") /\
    msg_html (smtp_msg session) = html /\
    msg_subject (smtp_msg session) =
      "GA Nurse Jobs: " +:+ PyStr.str_of_nat n +:+
      (if Nat.eqb n 1 then " new posting" else " new postings") /\
    (forall e, smtp_outcome (List.length (sessions w)) = Some e ->
               stdout w' = stdout w ++ ["[ERROR] Failed to send email: " +:+ e]).
Proof.
  destruct (send_email_sends environ smtp_outcome html n w port Hport Hmail)
    as (w' & session & Hrun & Hs & Hseen & Hindex & Hhost & Hp & _ & Hrcpt
        & Hmsg & Hout).
  exists w', session. repeat split; auto.
  - intros Hunset. unfold environ_get in Hport. rewrite Hunset in Hport.
    simpl in Hport. vm_compute in Hport. congruence.
  - now rewrite Hmsg.
  - rewrite Hmsg. unfold subject_for. simpl.
    destruct (Nat.eqb n 1); reflexivity.
  - intros e He. now rewrite Hout, He.
Qed.

Lemma send_email_attempts_one_session_witness :
  exists w' session,
    send_email Sample.mail_environ (fun _ => Some "connection refused")
               "email.html" 0 (Sample.boot NoFile) = (Ok tt, w') /\
    sessions w' = [session] /\
    msg_subject (smtp_msg session) = "GA Nurse Jobs: 0 new postings" /\
    smtp_rcpt session = ["nurse@example.org"; "backup@example.org"] /\
    stdout w' = ["[ERROR] Failed to send email: connection refused"].
Proof.
  destruct (send_email_attempts_one_session Sample.mail_environ
              (fun _ => Some "connection refused") "email.html" 0
              (Sample.boot NoFile) 587)
    as (w' & session & Hrun & Hs & _ & _ & _ & _ & _ & Hrcpt & _ & Hsubj & Hout).
  - reflexivity.
  - repeat split; reflexivity.
  - exists w', session. split; [exact Hrun |]. split; [exact Hs |].
    split; [exact Hsubj |]. split; [exact Hrcpt |].
    exact (Hout "connection refused" eq_refl).
Defined.

(* ===================================================================== *)
(** ** The report and the whole program                                   *)
(* ===================================================================== *)

Section Report.

Variable CONFIG : Config.t.
Variable clock : nat -> instant.
Variable get_template : string -> result template.

Lemma render_html_cases (all new : list Job.t) (w : world) :
  seen_json (render_html CONFIG clock get_template all new w).2 = seen_json w /\
  sessions (render_html CONFIG clock get_template all new w).2 = sessions w /\
  requests (render_html CONFIG clock get_template all new w).2 = requests w /\
  ((exists e,
       (render_html CONFIG clock get_template all new w).1 = Raise e /\
       index_html (render_html CONFIG clock get_template all new w).2 = index_html w /\
       stdout (render_html CONFIG clock get_template all new w).2 = stdout w) \/
   (exists tmpl args html,
       get_template "index.html" = Ok tmpl /\ tmpl args = Ok html /\
       (render_html CONFIG clock get_template all new w).1 = Ok tt /\
       index_html (render_html CONFIG clock get_template all new w).2 = Some html /\
       stdout (render_html CONFIG clock get_template all new w).2 =
       stdout w ++ ["Wrote docs/index.html with " +:+
                    PyStr.str_of_nat (List.length all) +:+ " jobs (" +:+
                    PyStr.str_of_nat (List.length new) +:+ " new)"])).
Proof.
  unfold render_html, bind, lift, datetime_now, write_index, print.
  destruct (get_template "index.html") as [tmpl|e] eqn:Hget; simpl.
  - match goal with |- context [tmpl ?a] => destruct (tmpl a) as [html|e] eqn:Hr end;
      simpl; repeat split; eauto 10.
  - repeat split; eauto.
Qed.


Lemma render_email_keeps_outside (all new : list Job.t) :
  keeps outside (render_email CONFIG clock get_template all new).
Proof.
  intros w. unfold render_email, bind, lift, datetime_now.
  destruct (get_template "email.html") as [tmpl|e]; reflexivity.
Qed.

End Report.



Section Main.

Variable CONFIG : Config.t.
Variable SERPAPI_KEY : string.
Variable environ : gmap string string.
Variable http_get : nat -> list (string * string) -> http_outcome.
Variable clock : nat -> instant.
Variable get_template : string -> result template.
Variable smtp_outcome : nat -> option string.

(** What [notify] can do: never touch the files; attempt at most one
    session, and one only if e-mail is enabled, there is something new or
    sending is forced, and the settings are complete. *)
Lemma notify_cases (all new : list Job.t) (w : world) :
  seen_json (notify CONFIG environ clock get_template smtp_outcome all new w).2
  = seen_json w /\
  index_html (notify CONFIG environ clock get_template smtp_outcome all new w).2
  = index_html w /\
  (sessions (notify CONFIG environ clock get_template smtp_outcome all new w).2
   = sessions w \/
   (Config.email_enabled CONFIG <> Some false /\
    (new <> [] \/ force_email environ = true) /\
    mail_configured environ /\
    is_Some (PyStr.int_of_str (environ_get environ "SMTP_PORT" "587")) /\
    exists html session,
      sessions (notify CONFIG environ clock get_template smtp_outcome all new w).2
      = sessions w ++ [session] /\
      msg_subject (smtp_msg session) = subject_for (List.length new) /\
      msg_html (smtp_msg session) = html /\
      smtp_rcpt session = PyStr.split_comma (environ_get environ "EMAIL_TO" ""))).
Proof.
  unfold notify.
  destruct (default true (Config.email_enabled CONFIG)) eqn:Hen;
    [|split; [reflexivity |]; split; [reflexivity |]; now left].
  assert (Config.email_enabled CONFIG <> Some false) as Henabled
      by (intros Heq; rewrite Heq in Hen; discriminate).
  pose proof (render_email_keeps_outside CONFIG clock get_template all new w)
    as Hkeep.
  unfold bind.
  destruct (render_email CONFIG clock get_template all new w) as [[html|e] w1];
    simpl in Hkeep; unfold outside in Hkeep;
    injection Hkeep as Hseen Hindex Hsess;
    [|simpl; split; [exact Hseen |]; split; [exact Hindex |]; now left].
  destruct (negb (is_nil new) || force_email environ) eqn:Hgate;
    [|simpl; split; [exact Hseen |]; split; [exact Hindex |]; now left].
  destruct (send_email_cases environ smtp_outcome html (List.length new) w1)
    as (Hs1 & Hs2 & Hs3).
  rewrite Hs1, Hs2, Hseen, Hindex.
  split; [reflexivity |]. split; [reflexivity |].
  destruct Hs3 as [Hsame|(Hcfg & Hport & session & Hsent & Hsubj & Hhtml & Hrcpt)].
  - left. now rewrite Hsame.
  - right. split; [exact Henabled |]. split.
    + destruct new; [right; exact Hgate | left; discriminate].
    + split; [exact Hcfg |]. split; [exact Hport |].
      exists html, session. rewrite Hsent, Hsess. auto.
Qed.

Lemma main_eq (w : world) :
  main CONFIG SERPAPI_KEY environ http_get clock get_template smtp_outcome w =
  bind (run_scan CONFIG SERPAPI_KEY http_get clock)
       (fun scanned =>
          let '(all, new) := scanned in
          bind (render_html CONFIG clock get_template all new)
               (fun _ =>
                  bind (notify CONFIG environ clock get_template smtp_outcome
                               all new)
                       (fun _ => print "Done.")))
       (banner clock w).
Proof. reflexivity. Qed.

End Main.

Section MainEffects.

Variable CONFIG : Config.t.
Variable SERPAPI_KEY : string.
Variable environ : gmap string string.
Variable http_get : nat -> list (string * string) -> http_outcome.
Variable clock : nat -> instant.
Variable get_template : string -> result template.
Variable smtp_outcome : nat -> option string.

Lemma run_scan_Ok_outside (w w' : world) (all new : list Job.t) :
  run_scan CONFIG SERPAPI_KEY http_get clock w = (Ok (all, new), w') ->
  index_html w' = index_html w /\ sessions w' = sessions w /\
  exists seen1, seen_json w' = Stored seen1.
Proof.
  intros Hrun.
  apply run_scan_Ok in Hrun as (s & w1 & ids & Hloop & _ & _ & _ & ->).
  pose proof (search_loop_keeps_outside CONFIG SERPAPI_KEY http_get clock
                (seen_at_start w) w) as Hkeep.
  rewrite Hloop in Hkeep. unfold outside in Hkeep. simpl in Hkeep.
  injection Hkeep as _ Hindex Hsess. simpl. eauto.
Qed.


Lemma main_scan_Ok (w w1 : world) (all new : list Job.t) :
  run_scan CONFIG SERPAPI_KEY http_get clock (banner clock w) = (Ok (all, new), w1) ->
  main CONFIG SERPAPI_KEY environ http_get clock get_template smtp_outcome w
  = bind (render_html CONFIG clock get_template all new)
         (fun _ => bind (notify CONFIG environ clock get_template smtp_outcome
                                all new)
                        (fun _ => print "Done.")) w1.
Proof. intros Hrun. rewrite main_eq. unfold bind at 1. now rewrite Hrun. Qed.


Lemma main_render_Ok (w w1 w2 : world) (all new : list Job.t) :
  run_scan CONFIG SERPAPI_KEY http_get clock (banner clock w) = (Ok (all, new), w1) ->
  render_html CONFIG clock get_template all new w1 = (Ok tt, w2) ->
  main CONFIG SERPAPI_KEY environ http_get clock get_template smtp_outcome w
  = bind (notify CONFIG environ clock get_template smtp_outcome all new)
         (fun _ => print "Done.") w2.
Proof.
  intros Hscan Hrender. rewrite (main_scan_Ok w w1 all new Hscan).
  unfold bind at 1. now rewrite Hrender.
Qed.

(** After [render_html] has returned, the rest of [main] leaves both files
    as they are and attempts the sessions of [notify]. *)
Lemma main_tail (all new : list Job.t) (w2 : world) :
  seen_json (bind (notify CONFIG environ clock get_template smtp_outcome all new)
                  (fun _ => print "Done.") w2).2 = seen_json w2 /\
  index_html (bind (notify CONFIG environ clock get_template smtp_outcome all new)
                   (fun _ => print "Done.") w2).2 = index_html w2 /\
  sessions (bind (notify CONFIG environ clock get_template smtp_outcome all new)
                 (fun _ => print "Done.") w2).2
  = sessions (notify CONFIG environ clock get_template smtp_outcome all new w2).2.
Proof.
  destruct (notify_cases CONFIG environ clock get_template smtp_outcome all new w2)
    as (Hseen & Hindex & _).
  unfold bind.
  destruct (notify CONFIG environ clock get_template smtp_outcome all new w2)
    as [[[]|e] w3]; simpl in *; auto.
Qed.


End MainEffects.


(** X18. Once the scan has returned and the report is rendered, the report
    file and the saved mapping are final: whatever the e-mail step does
    afterwards, a [ValueError] on SMTP_PORT or a failing e-mail template
    included, [main] ends with [index.html] holding the rendered page and
    [seen_jobs.json] holding the mapping the scan saved. *)
Theorem report_and_mapping_survive_email_failure
  (CONFIG : Config.t) (SERPAPI_KEY : string) (environ : gmap string string)
  (http_get : nat -> list (string * string) -> http_outcome)
  (clock : nat -> instant) (get_template : string -> result template)
  (smtp_outcome : nat -> option string) (w w1 w2 : world)
  (all new : list Job.t)
  (Hscan : run_scan CONFIG SERPAPI_KEY http_get clock (banner clock w)
           = (Ok (all, new), w1))
  (Hrender : render_html CONFIG clock get_template all new w1 = (Ok tt, w2)) :
  index_html (main CONFIG SERPAPI_KEY environ http_get clock get_template
                   smtp_outcome w).2 = index_html w2 /\
  is_Some (index_html w2) /\
  seen_json (main CONFIG SERPAPI_KEY environ http_get clock get_template
                  smtp_outcome w).2 = seen_json w1 /\
  exists seen1, seen_json w1 = Stored seen1.
Proof.
  rewrite (main_render_Ok CONFIG SERPAPI_KEY environ http_get clock get_template
             smtp_outcome w w1 w2 all new Hscan Hrender).
  destruct (main_tail CONFIG environ clock get_template smtp_outcome all new w2)
    as (Hseen & Hidx & _).
  pose proof (render_html_cases CONFIG clock get_template all new w1)
    as (Hseen2 & _ & _ & Hcases).
  rewrite Hrender in Hseen2, Hcases. simpl in Hseen2, Hcases.
  destruct Hcases as [(e & He & _)|(tmpl & args & html & _ & _ & _ & Hhtml & _)];
    [discriminate |].
  destruct (run_scan_Ok_outside _ _ _ _ _ _ _ _ Hscan) as (_ & _ & seen1 & Hstored).
  split; [exact Hidx |]. split; [rewrite Hhtml; now eexists |].
  split; [now rewrite Hseen, Hseen2 | now exists seen1].
Qed.

Lemma report_and_mapping_survive_email_failure_witness :
  exists e w',
    main Sample.config "key" Sample.blank_port_environ Sample.http Sample.clock
         Sample.templates Sample.smtp_fine (Sample.boot NoFile) = (Raise e, w') /\
    index_html w' = Some "index.html" /\
    exists all new w1 w2,
      run_scan Sample.config "key" Sample.http Sample.clock
               (banner Sample.clock (Sample.boot NoFile)) = (Ok (all, new), w1) /\
      render_html Sample.config Sample.clock Sample.templates all new w1
      = (Ok tt, w2) /\
      index_html (main Sample.config "key" Sample.blank_port_environ Sample.http
                       Sample.clock Sample.templates Sample.smtp_fine
                       (Sample.boot NoFile)).2 = index_html w2 /\
      is_Some (index_html w2) /\
      seen_json (main Sample.config "key" Sample.blank_port_environ Sample.http
                      Sample.clock Sample.templates Sample.smtp_fine
                      (Sample.boot NoFile)).2 = seen_json w1 /\
      exists seen1, seen_json w1 = Stored seen1.
Proof.
  eexists _, _. split; [vm_compute; reflexivity |].
  split; [reflexivity |].
  eexists _, _, _, _.
  split; [vm_compute; reflexivity |].
  split; [vm_compute; reflexivity |].
  eapply (report_and_mapping_survive_email_failure Sample.config "key"
            Sample.blank_port_environ Sample.http Sample.clock Sample.templates
            Sample.smtp_fine (Sample.boot NoFile)).
  - vm_compute. reflexivity.
  - vm_compute. reflexivity.
Defined.

Section MainOutcome.

Variable CONFIG : Config.t.
Variable SERPAPI_KEY : string.
Variable environ : gmap string string.
Variable http_get : nat -> list (string * string) -> http_outcome.
Variable clock : nat -> instant.
Variable get_template : string -> result template.
Variable smtp_outcome : nat -> option string.


End MainOutcome.



(* ===================================================================== *)
(** ** Failures that change nothing but the output                        *)
(* ===================================================================== *)

Section AlikeMonad.

Context {A B : Type}.

Lemma alike_ret (a : A) : alike (ret a) (ret a).
Proof. intros w1 w2 H. now split. Qed.

Lemma alike_raise (e : exn) : alike (@raise A e) (raise e).
Proof. intros w1 w2 H. now split. Qed.

Lemma alike_lift (r : result A) : alike (lift r) (lift r).
Proof. intros w1 w2 H. now split. Qed.

Lemma alike_bind (m1 m2 : M A) (k1 k2 : A -> M B) :
  alike m1 m2 -> (forall a, alike (k1 a) (k2 a)) ->
  alike (bind m1 k1) (bind m2 k2).
Proof.
  intros Hm Hk w1 w2 H. destruct (Hm w1 w2 H) as [Hres Hag]. unfold bind.
  destruct (m1 w1) as [[a1|e1] w1'], (m2 w2) as [[a2|e2] w2'];
    simpl in Hres, Hag; try discriminate Hres.
  - injection Hres as ->. now apply Hk.
  - injection Hres as ->. now split.
Qed.

End AlikeMonad.

Section AlikeLoop.

Context {A S : Type}.

Lemma alike_for_each (body1 body2 : A -> S -> M S) (xs : list A) :
  (forall x s, alike (body1 x s) (body2 x s)) ->
  forall s, alike (for_each xs body1 s) (for_each xs body2 s).
Proof.
  intros Hbody. induction xs as [|x xs IH]; intros s; simpl.
  - apply alike_ret.
  - apply alike_bind; [apply Hbody | exact IH].
Qed.

End AlikeLoop.

Lemma alike_print (line1 line2 : string) : alike (print line1) (print line2).
Proof. intros w1 w2 H. split; [reflexivity | exact H]. Qed.

Lemma alike_datetime_now (clock : nat -> instant) :
  alike (datetime_now clock) (datetime_now clock).
Proof.
  intros w1 w2 (Hs & Hi & Hr & Ht & Hm). unfold datetime_now. simpl.
  rewrite Ht. repeat split; auto.
Qed.

Lemma alike_load_seen : alike load_seen load_seen.
Proof.
  intros w1 w2 H. pose proof H as (Hs & _). unfold load_seen. rewrite Hs.
  destruct (seen_json w2); simpl; split; auto.
Qed.

Lemma alike_save_seen (seen : gmap string string) :
  alike (save_seen seen) (save_seen seen).
Proof. intros w1 w2 (Hs & Hi & Hr & Ht & Hm). repeat split; auto. Qed.

Lemma alike_write_index (html : string) : alike (write_index html) (write_index html).
Proof. intros w1 w2 (Hs & Hi & Hr & Ht & Hm). repeat split; auto. Qed.

Section AlikeScan.

Variable CONFIG : Config.t.
Variable SERPAPI_KEY : string.
Variable http1 http2 : nat -> list (string * string) -> http_outcome.
Variable clock : nat -> instant.
Hypothesis Hsame : same_postings http1 http2.

Lemma same_postings_listed (n : nat) (q where_ : string) :
  listed SERPAPI_KEY http1 n q where_ = listed SERPAPI_KEY http2 n q where_.
Proof.
  unfold listed. destruct (PyStr.truthy SERPAPI_KEY); [|reflexivity].
  destruct (Hsame n (serpapi_params SERPAPI_KEY q where_)) as [->|[H1 H2]];
    [reflexivity |].
  destruct (http1 n (serpapi_params SERPAPI_KEY q where_)) as [e1|[[|r1 l1]|]],
           (http2 n (serpapi_params SERPAPI_KEY q where_)) as [e2|[[|r2 l2]|]];
    simpl in *; try reflexivity; contradiction.
Qed.

(** A request that fails is a request that brings nothing. *)
Lemma alike_search_serpapi (q where_ : string) :
  alike (search_serpapi SERPAPI_KEY http1 q where_)
        (search_serpapi SERPAPI_KEY http2 q where_).
Proof.
  intros w1 w2 (Hs & Hi & Hr & Ht & Hm).
  destruct (search_serpapi_listed SERPAPI_KEY http1 q where_ w1)
    as (w1' & Hrun1 & Ht1 & Hr1).
  destruct (search_serpapi_listed SERPAPI_KEY http2 q where_ w2)
    as (w2' & Hrun2 & Ht2 & Hr2).
  pose proof (search_serpapi_keeps_outside SERPAPI_KEY http1 q where_ w1) as Ho1.
  pose proof (search_serpapi_keeps_outside SERPAPI_KEY http2 q where_ w2) as Ho2.
  rewrite Hrun1 in *. rewrite Hrun2 in *. simpl in *.
  unfold outside in Ho1, Ho2.
  injection Ho1 as Hs1 Hi1 Hm1. injection Ho2 as Hs2 Hi2 Hm2.
  split.
  - now rewrite Hr, same_postings_listed.
  - unfold agree.
    rewrite Hs1, Hs2, Hi1, Hi2, Hm1, Hm2, Hr1, Hr2, Ht1, Ht2, Hr. auto.
Qed.

Lemma alike_scan_result (raw : Raw.t) (s : scan) :
  alike (scan_result CONFIG clock raw s) (scan_result CONFIG clock raw s).
Proof.
  intros w1 w2 (Hs & Hi & Hr & Ht & Hm). rewrite !scan_result_run.
  unfold agree. simpl. rewrite Hs, Hi, Hr, Ht, Hm. repeat split.
Qed.

Lemma alike_scan_query (loc : Location.t) (q : string) (s : scan) :
  alike (scan_query CONFIG SERPAPI_KEY http1 clock loc q s)
        (scan_query CONFIG SERPAPI_KEY http2 clock loc q s).
Proof.
  unfold scan_query.
  apply alike_bind; [apply alike_lift | intros where_].
  apply alike_bind; [apply alike_print | intros _].
  apply alike_bind; [apply alike_search_serpapi | intros results].
  apply alike_bind; [apply alike_print | intros _].
  apply alike_for_each. intros raw sa. apply alike_scan_result.
Qed.

Lemma alike_search_loop (seen0 : gmap string string) :
  alike (search_loop CONFIG SERPAPI_KEY http1 clock seen0)
        (search_loop CONFIG SERPAPI_KEY http2 clock seen0).
Proof.
  apply alike_for_each. intros loc s.
  apply alike_for_each. intros q sa. apply alike_scan_query.
Qed.

Lemma alike_run_scan :
  alike (run_scan CONFIG SERPAPI_KEY http1 clock)
        (run_scan CONFIG SERPAPI_KEY http2 clock).
Proof.
  unfold run_scan.
  apply alike_bind; [apply alike_load_seen | intros seen0].
  apply alike_bind; [apply alike_search_loop | intros s].
  apply alike_bind.
  { apply alike_for_each. intros j acc. unfold dedup_step.
    apply alike_bind; [apply alike_lift | intros jid].
    destruct (decide (jid ∈ acc.1)); apply alike_ret. }
  intros d. apply alike_bind.
  { apply alike_for_each. intros j out. unfold keep_deduped.
    apply alike_bind; [apply alike_lift | intros jid].
    destruct (decide (jid ∈ d.1)); apply alike_ret. }
  intros deduped_new.
  apply alike_bind; [apply alike_save_seen | intros _]. apply alike_ret.
Qed.

End AlikeScan.

Section AlikeMain.

Variable CONFIG : Config.t.
Variable SERPAPI_KEY : string.
Variable environ : gmap string string.
Variable http1 http2 : nat -> list (string * string) -> http_outcome.
Variable clock : nat -> instant.
Variable get_template : string -> result template.
Variable smtp1 smtp2 : nat -> option string.
Hypothesis Hsame : same_postings http1 http2.

Lemma alike_render_html (all new : list Job.t) :
  alike (render_html CONFIG clock get_template all new)
        (render_html CONFIG clock get_template all new).
Proof.
  unfold render_html.
  apply alike_bind; [apply alike_lift | intros tmpl].
  apply alike_bind; [apply alike_datetime_now | intros now].
  apply alike_bind; [apply alike_lift | intros html].
  apply alike_bind; [apply alike_write_index | intros _].
  apply alike_print.
Qed.

Lemma alike_render_email (all new : list Job.t) :
  alike (render_email CONFIG clock get_template all new)
        (render_email CONFIG clock get_template all new).
Proof.
  unfold render_email.
  apply alike_bind; [apply alike_lift | intros tmpl].
  apply alike_bind; [apply alike_datetime_now | intros now].
  apply alike_lift.
Qed.

(** However the session ends, [send_email] has attempted the same session
    and returns. *)
Lemma alike_send_email (html : string) (n : nat) :
  alike (send_email environ smtp1 html n) (send_email environ smtp2 html n).
Proof.
  unfold send_email.
  destruct (PyStr.int_of_str (environ_get environ "SMTP_PORT" "587")) as [port|];
    [|apply alike_raise].
  destruct (negb (PyStr.truthy (environ_get environ "SMTP_USER" "") &&
                  PyStr.truthy (environ_get environ "SMTP_PASS" "") &&
                  PyStr.truthy (environ_get environ "EMAIL_TO" "")));
    [apply alike_print |].
  intros w1 w2 (Hs & Hi & Hr & Ht & Hm). unfold bind, smtp_session_run.
  destruct (smtp1 (List.length (sessions w1))),
           (smtp2 (List.length (sessions w2))); simpl;
    rewrite Hm; repeat split; auto.
Qed.

Lemma alike_notify (all new : list Job.t) :
  alike (notify CONFIG environ clock get_template smtp1 all new)
        (notify CONFIG environ clock get_template smtp2 all new).
Proof.
  unfold notify.
  destruct (default true (Config.email_enabled CONFIG)); [|apply alike_ret].
  apply alike_bind; [apply alike_render_email | intros html].
  destruct (negb (is_nil new) || force_email environ);
    [apply alike_send_email | apply alike_print].
Qed.

Lemma alike_main :
  alike (main CONFIG SERPAPI_KEY environ http1 clock get_template smtp1)
        (main CONFIG SERPAPI_KEY environ http2 clock get_template smtp2).
Proof.
  unfold main.
  apply alike_bind; [apply alike_print | intros _].
  apply alike_bind; [apply alike_datetime_now | intros now].
  apply alike_bind; [apply alike_print | intros _].
  apply alike_bind; [apply alike_print | intros _].
  apply alike_bind; [now apply alike_run_scan | intros [all new]].
  apply alike_bind; [apply alike_render_html | intros _].
  apply alike_bind; [apply alike_notify | intros _].
  apply alike_print.
Qed.

End AlikeMain.

(** X2. A request that fails counts as a request that brings nothing.
    Let two providers answer every request alike, except that where one
    fails, or leaves out ["jobs_results"], or lists nothing, the other may
    do any of these three. Then [run_scan] ends alike with both: it
    returns the same two lists or raises the same exception, writes the
    same mapping, and has made as many requests and read the clock as
    often; the runs differ in the lines they print only. *)
Theorem failed_request_counts_as_empty_answer
  (CONFIG : Config.t) (SERPAPI_KEY : string)
  (http1 http2 : nat -> list (string * string) -> http_outcome)
  (clock : nat -> instant) (w : world)
  (Hsame : forall n params,
      http1 n params = http2 n params \/
      (lists_nothing (http1 n params) /\ lists_nothing (http2 n params))) :
  (run_scan CONFIG SERPAPI_KEY http1 clock w).1
  = (run_scan CONFIG SERPAPI_KEY http2 clock w).1 /\
  seen_json (run_scan CONFIG SERPAPI_KEY http1 clock w).2
  = seen_json (run_scan CONFIG SERPAPI_KEY http2 clock w).2 /\
  requests (run_scan CONFIG SERPAPI_KEY http1 clock w).2
  = requests (run_scan CONFIG SERPAPI_KEY http2 clock w).2 /\
  ticks (run_scan CONFIG SERPAPI_KEY http1 clock w).2
  = ticks (run_scan CONFIG SERPAPI_KEY http2 clock w).2.
Proof.
  destruct (alike_run_scan CONFIG SERPAPI_KEY http1 http2 clock Hsame w w)
    as (Hres & Hs & _ & Hr & Ht & _); [repeat split | auto].
Qed.

Lemma failed_request_counts_as_empty_answer_witness :
  (run_scan Sample.config "key" Cases.flaky_http Sample.clock Cases.one_seen).1
  = (run_scan Sample.config "key" Cases.patchy_http Sample.clock Cases.one_seen).1 /\
  (run_scan Sample.config "key" Cases.flaky_http Sample.clock Cases.one_seen).1
  = Ok ([keyed Sample.id_nurse (Sample.clock 1)],
        [keyed Sample.id_nurse (Sample.clock 1)]) /\
  stdout (run_scan Sample.config "key" Cases.flaky_http Sample.clock Cases.one_seen).2
  <> stdout (run_scan Sample.config "key" Cases.patchy_http Sample.clock
                      Cases.one_seen).2.
Proof.
  split; [|split; [vm_compute; reflexivity | vm_compute; discriminate]].
  apply (failed_request_counts_as_empty_answer Sample.config "key"
           Cases.flaky_http Cases.patchy_http Sample.clock Cases.one_seen).
  intros [|[|n]] params; simpl; auto.
Defined.

(** X19. Neither a failing provider nor a failing mail server changes what
    [main] does, but for the lines it prints. Let two providers answer
    alike except where both bring nothing (a failure, an answer without
    ["jobs_results"], an empty list), and let the SMTP sessions end in
    any two ways. Then [main] ends alike in both cases, returning or
    raising the same exception; it leaves the same [seen_jobs.json] and
    the same [index.html], attempts the same SMTP sessions with the same
    messages, and makes as many requests. In particular a session that
    fails never makes [main] raise where it would have returned. *)
Theorem failures_change_only_the_output
  (CONFIG : Config.t) (SERPAPI_KEY : string) (environ : gmap string string)
  (http1 http2 : nat -> list (string * string) -> http_outcome)
  (clock : nat -> instant) (get_template : string -> result template)
  (smtp1 smtp2 : nat -> option string) (w : world)
  (Hsame : forall n params,
      http1 n params = http2 n params \/
      (lists_nothing (http1 n params) /\ lists_nothing (http2 n params))) :
  (main CONFIG SERPAPI_KEY environ http1 clock get_template smtp1 w).1
  = (main CONFIG SERPAPI_KEY environ http2 clock get_template smtp2 w).1 /\
  seen_json (main CONFIG SERPAPI_KEY environ http1 clock get_template smtp1 w).2
  = seen_json (main CONFIG SERPAPI_KEY environ http2 clock get_template smtp2 w).2 /\
  index_html (main CONFIG SERPAPI_KEY environ http1 clock get_template smtp1 w).2
  = index_html (main CONFIG SERPAPI_KEY environ http2 clock get_template smtp2 w).2 /\
  sessions (main CONFIG SERPAPI_KEY environ http1 clock get_template smtp1 w).2
  = sessions (main CONFIG SERPAPI_KEY environ http2 clock get_template smtp2 w).2 /\
  requests (main CONFIG SERPAPI_KEY environ http1 clock get_template smtp1 w).2
  = requests (main CONFIG SERPAPI_KEY environ http2 clock get_template smtp2 w).2.
Proof.
  destruct (alike_main CONFIG SERPAPI_KEY environ http1 http2 clock get_template
              smtp1 smtp2 Hsame w w) as (Hres & Hs & Hi & Hr & _ & Hm);
    [repeat split | auto].
Qed.

Lemma failures_change_only_the_output_witness :
  (main Sample.config "key" Sample.mail_environ Cases.flaky_http Sample.clock
        Sample.templates (fun _ => Some "authentication failed")
        (Sample.boot NoFile)).1
  = Ok tt /\
  (main Sample.config "key" Sample.mail_environ Cases.flaky_http Sample.clock
        Sample.templates (fun _ => Some "authentication failed")
        (Sample.boot NoFile)).1
  = (main Sample.config "key" Sample.mail_environ Cases.patchy_http Sample.clock
          Sample.templates Sample.smtp_fine (Sample.boot NoFile)).1 /\
  sessions (main Sample.config "key" Sample.mail_environ Cases.flaky_http
                 Sample.clock Sample.templates
                 (fun _ => Some "authentication failed") (Sample.boot NoFile)).2
  = sessions (main Sample.config "key" Sample.mail_environ Cases.patchy_http
                   Sample.clock Sample.templates Sample.smtp_fine
                   (Sample.boot NoFile)).2.
Proof.
  split; [vm_compute; reflexivity |].
  destruct (failures_change_only_the_output Sample.config "key" Sample.mail_environ
              Cases.flaky_http Cases.patchy_http Sample.clock Sample.templates
              (fun _ => Some "authentication failed") Sample.smtp_fine
              (Sample.boot NoFile)) as (Hres & _ & _ & Hm & _).
  - intros [|[|n]] params; simpl; auto.
  - split; [exact Hres | exact Hm].
Defined.

(** X21. A posting is reported as new at most once: when a run starts from
    the mapping an earlier run saved, none of its new jobs has the key of
    a job the earlier run returned, even if the configuration, the API key
    or the provider's answers have changed in between. *)
Theorem posting_is_new_at_most_once
  (CONFIG1 CONFIG2 : Config.t) (KEY1 KEY2 : string)
  (http1 http2 : nat -> list (string * string) -> http_outcome)
  (clock1 clock2 : nat -> instant)
  (w1 w1' w2 w2' : world) (all1 new1 all2 new2 : list Job.t)
  (Hfirst : run_scan CONFIG1 KEY1 http1 clock1 w1 = (Ok (all1, new1), w1'))
  (Hcarried : seen_json w2 = seen_json w1')
  (Hsecond : run_scan CONFIG2 KEY2 http2 clock2 w2 = (Ok (all2, new2), w2')) :
  forall j1 j2, j1 ∈ all1 -> j2 ∈ new2 -> Job.id j1 <> Job.id j2.
Proof.
  apply run_scan_Ok in Hfirst as (s1 & wl1 & ids1 & _ & Hinv1 & Hd1 & _ & ->).
  apply run_scan_Ok in Hsecond as (s2 & wl2 & ids2 & _ & Hinv2 & _ & -> & _).
  simpl in Hcarried.
  assert (seen_at_start w2 = seen s1) as Hstart
      by (unfold seen_at_start; now rewrite Hcarried).
  rewrite Hstart in Hinv2.
  intros j1 j2 Hj1 Hj2 Heq.
  apply (dd_first _ _ Hd1), first_with_id_elem in Hj1.
  destruct (inv_keyed _ _ Hinv1 j1 Hj1) as [Hkey1 [t1 Ht1]].
  destruct (inv_new _ _ Hinv2 j2 Hj2) as (k & t & Hid2 & Hk0 & _).
  assert (k = job_id j1) as -> by congruence. congruence.
Qed.

Lemma posting_is_new_at_most_once_witness :
  exists all1 new1 w1' all2 new2 w2',
    Sample.scan (Sample.boot NoFile) = (Ok (all1, new1), w1') /\
    run_scan Sample.config "key" Cases.later_http Sample.clock
             (Sample.boot (seen_json w1')) = (Ok (all2, new2), w2') /\
    List.length all2 = 2%nat /\ List.length new2 = 1%nat /\
    forall j1 j2, j1 ∈ all1 -> j2 ∈ new2 -> Job.id j1 <> Job.id j2.
Proof.
  eexists _, _, _, _, _, _.
  split; [vm_compute; reflexivity |].
  split; [vm_compute; reflexivity |].
  split; [reflexivity |]. split; [reflexivity |].
  eapply (posting_is_new_at_most_once Sample.config Sample.config "key" "key"
            Sample.http Cases.later_http Sample.clock Sample.clock
            (Sample.boot NoFile) _
            (Sample.boot (Stored (<["0809d7986996" := "2026-01-01T00:00:3"]>
                                    {["92ea612c7b05" := "2026-01-01T00:00:0"]})))).
  - vm_compute. reflexivity.
  - vm_compute. reflexivity.
  - vm_compute. reflexivity.
Defined.
